(* ===== verification/_CoqProject ===== *)
-Q . S2P
Prelude.v
Utf8.v
DotEnv.v
Duration.v
Float64.v
GoMath.v
Rounding.v
Json.v
JsonText.v
JsonRead.v
World.v
Fetch.v
Driver.v
Machine.v
