(* ===== verification/Prelude.v ===== *)
(** * A verification library for go-weather-api ([src/main.go])

    ** The program

    [src/main.go] is a single-pass Go program with three parts that call
    one another and share no mutable state besides the process output:

    - the *rounding helper* [round(val, decimals, mode)] (lines 83-94):
      float64 arithmetic around [math.Pow], [math.Ceil], [math.Floor]
      and [math.Round], dispatched on a mode string;
    - the *weather fetcher* [fetchWeatherData(lat, lon, apiKey, logger)]
      (lines 23-41): builds a request URL with [fmt.Sprintf], performs
      one [http.Get], decodes the body with [encoding/json] into the
      structs [WeatherResponse]/[Temperature] (lines 15-21), closes the
      body (deferred) and logs each failure before returning it;
    - the *driver* [main] (lines 43-81): starts a timer, builds a
      [slog] text logger, loads [.env] with [godotenv.Load], reads
      [API_KEY], builds the four-city registry (a Go map) and ranges
      over it in Go's unspecified map order, fetching, converting Kelvin
      to Celsius ([temperature.Temp - 273.15]), rounding and logging
      each city; two deferred calls log "Application stopped" and print
      the execution time.

    ** Files and what they model (in the order of [_CoqProject])

    - [Prelude] (this file): the state monad [St] the effectful
      components are written in, with its notations ([let*], [;;;]) in
      [weather_scope], [st_for] for a Go [for ... range], the tactics
      [st_unfold] and [destruct_ifs], the hint databases [weather] and
      [weather_rw], the list lemmas the components share ([count_if]
      and folds), the closure [star] of a step relation, and lemmas on
      strings.
    - [Utf8] (Module [Utf8]): the text helpers of Go's library the
      [.env] parser and the JSON decoder call, on Rocq strings as bytes:
      [utf8.DecodeRune] with the accept ranges of the lead byte
      ([decode_rune]), [utf8.DecodeLastRune], [utf8.EncodeRune]
      ([utf8]), the conversions [[]rune(s)] and [string(rs)],
      [bytes.IndexFunc] and the [Trim*Func] family, [unicode.IsSpace],
      and [strconv.Quote] ([go_quote], [quote_inner]).
    - [DotEnv] (Module [DotEnv]): [godotenv.Load] of line 52 on the
      text of the file, as godotenv v1.5 [parser.go] and [godotenv.go]
      write it: [parseBytes] ([parse_loop]) with the CRLF replacement,
      [getStatementStart] (blank and comment lines),
      [locateKeyName] (the [export] prefix, the key characters, the
      errors on an unexpected character or an empty key),
      [extractVarValue] (unquoted values with their inline comment and
      trimming, single- and double-quoted values, [expandEscapes],
      [expandVariables] on [$NAME] and [${NAME}]), and [loadFile]
      ([load_env]): every parsed variable not already in the
      environment and accepted by [os.Setenv] is set.  Errors are a
      [result] with its [let?] bind.
    - [Float64] (Module [F64]): IEEE-754 binary64, the semantics of Go's
      [float64], on the Standard Library's [SpecFloat] (exact,
      executable, no axioms): [-], [*], [/], conversion of integers and
      of decimal literals (Go constants such as [273.15], and JSON
      numbers through [strconv.ParseFloat]), with the exactness lemmas
      of rounding and division the other files use.
    - [GoMath] (Module [GoMath]): the Go [math] functions [round]
      calls: [Round] (half away from zero), [Floor] and [Ceil] on the
      mantissa and exponent of their argument, and [Pow(10, d)] as
      [pow.go] computes it for an integral exponent (the special cases,
      the repeated-squaring loop over the bits of [d], the reciprocal for
      a negative [d]).
    - [Rounding] (Module [Rounding]): [round] of main.go (lines 84-94)
      with its [switch mode], the Kelvin-to-Celsius conversion of the
      loop (line 77) and [celsius_round] (lines 77-79); the spec's exact
      decimal rounding [spec_celsius_round] to compare with.
    - [Json] (Module [Json]): JSON values, the types [Temperature] and
      [WeatherResponse] (lines 15-21), and what [encoding/json] does
      when it decodes a value into them: field selection by tag with
      Go 1.21 key folding ([fold_name]), [null], type errors (the first is kept), duplicate
      keys decoded in place, [ParseFloat]; [spec_main_temp] is the
      spec's reading "the number at [main.temp]".
    - [JsonText] (Module [JsonText]): the scanner's pieces on the text
      of the body: whitespace, strings with escapes and surrogate pairs,
      numbers, literals, with Go's syntax error messages; the lemmas
      that every piece consumes input; Go's string encoder, the writer
      side of the scanner, for the round trip.
    - [JsonRead] (Module [JsonRead]): [Decoder.Decode]: the recursive
      descent over objects and arrays with the scanner's nesting limit
      (10000), [read_value] (the first value, the error and its byte
      offset, bytes after the value left unread) and [decode_body]
      (reading, then [Json.unmarshal]).
    - [Duration] (Module [Duration]): the execution timer of lines
      45-48 on [int64] nanoseconds kept as [Z] with their wrap-around
      written out ([wrap64], [swrap64]): [time.Since] as the runtime's
      [subMono] (the wrapped difference, saturated to [minDuration] or
      [maxDuration] when it overflowed), and [Duration.String] as
      [time.Duration.format] writes it ([fmtFrac], [fmtInt], the units
      [ns], [µs], [ms] and [h]/[m]/[s]), giving [exec_time_line], the
      line the deferred closure prints.
    - [World] (Module [World]): the process state threaded through
      [St World]: the environment (a [gmap]), the [.env] file (missing,
      unreadable, or its text), the
      network (an oracle from request number and URL to an outcome), the
      request counter, the output trace, and the monotonic clock (an
      oracle from the number of earlier readings to an [int64]
      reading); [slog] levels and [log], [os.Getenv], [http.Get],
      [resp.Body.Close] and [time.Now].
    - [Fetch] (Module [Fetch]): [fetchWeatherData] (lines 23-41) as a
      state transformer; the typeclass [Fetcher], the contract the driver
      relies on (one request per call, to the URL of its arguments;
      result and output functions of the network's answer; at most one
      Error record, exactly on failure), and its instance
      [FetchWeatherData], proved from the definition; the contract
      also bounds the closes of response bodies.
    - [Driver] (Module [Driver]): [godotenv.Load] on the world (the
      parse of [DotEnv], or the file's error, logged), the registry
      [cities] (a [gmap], lines 63-68), one loop iteration
      [city_iteration] (lines 70-80), the deferred timer closure
      [print_elapsed] (lines 46-48), [main_with_order] (lines 43-81)
      for a given iteration order, and [main_runs] over every order that
      is a permutation of the map (Go does not fix the order of a map
      range).  The section [Driver] proves the loop against any
      [Fetcher]; the end of the file instantiates it with
      [fetchWeatherData].
    - [Machine] (Module [Machine]): [main] as a small-step transition
      system, one transition per statement ([step] on [Pc * Z * World],
      the [Z] being the [startNow] the deferred closure captures), the
      [range] being the one nondeterministic transition (it picks the
      iteration order).

    ** The theorems, by claim

    - Driver (C1-C4, C12, C24, C31): for every iteration order the city
      records of a run are one per registry entry, for the answer to
      that city's URL (C1, refinement of the spec's loop); with [M]
      failing cities a run writes [4 - M] success, [M] failure and
      [2 M] (+1 when [.env] fails) error records (C2); exactly one
      request per city, to its URL, and the output ends with
      "Application stopped" and then the execution-time line (C3); the
      key sent is the environment's, then the one the [.env] parser
      reads, then empty (C4); a service answering with its 401 body
      makes every city a "successful" -273.15 (C12); with a clock that
      does not go backwards, the last line is "Execution time: " and the
      clamped difference of [main]'s two readings (C24); with [API_KEY]
      unset, [main] sends the value a plain [.env] gives it (C31).  They
      are stated on the trace [main_with_order] produces.
    - Rounding (C5, C18): in every mode but "ceil" and "floor" the
      result is the binary64 of [n / 100] for [n] the [math.Round] of
      the product (C5); [round] returns NaN when [Pow(10, d)] overflows
      or underflows, [309 <= d <= 2000] and [-2000 <= d <= -324] (C18).
    - JSON (C6-C8, C15-C17, C20, C21): a body without [main.temp]
      decodes without error to 0 K (C6); on the spec's shape the decoder
      returns the spec's number (C7, refinement); the keys that select
      [Main] are exactly the spellings of [main] in either case, with
      U+0130 or U+0131 for the [i] (C8); bytes after a complete value
      are ignored (C15); the reader's fuel is enough and more fuel
      changes nothing (C16, termination); 10000 nested arrays are read
      and 10001 are the "exceeded max depth" error (C17); a type error
      does not stop decoding and the first one is returned (C20);
      strings written by Go's encoder read back (C21, round trip).
    - Fetch (C9-C11): the body is closed exactly once on every path that
      opens it (C9); the status is never checked, a 401 body is a
      success at 0 K (C10); the URL embeds its arguments unescaped, so
      moving a query separator between arguments gives the same URL
      (C11).
    - Go math (C13, C14): [Floor <= Round <= Ceil] are integers
      bracketing the argument, [Round] within half a unit and away from
      zero at a half-way point (C13); [Pow(10, d)] is the nearest
      binary64 to [10^d] for [|d| <= 22] (C14).
    - Machine (C19): the output stays well formed, requests counted and
      each body closed at most once and only after its request, an
      invariant by rule induction.
    - Timer (C22, C23): for two [int64] readings [time.Since] is their
      difference clamped to the [int64] range (C22); [Duration.format]
      stays inside its 32-byte buffer for every [int64] duration (C23).
    - Configuration (C25-C30): the [.env] parser never runs out of
      fuel (C25, termination); a file of plain [KEY=value] lines parses
      back to its pairs, the last line winning (C26, round trip); an
      unclosed double quote and a bad key character are the parser's
      errors with their text (C27, C28); for all plain names and values
      an escaped quote before the closing one is lost (C29) and an
      inline comment starts at the last space-hash of the line (C30).
    - Text (C32): [utf8.DecodeRune] reads back every valid rune
      [utf8.EncodeRune] writes, with its width (round trip).
    Each theorem with a hypothesis has a witness lemma applying it to a
    concrete input.  Examples next to them evaluate the definitions on
    the spec's samples and on the documented behaviour of the libraries
    ([celsius_round_samples], [duration_string_samples],
    [dotenv_samples], [dotenv_quirks]).

    ** Bounds and fuel

    [pow_loop] runs on fuel 64: [pow.go] loops once per bit of
    [|d|], and it takes this loop only for [|d| < 2^63], so 64 rounds
    are always enough.  The JSON reader spends one unit of fuel per
    call; an array costs three calls before it consumes its first
    element, so [read_value] gives [3 * length body + 1], and C16 proves
    that this never runs out and that more fuel gives the same result.
    [math.Pow]'s out-of-range results are checked on the table
    [|d| <= 2000] by [vm_compute], as are the float computations of the
    concrete theorems.  The [.env] parser's loops ([parse_loop],
    [get_statement_start], [expand_vars_fuel], the rune loops of
    [Utf8]) run on the length of the text as fuel; each round consumes
    at least one byte, and C25 proves that the parser never reports
    [OutOfFuel].

    ** What is not modelled

    The text rendering of [slog] records (time stamps, quoting, the
    shortest-decimal printing of floats) is not modelled: records are
    kept as structured values, and the clock readings [slog] takes for
    its time stamps are not counted among the clock's readings.  The
    clock is the monotonic reading only: the wall-clock part of a
    [time.Time] does not reach [time.Since].  The network is an oracle
    from request number and URL to an outcome that always answers: a
    server that never answers, on which the real [http.Get] without a
    client timeout waits forever, is not modelled, nor is connection
    reuse.  Go's key folding [unicode.ToUpper(unicode.ToLower(r))] is
    exact up to U+00FF and on the four runes whose fold is an ASCII
    letter; other runes keep their value, a non-ASCII rune as in Go,
    so which keys select a field is exact.  The file
    system is an oracle for the one file [.env] (its text or its
    error).  [strconv.IsPrint] is exact on Latin-1 only: above U+00FF
    [is_print] treats every rune but white space as printable, which
    changes the text of error messages only.  godotenv's
    [unicode.IsLetter]/[IsNumber] on a key byte see the byte as a
    Latin-1 rune, as Go does when it converts each byte to a rune. *)

From Stdlib Require Import ZArith Lia List String.
From stdpp Require Import base list.

Declare Scope weather_scope.
Delimit Scope weather_scope with weather.

(** ** A state monad for the effectful Go code *)

Definition St (S A : Type) : Type := S -> A * S.

Definition st_ret {S A : Type} (a : A) : St S A := fun s => (a, s).

Definition st_bind {S A B : Type} (m : St S A) (k : A -> St S B) : St S B :=
  fun s => let '(a, s') := m s in k a s'.

Definition st_get {S : Type} : St S S := fun s => (s, s).

Definition st_modify {S : Type} (f : S -> S) : St S unit := fun s => (tt, f s).

Notation "'let*' x ':=' m 'in' k" := (st_bind m (fun x => k))
  (at level 10, x name, m at level 100, k at level 200) : weather_scope.

Notation "m ;;; k" := (st_bind m (fun _ => k))
  (at level 100, right associativity) : weather_scope.

Open Scope weather_scope.

(** A Go [for ... range] over a list of items, one body run per item. *)
Fixpoint st_for {S A : Type} (body : A -> St S unit) (l : list A) : St S unit :=
  match l with
  | [] => st_ret tt
  | x :: l' => body x ;;; st_for body l'
  end.

(** ** Tactics *)

(** Unfold the monad and compute the sequencing. *)
Ltac st_unfold := unfold st_bind, st_ret, st_get, st_modify in *; simpl in *.

(** Case on every [if] of the goal. *)
Ltac destruct_ifs :=
  repeat match goal with |- context [if ?b then _ else _] => destruct b end.

Create HintDb weather discriminated.
Create Rewrite HintDb weather_rw.

(** ** Lemmas on the monad *)

Lemma st_bind_ret_l {S A B : Type} (a : A) (k : A -> St S B) (s : S) :
  st_bind (st_ret a) k s = k a s.
Proof. reflexivity. Qed.

Lemma st_bind_assoc {S A B C : Type} (m : St S A) (k : A -> St S B)
      (h : B -> St S C) (s : S) :
  st_bind (st_bind m k) h s = st_bind m (fun a => st_bind (k a) h) s.
Proof. unfold st_bind. destruct (m s). reflexivity. Qed.

Lemma st_bind_ext {S A B : Type} (m : St S A) (k1 k2 : A -> St S B) (s : S) :
  (forall a s', k1 a s' = k2 a s') -> st_bind m k1 s = st_bind m k2 s.
Proof. intros Hk. unfold st_bind. destruct (m s). apply Hk. Qed.

Lemma st_for_app {S A : Type} (body : A -> St S unit) (l1 l2 : list A) (s : S) :
  st_for body (l1 ++ l2) s = st_bind (st_for body l1) (fun _ => st_for body l2) s.
Proof.
  revert s. induction l1 as [|x l1 IH]; intros s; [reflexivity|].
  simpl. rewrite st_bind_assoc. apply st_bind_ext. intros _ s'. apply IH.
Qed.

#[export] Hint Rewrite @st_bind_ret_l @st_bind_assoc   : weather_rw.

(** ** Lemmas on lists *)

(** The number of elements of a list that satisfy a test, as the
    components count log records. *)
Definition count_if {A : Type} (p : A -> bool) (l : list A) : nat :=
  length (List.filter p l).

Lemma count_if_app {A : Type} (p : A -> bool) (l1 l2 : list A) :
  count_if p (l1 ++ l2) = count_if p l1 + count_if p l2.
Proof. unfold count_if. rewrite List.filter_app, length_app. reflexivity. Qed.

Lemma count_if_nil {A : Type} (p : A -> bool) : count_if p [] = 0.
Proof. reflexivity. Qed.

Lemma count_if_cons {A : Type} (p : A -> bool) (x : A) (l : list A) :
  count_if p (x :: l) = (if p x then 1 else 0) + count_if p l.
Proof. unfold count_if. simpl. destruct (p x); reflexivity. Qed.

Lemma count_if_perm {A : Type} (p : A -> bool) (l1 l2 : list A) :
  Permutation l1 l2 -> count_if p l1 = count_if p l2.
Proof.
  induction 1; rewrite ?count_if_cons; lia.
Qed.

#[export] Hint Rewrite @count_if_app @count_if_nil @count_if_cons : weather_rw.

Lemma count_if_ext {A : Type} (p q : A -> bool) (l : list A) :
  Forall (fun x => p x = q x) l -> count_if p l = count_if q l.
Proof. induction 1 as [|x l Hx _ IH]; rewrite ?count_if_cons; [reflexivity|]. rewrite Hx, IH. reflexivity. Qed.

Lemma filter_all_false {A : Type} (p : A -> bool) (l : list A) :
  Forall (fun x => p x = false) l -> List.filter p l = [].
Proof. induction 1 as [|x l Hx _ IH]; simpl; [reflexivity|]. rewrite Hx. exact IH. Qed.

Lemma count_if_false {A : Type} (p : A -> bool) (l : list A) :
  Forall (fun x => p x = false) l -> count_if p l = 0.
Proof. induction 1; rewrite ?count_if_cons; [reflexivity|]. rewrite H. assumption. Qed.

(** A left fold whose step keeps the accumulator at every element
    returns the accumulator. *)
Lemma fold_left_fixed {A B : Type} (f : B -> A -> B) (l : list A) (b : B) :
  Forall (fun a => f b a = b) l -> fold_left f l b = b.
Proof. induction 1 as [|a l Ha _ IH]; simpl; [reflexivity|]. rewrite Ha. exact IH. Qed.

(** A left fold whose step ignores the elements that fail a test folds
    the filtered list to the same result. *)
Lemma fold_left_filter_skip {A B : Type} (p : A -> bool) (f : B -> A -> B) (l : list A) (b : B) :
  (forall b' a, p a = false -> f b' a = b') ->
  fold_left f l b = fold_left f (List.filter p l) b.
Proof.
  intros Hskip. revert b. induction l as [|a l IH]; intros b; [reflexivity|].
  simpl. destruct (p a) eqn:Ea; simpl; [apply IH|]. rewrite Hskip by assumption. apply IH.
Qed.
(** ** Sequences of transitions *)

(** Zero, one or several transitions of a step relation. *)
Inductive star {A : Type} (R : A -> A -> Prop) : A -> A -> Prop :=
| star_refl a : star R a a
| star_step a b c : R a b -> star R b c -> star R a c.

Lemma star_one {A : Type} (R : A -> A -> Prop) (a b : A) : R a b -> star R a b.
Proof. intros H. eapply star_step; [exact H | apply star_refl]. Qed.

Lemma star_trans {A : Type} (R : A -> A -> Prop) (a b c : A) :
  star R a b -> star R b c -> star R a c.
Proof. induction 1; [auto|]. intros. eapply star_step; eauto. Qed.

#[export] Hint Constructors star : weather.
#[export] Hint Resolve star_one star_trans : weather.

(** ** Lemmas on strings *)

Lemma string_app_nil_r (s : string) : (s ++ "")%string = s.
Proof. induction s as [|c s IH]; simpl; [reflexivity|]. rewrite IH. reflexivity. Qed.

Lemma string_app_assoc (a b c : string) : ((a ++ b) ++ c)%string = (a ++ (b ++ c))%string.
Proof. induction a as [|x a IH]; simpl; [reflexivity|]. rewrite IH. reflexivity. Qed.

Lemma string_length_app (a b : string) : String.length (a ++ b) = String.length a + String.length b.
Proof. induction a as [|x a IH]; simpl; [reflexivity|]. rewrite IH. reflexivity. Qed.

#[export] Hint Resolve count_if_perm : weather.
