(* ===== verification/Utf8.v ===== *)
(** * Bytes and runes: [unicode/utf8], the trimming and search helpers
      of [bytes]/[strings], and [strconv.Quote]

    Go keeps a string as bytes and reads UTF-8 out of it only where a
    function asks for runes.  The [.env] parser [godotenv.Load] runs at
    main.go line 52 and the JSON scanner of line 36 both do, through
    these library functions, modelled here on Rocq strings (one [ascii]
    per byte):
    - [decode_rune] is [utf8.DecodeRune] (the accept ranges of the lead
      byte, an invalid or truncated sequence read as [RuneError] of width
      one) and [decode_last_rune] is [utf8.DecodeLastRune] (back to a
      rune start, at most [UTFMax] bytes);
    - [index_func], [trim_left_func], [trim_right_func] are
      [bytes.IndexFunc], [bytes.TrimLeftFunc] and
      [bytes.TrimRightFunc]/[strings.TrimRightFunc]: they decode runes
      and return byte offsets;
    - [runes] and [encode_runes] are the conversions [[]rune(s)] and
      [string(rs)] (an invalid byte becomes U+FFFD);
    - [go_quote] is [strconv.Quote], used by [%q] in error messages.
    The loops run on fuel, the length of the input, which they never
    exhaust since every step consumes at least one byte
    ([decode_rune_width]).

    [strconv.IsPrint] is exact on Latin-1 (U+0000 to U+00FF); above it,
    [is_print] counts every rune but the white-space ones as printable,
    where Go's tables also escape unassigned, format and private-use
    runes.  Only the text of error messages depends on it. *)

From S2P Require Import Prelude.
From Stdlib Require Import ZArith Lia String Ascii List.
From Stdlib Require Zbitwise.
Import ListNotations.
Open Scope string_scope.
Open Scope Z_scope.
Open Scope bool_scope.

Module Utf8.

(** ** Bytes *)

Definition byte (n : Z) : ascii := ascii_of_N (Z.to_N n).

Definition code (c : ascii) : Z := Z.of_N (N_of_ascii c).

(** [s[n:]] and [s[:n]]. *)
Fixpoint str_drop (n : nat) (s : string) : string :=
  match n, s with
  | O, _ => s
  | S n', String _ s' => str_drop n' s'
  | S _, EmptyString => EmptyString
  end.

Fixpoint str_take (n : nat) (s : string) : string :=
  match n, s with
  | O, _ => EmptyString
  | S n', String c s' => String c (str_take n' s')
  | S _, EmptyString => EmptyString
  end.

(** [s[i]] as a number; 0 out of range (never read there). *)
Definition code_at (i : nat) (s : string) : Z :=
  match String.get i s with Some c => code c | None => 0 end.

(** ** [unicode/utf8] *)

Definition RuneError : Z := 65533.
Definition RuneSelf : Z := 128.
Definition UTFMax : nat := 4.

(** [utf8.EncodeRune] of a valid rune. *)
Definition utf8 (u : Z) : string :=
  if u <? 128 then String (byte u) EmptyString
  else if u <? 2048 then
    String (byte (192 + u / 64)) (String (byte (128 + u mod 64)) EmptyString)
  else if u <? 65536 then
    String (byte (224 + u / 4096))
      (String (byte (128 + (u / 64) mod 64)) (String (byte (128 + u mod 64)) EmptyString))
  else
    String (byte (240 + u / 262144))
      (String (byte (128 + (u / 4096) mod 64))
        (String (byte (128 + (u / 64) mod 64)) (String (byte (128 + u mod 64)) EmptyString))).

Definition in_range (lo hi b : Z) : bool := (lo <=? b) && (b <=? hi).

(** [acceptRanges]: the second byte a lead byte allows ([E0] and [F0]
    exclude overlong forms, [ED] the surrogates, [F4] what is above
    U+10FFFF). *)
Definition accept_range (p0 : Z) : Z * Z :=
  if p0 =? 224 then (160, 191)
  else if p0 =? 237 then (128, 159)
  else if p0 =? 240 then (144, 191)
  else if p0 =? 244 then (128, 143)
  else (128, 191).

(** [utf8.DecodeRune]: the first rune and its width in bytes. *)
Definition decode_rune (s : string) : Z * nat :=
  match s with
  | EmptyString => (RuneError, 0%nat)
  | String c0 s1 =>
      let p0 := code c0 in
      if p0 <? RuneSelf then (p0, 1%nat)
      else if (p0 <? 194) || (244 <? p0) then (RuneError, 1%nat)
      else
        let (lo, hi) := accept_range p0 in
        match s1 with
        | EmptyString => (RuneError, 1%nat)
        | String c1 s2 =>
            let b1 := code c1 in
            if negb (in_range lo hi b1) then (RuneError, 1%nat)
            else if p0 <? 224 then (Z.lor (Z.shiftl (Z.land p0 31) 6) (Z.land b1 63), 2%nat)
            else
              match s2 with
              | EmptyString => (RuneError, 1%nat)
              | String c2 s3 =>
                  let b2 := code c2 in
                  if negb (in_range 128 191 b2) then (RuneError, 1%nat)
                  else if p0 <? 240 then
                    (Z.lor (Z.lor (Z.shiftl (Z.land p0 15) 12) (Z.shiftl (Z.land b1 63) 6)) (Z.land b2 63), 3%nat)
                  else
                    match s3 with
                    | EmptyString => (RuneError, 1%nat)
                    | String c3 _ =>
                        let b3 := code c3 in
                        if negb (in_range 128 191 b3) then (RuneError, 1%nat)
                        else (Z.lor (Z.lor (Z.lor (Z.shiftl (Z.land p0 7) 18) (Z.shiftl (Z.land b1 63) 12))
                                           (Z.shiftl (Z.land b2 63) 6)) (Z.land b3 63), 4%nat)
                    end
              end
        end
  end.

(** [utf8.RuneStart]: not a continuation byte. *)
Definition rune_start (b : Z) : bool := negb (Z.land b 192 =? 128).

(** The loop [for start--; start >= lim; start--] of [DecodeLastRune],
    entered with [start = k]: the first rune start below [k] and not
    below [lim], else [lim - 1] (and [0] for [-1]). *)
Fixpoint scan_back (k : nat) (p : string) (lim : nat) : nat :=
  match k with
  | O => O
  | S j => if (j <? lim)%nat then j
           else if rune_start (code_at j p) then j else scan_back j p lim
  end.

(** [utf8.DecodeLastRune]: the last rune and its width. *)
Definition decode_last_rune (p : string) : Z * nat :=
  match String.length p with
  | O => (RuneError, 0%nat)
  | S e1 =>
      let r := code_at e1 p in
      if r <? RuneSelf then (r, 1%nat)
      else
        let start := scan_back e1 p (S e1 - UTFMax) in
        let (r', size) := decode_rune (str_drop start p) in
        if (start + size =? S e1)%nat then (r', size) else (RuneError, 1%nat)
  end.

(** [[]rune(s)]: the runes of [s], forward. *)
Fixpoint runes_fuel (fuel : nat) (s : string) : list Z :=
  match fuel, s with
  | O, _ => []
  | _, EmptyString => []
  | S fuel', _ => let (r, n) := decode_rune s in r :: runes_fuel fuel' (str_drop n s)
  end.

Definition runes (s : string) : list Z := runes_fuel (String.length s) s.

(** [string(rs)]. *)
Fixpoint encode_runes (rs : list Z) : string :=
  match rs with
  | [] => EmptyString
  | r :: rs' => utf8 r ++ encode_runes rs'
  end.

(** ** [bytes] and [strings] helpers *)

(** [bytes.IndexFunc(s, f)]: the offset of the first rune [f] accepts. *)
Fixpoint index_func_from (fuel : nat) (f : Z -> bool) (s : string) (i : nat) : option nat :=
  match fuel, s with
  | O, _ => None
  | _, EmptyString => None
  | S fuel', _ =>
      let (r, n) := decode_rune s in
      if f r then Some i else index_func_from fuel' f (str_drop n s) (i + n)
  end.

Definition index_func (f : Z -> bool) (s : string) : option nat :=
  index_func_from (String.length s) f s 0.

(** [bytes.TrimLeftFunc(s, f)]. *)
Definition trim_left_func (f : Z -> bool) (s : string) : string :=
  match index_func (fun r => negb (f r)) s with
  | None => EmptyString
  | Some i => str_drop i s
  end.

(** [lastIndexFunc(s, f, false)]: the start of the last rune [f]
    rejects, scanning back from byte [i]. *)
Fixpoint last_index_not (fuel : nat) (f : Z -> bool) (s : string) (i : nat) : option nat :=
  match fuel with
  | O => None
  | S fuel' =>
      match i with
      | O => None
      | _ => let (r, size) := decode_last_rune (str_take i s) in
             if negb (f r) then Some (i - size)%nat else last_index_not fuel' f s (i - size)
      end
  end.

(** [strings.TrimRightFunc(s, f)]: cut after the last rune [f] rejects,
    that rune's width read forward. *)
Definition trim_right_func (f : Z -> bool) (s : string) : string :=
  match last_index_not (String.length s) f s (String.length s) with
  | None => EmptyString
  | Some i =>
      let i' := if RuneSelf <=? code_at i s then (i + snd (decode_rune (str_drop i s)))%nat else S i in
      str_take i' s
  end.

(** [strings.TrimFunc(s, f)]. *)
Definition trim_func (f : Z -> bool) (s : string) : string :=
  trim_right_func f (trim_left_func f s).

(** [unicode.IsSpace]: Latin-1 white space and the [White_Space]
    runes above it. *)
Definition unicode_is_space (r : Z) : bool :=
  if r <=? 255 then
    in_range 9 13 r || (r =? 32) || (r =? 133) || (r =? 160)
  else
    (r =? 5760) || in_range 8192 8202 r || (r =? 8232) || (r =? 8233) || (r =? 8239)
    || (r =? 8287) || (r =? 12288).

(** ** [strconv.Quote] *)

Definition hex_digit (n : Z) : ascii :=
  if n <? 10 then byte (48 + n) else byte (87 + n).

(** [strconv.IsPrint], exact on Latin-1 (see the header above it). *)
Definition is_print (r : Z) : bool :=
  if r <=? 255 then in_range 32 126 r || (in_range 161 255 r && negb (r =? 173))
  else negb (unicode_is_space r).

(** [lowerhex[r >> s & 0xF]] for [s = 4 (n-1), ..., 0]. *)
Fixpoint hex_digits (n : nat) (r : Z) : string :=
  match n with
  | O => EmptyString
  | S n' => String (hex_digit (Z.land (Z.shiftr r (4 * Z.of_nat n')) 15)) (hex_digits n' r)
  end.

Definition backslash : ascii := ascii_of_nat 92.

(** [appendEscapedRune] with [ASCIIonly] and [graphicOnly] false. *)
Definition escaped_rune (q : Z) (r : Z) : string :=
  if (r =? q) || (r =? 92) then String backslash (utf8 r)
  else if is_print r then utf8 r
  else if r =? 7 then String backslash "a"
  else if r =? 8 then String backslash "b"
  else if r =? 12 then String backslash "f"
  else if r =? 10 then String backslash "n"
  else if r =? 13 then String backslash "r"
  else if r =? 9 then String backslash "t"
  else if r =? 11 then String backslash "v"
  else if (r <? 32) || (r =? 127) then String backslash (String "x" (hex_digits 2 r))
  else if r <? 65536 then String backslash (String "u" (hex_digits 4 r))
  else String backslash (String "U" (hex_digits 8 r)).

(** The loop of [appendQuotedWith]: an invalid byte as [\xHH], every
    other rune escaped as above. *)
Fixpoint quote_body (fuel : nat) (q : Z) (s : string) : string :=
  match fuel, s with
  | O, _ => EmptyString
  | _, EmptyString => EmptyString
  | S fuel', String c0 _ =>
      let (r, width) := if code c0 <? RuneSelf then (code c0, 1%nat) else decode_rune s in
      (if (width =? 1)%nat && (r =? RuneError)
       then String backslash (String "x" (hex_digits 2 (code c0)))
       else escaped_rune q r) ++ quote_body fuel' q (str_drop width s)
  end.

(** [strconv.Quote(s)] without its surrounding quotes. *)
Definition quote_inner (s : string) : string := quote_body (String.length s) 34 s.

(** [strconv.Quote(s)]. *)
Definition go_quote (s : string) : string :=
  String "034" (quote_inner s ++ String "034" EmptyString).

(** ** Lemmas *)

Lemma code_byte (n : Z) : 0 <= n < 256 -> code (byte n) = n.
Proof.
  intros H. unfold code, byte. rewrite N_ascii_embedding by lia. apply Z2N.id. lia.
Qed.

Lemma code_range (c : ascii) : 0 <= code c < 256.
Proof. unfold code. pose proof (N_ascii_bounded c). lia. Qed.

Lemma str_drop_length (n : nat) (s : string) :
  String.length (str_drop n s) = (String.length s - n)%nat.
Proof. revert s; induction n as [|n IH]; intros [|c s]; simpl; auto. Qed.

Lemma str_take_length (n : nat) (s : string) :
  String.length (str_take n s) = Nat.min n (String.length s).
Proof. revert s; induction n as [|n IH]; intros [|c s]; simpl; auto. Qed.

Lemma str_drop_app (a b : string) : str_drop (String.length a) (a ++ b) = b.
Proof. induction a as [|c a IH]; simpl; auto. Qed.

Lemma str_take_app (a b : string) : str_take (String.length a) (a ++ b) = a.
Proof. induction a as [|c a IH]; simpl; [destruct b|f_equal]; auto. Qed.

(** A suffix of [s] that [str_drop] can reach. *)
Lemma str_drop_suffix (n : nat) (s : string) : exists pre, s = (pre ++ str_drop n s)%string.
Proof.
  revert s; induction n as [|n IH]; intros [|c s]; simpl.
  - exists ""; reflexivity.
  - exists ""; reflexivity.
  - exists ""; reflexivity.
  - destruct (IH s) as [pre E]. exists (String c pre). simpl. f_equal. exact E.
Qed.

(** Every rune read from a non-empty input is at least one byte wide and
    at most the input. *)
Lemma decode_rune_width (s : string) :
  s <> EmptyString -> (1 <= snd (decode_rune s) <= String.length s)%nat.
Proof.
  intros Hs. destruct s as [|c0 s1]; [congruence|]. unfold decode_rune.
  destruct (code c0 <? RuneSelf); [simpl; lia|].
  destruct ((code c0 <? 194) || (244 <? code c0)); [simpl; lia|].
  destruct (accept_range (code c0)) as [lo hi].
  destruct s1 as [|c1 [|c2 [|c3 s4]]]; simpl; repeat (destruct (_ <? _)%Z || destruct (negb _)); simpl; lia.
Qed.

(** An ASCII byte is a rune of its own. *)
Lemma decode_rune_ascii (c : ascii) (s : string) :
  code c < 128 -> decode_rune (String c s) = (code c, 1%nat).
Proof. intros H. unfold decode_rune, RuneSelf. rewrite (proj2 (Z.ltb_lt _ _) H). reflexivity. Qed.

Lemma index_func_from_bound (fuel : nat) (f : Z -> bool) (s : string) (i j : nat) :
  index_func_from fuel f s i = Some j -> (i <= j < i + String.length s)%nat.
Proof.
  revert s i; induction fuel as [|fuel IH]; intros s i; simpl; [discriminate|].
  destruct s as [|c s']; [discriminate|].
  pose proof (decode_rune_width (String c s') ltac:(discriminate)) as Hw.
  destruct (decode_rune (String c s')) as [r n] eqn:D. simpl in Hw.
  destruct (f r).
  - intros [= <-]. simpl. lia.
  - intros H. apply IH in H. rewrite str_drop_length in H. simpl in *. lia.
Qed.

Lemma index_func_bound (f : Z -> bool) (s : string) (j : nat) :
  index_func f s = Some j -> (j < String.length s)%nat.
Proof. intros H. apply index_func_from_bound in H. lia. Qed.

(** A search over ASCII bytes reads them one at a time. *)
Lemma index_func_from_ascii (fuel : nat) (f : Z -> bool) (c : ascii) (s : string) (i : nat) :
  code c < 128 ->
  index_func_from (S fuel) f (String c s) i =
    if f (code c) then Some i else index_func_from fuel f s (S i).
Proof.
  intros H. cbn [index_func_from]. rewrite (decode_rune_ascii c s H). cbn [str_drop]. rewrite Nat.add_1_r. reflexivity.
Qed.

Lemma trim_left_func_suffix (f : Z -> bool) (s : string) :
  exists pre, s = (pre ++ trim_left_func f s)%string.
Proof.
  unfold trim_left_func. destruct (index_func _ s) as [i|].
  - apply str_drop_suffix.
  - exists s. rewrite string_app_nil_r. reflexivity.
Qed.

(** ** The bit arithmetic of [DecodeRune] *)

(** An [or] with a value below [2^n] into a multiple of [2^n] adds. *)
Lemma lor_low (x b n : Z) : 0 <= n -> 0 <= b < 2 ^ n -> x mod 2 ^ n = 0 -> Z.lor x b = x + b.
Proof.
  intros Hn Hb Hx.
  assert (L : Z.land x b = 0).
  { apply Z.bits_inj_0. intros i. rewrite Z.land_spec.
    destruct (Z.lt_ge_cases i n) as [Hi|Hi].
    - destruct (Z.lt_ge_cases i 0) as [Hneg|Hpos]; [rewrite Z.testbit_neg_r by lia; reflexivity|].
      rewrite <- (Z.mod_pow2_bits_low x n i) by lia. rewrite Hx, Z.bits_0. reflexivity.
    - rewrite <- (Z.mod_small b (2 ^ n)) by lia. rewrite Z.mod_pow2_bits_high by lia. apply Bool.andb_false_r. }
  pose proof (Zbitwise.Z.add_lor_land x b). lia.
Qed.

Lemma land_mask (x : Z) (k : Z) : 0 <= k -> Z.land x (2 ^ k - 1) = x mod 2 ^ k.
Proof. intros Hk. replace (2 ^ k - 1) with (Z.ones k) by (rewrite Z.ones_equiv; lia). apply Z.land_ones. exact Hk. Qed.

(** The payload of a continuation byte, and of each kind of lead byte. *)
Lemma cont_bits (b : Z) : 128 <= b <= 191 -> Z.land b 63 = b - 128.
Proof. intros H. change 63 with (2 ^ 6 - 1). rewrite (land_mask b 6) by lia. change (2 ^ 6) with 64. rewrite <- (Z.mod_unique b 64 2 (b - 128)); lia. Qed.

Lemma lead2_bits (p : Z) : 192 <= p <= 223 -> Z.land p 31 = p - 192.
Proof. intros H. change 31 with (2 ^ 5 - 1). rewrite (land_mask p 5) by lia. change (2 ^ 5) with 32. rewrite <- (Z.mod_unique p 32 6 (p - 192)); lia. Qed.

Lemma lead3_bits (p : Z) : 224 <= p <= 239 -> Z.land p 15 = p - 224.
Proof. intros H. change 15 with (2 ^ 4 - 1). rewrite (land_mask p 4) by lia. change (2 ^ 4) with 16. rewrite <- (Z.mod_unique p 16 14 (p - 224)); lia. Qed.

Lemma lead4_bits (p : Z) : 240 <= p <= 247 -> Z.land p 7 = p - 240.
Proof. intros H. change 7 with (2 ^ 3 - 1). rewrite (land_mask p 3) by lia. change (2 ^ 3) with 8. rewrite <- (Z.mod_unique p 8 30 (p - 240)); lia. Qed.

(** [x << n | y] for [0 <= y < 2^n] is [x * 2^n + y]. *)
Lemma shift_or (x y n : Z) : 0 <= n -> 0 <= y < 2 ^ n -> Z.lor (Z.shiftl x n) y = x * 2 ^ n + y.
Proof.
  intros Hn Hy. rewrite Z.shiftl_mul_pow2 by lia. apply (lor_low _ _ n); [lia|lia|].
  apply Z.mod_mul. pose proof (Z.pow_pos_nonneg 2 n). lia.
Qed.

(** [x << m | y << n] for [m >= n] and [y < 2^(m-n)] is [(x * 2^(m-n) + y) << n]. *)
Lemma shift_or_shift (x y m n : Z) :
  0 <= n <= m -> 0 <= y < 2 ^ (m - n) ->
  Z.lor (Z.shiftl x m) (Z.shiftl y n) = Z.shiftl (x * 2 ^ (m - n) + y) n.
Proof.
  intros Hnm Hy. rewrite (Z.shiftl_mul_pow2 y n) by lia.
  assert (Hp : 2 ^ m = 2 ^ (m - n) * 2 ^ n) by (rewrite <- Z.pow_add_r by lia; f_equal; lia).
  pose proof (Z.pow_pos_nonneg 2 n ltac:(lia)).
  rewrite shift_or by nia. rewrite !Z.shiftl_mul_pow2 by lia. rewrite Hp. ring.
Qed.

Lemma decode2_value (p0 b1 : Z) :
  192 <= p0 <= 223 -> 128 <= b1 <= 191 ->
  Z.lor (Z.shiftl (Z.land p0 31) 6) (Z.land b1 63) = (p0 - 192) * 64 + (b1 - 128).
Proof. intros H0 H1. rewrite lead2_bits, cont_bits by lia. rewrite shift_or by (simpl; lia). reflexivity. Qed.

Lemma decode3_value (p0 b1 b2 : Z) :
  224 <= p0 <= 239 -> 128 <= b1 <= 191 -> 128 <= b2 <= 191 ->
  Z.lor (Z.lor (Z.shiftl (Z.land p0 15) 12) (Z.shiftl (Z.land b1 63) 6)) (Z.land b2 63)
    = (p0 - 224) * 4096 + (b1 - 128) * 64 + (b2 - 128).
Proof.
  intros H0 H1 H2. rewrite lead3_bits, !cont_bits by lia.
  rewrite shift_or_shift by (simpl; lia). rewrite shift_or by (simpl; lia).
  try change (12 - 6) with 6; try change (18 - 12) with 6; try change (2 ^ 6) with 64; ring.
Qed.

Lemma decode4_value (p0 b1 b2 b3 : Z) :
  240 <= p0 <= 247 -> 128 <= b1 <= 191 -> 128 <= b2 <= 191 -> 128 <= b3 <= 191 ->
  Z.lor (Z.lor (Z.lor (Z.shiftl (Z.land p0 7) 18) (Z.shiftl (Z.land b1 63) 12)) (Z.shiftl (Z.land b2 63) 6))
        (Z.land b3 63)
    = (p0 - 240) * 262144 + (b1 - 128) * 4096 + (b2 - 128) * 64 + (b3 - 128).
Proof.
  intros H0 H1 H2 H3. rewrite lead4_bits, !cont_bits by lia.
  rewrite (shift_or_shift (p0 - 240) (b1 - 128) 18 12) by (simpl; lia).
  rewrite shift_or_shift by (simpl; lia). rewrite shift_or by (simpl; lia).
  try change (12 - 6) with 6; try change (18 - 12) with 6; try change (2 ^ 6) with 64; ring.
Qed.

(** Case on the comparisons of a goal, closing the impossible branches. *)
Ltac zcases :=
  repeat match goal with
  | |- context [?a <? ?b] => destruct (Z.ltb_spec a b); try lia
  | |- context [?a =? ?b] => destruct (Z.eqb_spec a b); try lia
  | |- context [?a <=? ?b] => destruct (Z.leb_spec a b); try lia
  end.

(** Name [u / k] and [u mod k] with their defining equations. *)
Ltac divmod u k :=
  pose proof (Z.div_mod u k ltac:(lia)); pose proof (Z.mod_pos_bound u k ltac:(lia));
  set (u / k) in *; set (u mod k) in *.

Lemma accept_range_bounds (p lo hi : Z) :
  accept_range p = (lo, hi) ->
  128 <= lo /\ hi <= 191 /\ (p = 224 -> lo = 160) /\ (p = 240 -> lo = 144) /\ (p = 244 -> hi = 143).
Proof.
  unfold accept_range. intros H.
  repeat match type of H with context [?a =? ?b] => destruct (Z.eqb_spec a b) end;
    cbn in H; injection H as <- <-; lia.
Qed.

Ltac rune_error H := simpl in H; unfold RuneError in H; injection H as <- <-; left; split; reflexivity.

(** Turn a successful [in_range] test into bounds. *)
Ltac in_range_bounds E :=
  unfold in_range in E; apply Bool.negb_false_iff, andb_prop in E as [?%Z.leb_le ?%Z.leb_le].

(** What [utf8.DecodeRune] reads at a byte of 128 or more: [RuneError]
    of width one, or a rune of two bytes in [[128, 2048)] (with its two
    bytes), of three bytes in [[2048, 65536)], or of four bytes in
    [[65536, 1114112)]: the accept ranges exclude every overlong form
    and every value above U+10FFFF. *)
Lemma decode_rune_multi (c : ascii) (s : string) (r : Z) (n : nat) :
  128 <= code c -> decode_rune (String c s) = (r, n) ->
  (r = RuneError /\ n = 1%nat) \/
  (exists c1 s', s = String c1 s' /\ n = 2%nat /\ 128 <= r < 2048 /\
                 r = (code c - 192) * 64 + (code c1 - 128) /\ 192 <= code c <= 223 /\ 128 <= code c1 <= 191) \/
  (n = 3%nat /\ 2048 <= r < 65536) \/ (n = 4%nat /\ 65536 <= r < 1114112).
Proof.
  intros Hc H. pose proof (code_range c) as Hr. unfold decode_rune, RuneSelf in H.
  rewrite (proj2 (Z.ltb_ge _ _) Hc) in H.
  destruct ((code c <? 194) || (244 <? code c)) eqn:E; [rune_error H|].
  apply Bool.orb_false_iff in E as [E1 E2]. apply Z.ltb_ge in E1. apply Z.ltb_ge in E2.
  destruct (accept_range (code c)) as [lo hi] eqn:A.
  apply accept_range_bounds in A as (Hlo & Hhi & H224 & H240 & H244).
  destruct s as [|c1 s2]; [rune_error H|].
  pose proof (code_range c1).
  destruct (negb (in_range lo hi (code c1))) eqn:E3; [rune_error H|]. in_range_bounds E3.
  destruct (Z.ltb_spec (code c) 224).
  { simpl in H. rewrite decode2_value in H by lia. injection H as <- <-.
    right; left. exists c1, s2. repeat split; lia. }
  destruct s2 as [|c2 s3]; [rune_error H|].
  destruct (negb (in_range 128 191 (code c2))) eqn:E5; [rune_error H|]. in_range_bounds E5.
  destruct (Z.ltb_spec (code c) 240).
  { simpl in H. rewrite decode3_value in H by lia. injection H as <- <-.
    right; right; left. destruct (Z.eq_dec (code c) 224); [specialize (H224 e)|]; (split; [reflexivity|lia]). }
  destruct s3 as [|c3 s4]; [rune_error H|].
  destruct (negb (in_range 128 191 (code c3))) eqn:E7; [rune_error H|]. in_range_bounds E7.
  simpl in H. rewrite decode4_value in H by lia. injection H as <- <-.
  right; right; right. split; [reflexivity|].
  assert (code c = 240 -> 144 <= code c1) by (intros e0; specialize (H240 e0); lia).
  assert (code c = 244 -> code c1 <= 143) by (intros e4; specialize (H244 e4); lia).
  lia.
Qed.

(** Every rune [utf8.DecodeRune] returns is below U+110000. *)
Lemma decode_rune_bound (s : string) : 0 <= fst (decode_rune s) < 1114112.
Proof.
  destruct s as [|c s]; [simpl; unfold RuneError; lia|].
  destruct (Z.lt_ge_cases (code c) 128) as [Hc|Hc].
  - rewrite decode_rune_ascii by exact Hc. pose proof (code_range c). simpl. lia.
  - destruct (decode_rune (String c s)) as [r n] eqn:D. simpl.
    destruct (decode_rune_multi c s r n Hc D) as [[-> _]|[(c1 & s' & _ & _ & Hb & _)|[[_ Hb]|[_ Hb]]]];
      unfold RuneError; lia.
Qed.

(** A rune below [RuneSelf] is a byte of its own: every multi-byte
    sequence decodes to [RuneError] or to a rune of 128 or more. *)
Lemma decode_rune_low (c : ascii) (s : string) :
  fst (decode_rune (String c s)) < 128 -> code c < 128.
Proof.
  intros H. destruct (Z.lt_ge_cases (code c) 128) as [Hc|Hc]; [exact Hc|exfalso].
  destruct (decode_rune (String c s)) as [r n] eqn:D. simpl in H.
  destruct (decode_rune_multi c s r n Hc D) as [[-> _]|[(c1 & s' & _ & _ & Hb & _)|[[_ Hb]|[_ Hb]]]];
    unfold RuneError in *; lia.
Qed.

(** So a search for an ASCII rune finds its byte. *)
Lemma decode_rune_ascii_inv (s : string) (r : Z) :
  fst (decode_rune s) = r -> 0 <= r < 128 -> exists c s', s = String c s' /\ code c = r.
Proof.
  intros H Hr. destruct s as [|c s']; [simpl in H; unfold RuneError in H; lia|].
  assert (Hc : code c < 128) by (apply (decode_rune_low c s'); lia).
  rewrite decode_rune_ascii in H by exact Hc. exists c, s'. auto.
Qed.

(** ** Searching and trimming over ASCII text *)

(** Every byte of [s] satisfies [p]. *)
Fixpoint all_bytes (p : Z -> bool) (s : string) : bool :=
  match s with
  | EmptyString => true
  | String c s' => p (code c) && all_bytes p s'
  end.

Lemma all_bytes_app (p : Z -> bool) (a b : string) :
  all_bytes p (a ++ b) = all_bytes p a && all_bytes p b.
Proof. induction a as [|c a IH]; simpl; [reflexivity|]. rewrite IH. apply Bool.andb_assoc. Qed.

Lemma str_drop_app_plus (n : nat) (a b : string) : str_drop (String.length a + n) (a ++ b) = str_drop n b.
Proof. induction a as [|c a IH]; simpl; auto. Qed.

Lemma str_take_all (s : string) : str_take (String.length s) s = s.
Proof. induction s as [|c s IH]; simpl; [reflexivity|]. rewrite IH. reflexivity. Qed.

Lemma str_take_app_len (a b : string) : str_take (String.length a) (a ++ b) = a.
Proof. apply str_take_app. Qed.

Lemma index_func_from_shift (fuel : nat) (f : Z -> bool) (s : string) (i k : nat) :
  index_func_from fuel f s (i + k) = option_map (fun j => (j + k)%nat) (index_func_from fuel f s i).
Proof.
  revert s i; induction fuel as [|fuel IH]; intros [|c s'] i; cbn [index_func_from option_map]; try reflexivity.
  destruct (decode_rune (String c s')) as [r n]. destruct (f r); [reflexivity|].
  replace (i + k + n)%nat with ((i + n) + k)%nat by lia. apply IH.
Qed.

(** A prefix of ASCII bytes that [f] rejects shifts the offset found. *)
Lemma index_func_from_app (f : Z -> bool) (p t : string) (i : nat) :
  all_bytes (fun b => (b <? 128) && negb (f b)) p = true ->
  index_func_from (String.length p + String.length t) f (p ++ t) i
    = index_func_from (String.length t) f t (i + String.length p).
Proof.
  revert i; induction p as [|c p IH]; intros i Hp; simpl.
  - rewrite Nat.add_0_r. reflexivity.
  - simpl in Hp. apply andb_prop in Hp as [Hc Hp]. apply andb_prop in Hc as [Hc Hf].
    apply Z.ltb_lt in Hc. apply Bool.negb_true_iff in Hf.
    change (index_func_from (S (String.length p + String.length t)) f (String c (p ++ t)) i =
            index_func_from (String.length t) f t (i + S (String.length p))).
    rewrite index_func_from_ascii by exact Hc. rewrite Hf, IH by exact Hp. f_equal. lia.
Qed.

Lemma index_func_app (f : Z -> bool) (p t : string) :
  all_bytes (fun b => (b <? 128) && negb (f b)) p = true ->
  index_func f (p ++ t) = option_map (fun j => (j + String.length p)%nat) (index_func f t).
Proof.
  intros Hp. unfold index_func. rewrite string_length_app, index_func_from_app by exact Hp.
  apply (index_func_from_shift _ _ _ 0).
Qed.

(** A search that succeeds at once: the first rune is accepted. *)
Lemma index_func_head (f : Z -> bool) (s : string) :
  s <> EmptyString -> f (fst (decode_rune s)) = true -> index_func f s = Some O.
Proof.
  intros Hs Hf. destruct s as [|c s']; [congruence|]. unfold index_func. cbn [String.length index_func_from].
  destruct (decode_rune (String c s')) as [r n]. simpl in Hf. rewrite Hf. reflexivity.
Qed.

Lemma index_func_from_spec (fuel : nat) (f : Z -> bool) (s : string) (i j : nat) :
  index_func_from fuel f s i = Some j ->
  (i <= j)%nat /\ str_drop (j - i) s <> EmptyString /\ f (fst (decode_rune (str_drop (j - i) s))) = true.
Proof.
  revert s i; induction fuel as [|fuel IH]; intros s i; cbn [index_func_from]; [discriminate|].
  destruct s as [|c s']; [discriminate|].
  pose proof (decode_rune_width (String c s') ltac:(discriminate)) as Hw.
  destruct (decode_rune (String c s')) as [r n] eqn:D. simpl in Hw.
  destruct (f r) eqn:Hf.
  - intros [= <-]. rewrite Nat.sub_diag. cbn [str_drop]. rewrite D. split; [lia|]. split; [discriminate|exact Hf].
  - intros H. apply IH in H as (Hij & Hne & Hfj). split; [lia|].
    assert (E : str_drop (j - (i + n)) (str_drop n (String c s')) = str_drop (j - i) (String c s')).
    { clear -Hij Hw. revert n Hij Hw. generalize (String c s') as t.
      intros t n Hij Hw. replace (j - i)%nat with (n + (j - (i + n)))%nat by lia.
      generalize (j - (i + n))%nat as m. clear. revert t. induction n as [|n IH]; intros t m; [reflexivity|].
      destruct t; simpl; [destruct m; reflexivity|apply IH]. }
    rewrite <- E. split; assumption.
Qed.

(** [TrimLeftFunc] leaves a string alone whose first rune [f] rejects. *)
Lemma trim_left_func_id (f : Z -> bool) (s : string) :
  (s = EmptyString \/ f (fst (decode_rune s)) = false) -> trim_left_func f s = s.
Proof.
  unfold trim_left_func. intros [->|Hf]; [reflexivity|].
  destruct (String.string_dec s EmptyString) as [->|Hs]; [reflexivity|].
  rewrite (index_func_head (fun r => negb (f r)) s Hs) by (rewrite Hf; reflexivity). reflexivity.
Qed.

(** What [TrimLeftFunc] returns is empty or starts with a rune [f]
    rejects. *)
Lemma trim_left_func_head (f : Z -> bool) (s : string) :
  trim_left_func f s = EmptyString \/ f (fst (decode_rune (trim_left_func f s))) = false.
Proof.
  unfold trim_left_func. destruct (index_func _ s) as [i|] eqn:E; [|left; reflexivity].
  right. apply index_func_from_spec in E as (_ & _ & Hf). rewrite Nat.sub_0_r in Hf.
  apply Bool.negb_true_iff in Hf. exact Hf.
Qed.

Lemma trim_left_func_length (f : Z -> bool) (s : string) :
  (String.length (trim_left_func f s) <= String.length s)%nat.
Proof.
  destruct (trim_left_func_suffix f s) as [pre E]. rewrite E at 2. rewrite string_length_app. lia.
Qed.

Lemma all_bytes_impl (p q : Z -> bool) (s : string) :
  (forall b, p b = true -> q b = true) -> all_bytes p s = true -> all_bytes q s = true.
Proof.
  intros Hpq. induction s as [|c s IH]; simpl; [reflexivity|].
  intros H. apply andb_prop in H as [H1 H2]. rewrite (Hpq _ H1), (IH H2). reflexivity.
Qed.

(** Over an ASCII prefix [f] accepts, [TrimLeftFunc] goes on with the rest. *)
Lemma trim_left_func_app (f : Z -> bool) (p t : string) :
  all_bytes (fun b => (b <? 128) && f b) p = true -> trim_left_func f (p ++ t) = trim_left_func f t.
Proof.
  intros Hp. unfold trim_left_func. rewrite index_func_app.
  - destruct (index_func _ t); simpl; [|reflexivity]. rewrite Nat.add_comm. apply str_drop_app_plus.
  - revert Hp. apply all_bytes_impl. intros b. rewrite Bool.negb_involutive. exact (fun H => H).
Qed.

Lemma get_app_len (s t : string) (c : ascii) : String.get (String.length s) (s ++ String c t) = Some c.
Proof. induction s as [|c' s IH]; simpl; auto. Qed.

Lemma byte_code (c : ascii) : byte (code c) = c.
Proof. unfold byte, code. rewrite N2Z.id. apply ascii_N_embedding. Qed.

Lemma utf8_ascii (c : ascii) : code c < 128 -> utf8 (code c) = String c EmptyString.
Proof. intros H. unfold utf8. rewrite (proj2 (Z.ltb_lt _ _) H), byte_code. reflexivity. Qed.

(** [TrimRightFunc] leaves a string alone whose last byte is an ASCII
    rune [f] rejects. *)
Lemma trim_right_func_ascii (f : Z -> bool) (s : string) (c : ascii) :
  code c < 128 -> f (code c) = false -> trim_right_func f (s ++ String c EmptyString) = s ++ String c EmptyString.
Proof.
  intros Hc Hf. unfold trim_right_func.
  assert (Hl : String.length (s ++ String c EmptyString) = S (String.length s))
    by (rewrite string_length_app; simpl; lia).
  assert (Ha : code_at (String.length s) (s ++ String c EmptyString) = code c)
    by (unfold code_at; rewrite get_app_len; reflexivity).
  rewrite Hl. cbn [last_index_not]. rewrite <- Hl, str_take_all.
  unfold decode_last_rune. rewrite Hl, Ha. unfold RuneSelf. rewrite (proj2 (Z.ltb_lt _ _) Hc), Hf.
  cbn [negb fst snd]. rewrite Nat.sub_succ, Nat.sub_0_r, Ha.
  rewrite (proj2 (Z.leb_gt _ _) Hc), <- Hl. apply str_take_all.
Qed.

(** A trailing ASCII byte that [f] accepts is cut, up to an ASCII byte
    that [f] rejects. *)
Lemma trim_right_func_strip (f : Z -> bool) (s : string) (c d : ascii) :
  code c < 128 -> f (code c) = false -> code d < 128 -> f (code d) = true ->
  trim_right_func f (s ++ String c (String d EmptyString)) = s ++ String c EmptyString.
Proof.
  intros Hc Hfc Hd Hfd. unfold trim_right_func.
  set (p := (s ++ String c (String d EmptyString))%string).
  assert (Ep : p = ((s ++ String c EmptyString) ++ String d EmptyString)%string)
    by (unfold p; rewrite string_app_assoc; reflexivity).
  assert (Hl1 : String.length (s ++ String c EmptyString) = S (String.length s))
    by (rewrite string_length_app; simpl; lia).
  assert (Hl : String.length p = S (S (String.length s))) by (rewrite Ep, string_length_app, Hl1; simpl; lia).
  assert (Hd' : code_at (S (String.length s)) p = code d)
    by (unfold code_at; rewrite Ep, <- Hl1, get_app_len; reflexivity).
  assert (Hc' : code_at (String.length s) p = code c)
    by (unfold code_at; unfold p; rewrite get_app_len; reflexivity).
  assert (Ht : str_take (S (String.length s)) p = (s ++ String c EmptyString)%string)
    by (rewrite Ep, <- Hl1; apply str_take_app_len).
  assert (Hc'' : code_at (String.length s) (s ++ String c EmptyString) = code c)
    by (unfold code_at; rewrite get_app_len; reflexivity).
  rewrite Hl. cbn [last_index_not]. rewrite <- Hl, str_take_all.
  unfold decode_last_rune at 1. rewrite Hl, Hd'. unfold RuneSelf. rewrite (proj2 (Z.ltb_lt _ _) Hd), Hfd.
  cbn [negb fst snd]. rewrite Nat.sub_succ, Nat.sub_0_r, Ht.
  unfold decode_last_rune. rewrite Hl1, Hc''. unfold RuneSelf. rewrite (proj2 (Z.ltb_lt _ _) Hc), Hfc.
  cbn [negb fst snd]. rewrite Nat.sub_succ, Nat.sub_0_r, Hc'.
  rewrite (proj2 (Z.leb_gt _ _) Hc). exact Ht.
Qed.

(** On ASCII text, [[]rune(s)] is the list of its bytes and [string]
    writes them back. *)
Lemma runes_ascii (s : string) :
  all_bytes (fun b => b <? 128) s = true -> runes s = List.map code (list_ascii_of_string s).
Proof.
  unfold runes. induction s as [|c s IH]; [reflexivity|].
  cbn [all_bytes]. intros H. apply andb_prop in H as [Hc H]. apply Z.ltb_lt in Hc.
  cbn [String.length runes_fuel]. rewrite decode_rune_ascii by exact Hc. cbn [str_drop].
  rewrite IH by exact H. reflexivity.
Qed.

Lemma encode_runes_ascii (s : string) :
  all_bytes (fun b => b <? 128) s = true -> encode_runes (List.map code (list_ascii_of_string s)) = s.
Proof.
  induction s as [|c s IH]; [reflexivity|].
  cbn [all_bytes]. intros H. apply andb_prop in H as [Hc H]. apply Z.ltb_lt in Hc.
  cbn [list_ascii_of_string List.map encode_runes]. rewrite utf8_ascii, IH by assumption. reflexivity.
Qed.

(** C32: [utf8.DecodeRune] reads back what [utf8.EncodeRune] writes:
    for every valid rune (below U+110000, not a surrogate), the rune
    and the number of bytes written, whatever follows. *)
Theorem decode_utf8 (u : Z) (s : string) :
  0 <= u < 1114112 -> ~ (55296 <= u < 57344) ->
  decode_rune (utf8 u ++ s) = (u, String.length (utf8 u)).
Proof.
  intros Hu Hs. unfold utf8.
  destruct (Z.ltb_spec u 128) as [H1|H1].
  { cbn [append String.length]. rewrite decode_rune_ascii; rewrite code_byte; (reflexivity || lia). }
  destruct (Z.ltb_spec u 2048) as [H2|H2].
  { cbn [append String.length]. unfold decode_rune.
    pose proof (Z.div_mod u 64 ltac:(lia)). pose proof (Z.mod_pos_bound u 64 ltac:(lia)).
    rewrite !code_byte by lia. unfold accept_range, in_range, RuneSelf.
    zcases; cbn [orb andb negb]. rewrite decode2_value by lia. f_equal. lia. }
  destruct (Z.ltb_spec u 65536) as [H3|H3].
  { cbn [append String.length]. unfold decode_rune.
    pose proof (Z.div_mod u 4096 ltac:(lia)). pose proof (Z.mod_pos_bound u 4096 ltac:(lia)).
    pose proof (Z.div_mod u 64 ltac:(lia)). pose proof (Z.mod_pos_bound u 64 ltac:(lia)).
    pose proof (Z.div_mod (u / 64) 64 ltac:(lia)). pose proof (Z.mod_pos_bound (u / 64) 64 ltac:(lia)).
    rewrite Z.div_div in * by lia. change (64 * 64) with 4096 in *.
    rewrite !code_byte by lia. unfold accept_range, in_range, RuneSelf.
    zcases; cbn [orb andb negb]; rewrite decode3_value by lia; f_equal; lia. }
  cbn [append String.length]. unfold decode_rune.
  pose proof (Z.div_mod u 262144 ltac:(lia)). pose proof (Z.mod_pos_bound u 262144 ltac:(lia)).
  pose proof (Z.div_mod u 64 ltac:(lia)). pose proof (Z.mod_pos_bound u 64 ltac:(lia)).
  pose proof (Z.div_mod (u / 64) 64 ltac:(lia)). pose proof (Z.mod_pos_bound (u / 64) 64 ltac:(lia)).
  pose proof (Z.div_mod (u / 4096) 64 ltac:(lia)). pose proof (Z.mod_pos_bound (u / 4096) 64 ltac:(lia)).
  rewrite !Z.div_div in * by lia. change (64 * 64) with 4096 in *. change (4096 * 64) with 262144 in *.
  rewrite !code_byte by lia. unfold accept_range, in_range, RuneSelf.
  zcases; cbn [orb andb negb]; rewrite decode4_value by lia; f_equal; lia.
Qed.

(** The C40 round trip at the micro sign U+00B5 that Duration.String
    prints, two bytes, followed by the letter s. *)
Lemma decode_utf8_witness :
  decode_rune (utf8 181 ++ String (byte 115) EmptyString) = (181, 2%nat).
Proof. apply (decode_utf8 181 (String (byte 115) EmptyString)); lia. Defined.

End Utf8.
