(* ===== verification/DotEnv.v ===== *)
(** * godotenv: the [.env] parser behind [godotenv.Load()]

    main.go line 52 calls [godotenv.Load()] (github.com/joho/godotenv,
    v1.5), which reads [.env], parses it with [parseBytes] and sets each
    name the environment does not have yet.  This file models the parser
    on the bytes of the file:
    - [replace_crlf]: [bytes.Replace(src, "\r\n", "\n", -1)];
    - [get_statement_start]: skip white space and [#] comment lines;
    - [locate_key_name]: an optional [export ] prefix, the key loop over
      the bytes ([scan_key]: letters, digits, [_], [.] and spaces, up to
      [=] or [:]) with its two errors;
    - [extract_var_value]: a quoted value up to the first unescaped
      closing quote (double quotes expand escapes and variables), or an
      unquoted value up to the end of the line, an inline comment
      ([ #]) cut off, trimmed, variables expanded;
    - [expand_escapes] and [expand_variables]: the three regular
      expressions of the parser, as left-to-right scanners;
    - [parse_loop]: the [for] loop of [parseBytes], filling the map.
    [load_env] is [loadFile]'s use of the result: the parsed names are
    set with [os.Setenv] unless the environment has them.

    The loops run on fuel; [parse_total] shows the fuel given never runs
    out.  The results are in a small error monad ([result], [let?]).
    The theorems: files of plain [KEY=VALUE] lines parse back to their
    entries ([unmarshal_render]); an unclosed quote and a bad name
    character are the parser's errors ([unmarshal_unterminated],
    [unmarshal_bad_key]); and, for all plain names and values, an
    escaped quote before the closing quote is lost
    ([unmarshal_escaped_quote]) and an inline comment starts at the last
    space-hash of the line ([unmarshal_inline_comment]). *)

From S2P Require Import Prelude Utf8.
From stdpp Require Import base gmap strings.
From Stdlib Require Import ZArith Lia String Ascii List.
Open Scope string_scope.
Open Scope Z_scope.
Open Scope bool_scope.

Module DotEnv.
Import Utf8.

(** ** Errors and the error monad *)

(** The errors of [parseBytes]; [OutOfFuel] is the model's own and never
    happens ([parse_total]). *)
Inductive ParseError :=
| UnexpectedChar (c : ascii) (near : string)
| ZeroLength
| Unterminated (text : string)
| OutOfFuel.

(** [err.Error()] *)
Definition error_string (e : ParseError) : string :=
  match e with
  | UnexpectedChar c near =>
      "unexpected character " ++ go_quote (utf8 (code c)) ++ " in variable name near " ++ go_quote near
  | ZeroLength => "zero length string"
  | Unterminated text => "unterminated quoted value " ++ text
  | OutOfFuel => "out of fuel"
  end.

Inductive result (A : Type) :=
| Success (a : A)
| Failure (e : ParseError).
Arguments Success {A} a.
Arguments Failure {A} e.

Definition res_bind {A B : Type} (m : result A) (k : A -> result B) : result B :=
  match m with Success a => k a | Failure e => Failure e end.

Declare Scope dotenv_scope.
Notation "'let?' x ':=' m 'in' k" := (res_bind m (fun x => k))
  (at level 10, x name, m at level 100, k at level 200) : dotenv_scope.
Open Scope dotenv_scope.

(** ** Characters *)

Definition char_comment : Z := 35.
Definition prefix_single_quote : Z := 39.
Definition prefix_double_quote : Z := 34.
Definition export_prefix : string := "export".

(** godotenv's [isSpace]. *)
Definition isSpace (r : Z) : bool :=
  (r =? 9) || (r =? 11) || (r =? 12) || (r =? 13) || (r =? 32) || (r =? 133) || (r =? 160).

(** [isLineEnd]. *)
Definition is_line_end (r : Z) : bool := (r =? 10) || (r =? 13).

(** [isCharFunc(c)]. *)
Definition is_char (c : Z) (r : Z) : bool := r =? c.

(** [unicode.IsLetter(rune(b))] and [unicode.IsNumber(rune(b))] for a
    byte [b], read as a Latin-1 rune. *)
Definition is_letter_latin1 (r : Z) : bool :=
  in_range 65 90 r || in_range 97 122 r || (r =? 170) || (r =? 181) || (r =? 186)
  || in_range 192 214 r || in_range 216 246 r || in_range 248 255 r.

Definition is_number_latin1 (r : Z) : bool :=
  in_range 48 57 r || (r =? 178) || (r =? 179) || (r =? 185) || in_range 188 190 r.

(** ** [parseBytes] *)

(** [bytes.Replace(src, []byte("\r\n"), []byte("\n"), -1)]. *)
Fixpoint replace_crlf (s : string) : string :=
  match s with
  | EmptyString => EmptyString
  | String c1 s' =>
      match s' with
      | String c2 s'' =>
          if (code c1 =? 13) && (code c2 =? 10) then String c2 (replace_crlf s'')
          else String c1 (replace_crlf s')
      | EmptyString => s
      end
  end.

(** [getStatementStart]: the input from the first byte that is neither
    white space nor in a comment line; [None] for [nil] (end of file). *)
Fixpoint get_statement_start (fuel : nat) (src : string) : result (option string) :=
  match fuel with
  | O => Failure OutOfFuel
  | S fuel' =>
      match index_func (fun r => negb (unicode_is_space r)) src with
      | None => Success None
      | Some pos =>
          let src' := str_drop pos src in
          if negb (code_at 0 src' =? char_comment) then Success (Some src')
          else
            match index_func (is_char 10) src' with
            | None => Success None
            | Some pos' => get_statement_start fuel' (str_drop pos' src')
            end
      end
  end.

(** The key loop of [locateKeyName] over the bytes of [src]: the offset
    of the [=] or [:] that ends the key, no separator at all, or the
    first byte a variable name cannot have. *)
Inductive KeyScan :=
| KeyAt (i : nat)
| KeyNone
| KeyBad (c : ascii).

Fixpoint scan_key (s : string) (i : nat) : KeyScan :=
  match s with
  | EmptyString => KeyNone
  | String c s' =>
      let r := code c in
      if isSpace r then scan_key s' (S i)
      else if (r =? 61) || (r =? 58) then KeyAt i
      else if r =? 95 then scan_key s' (S i)
      else if is_letter_latin1 r || is_number_latin1 r || (r =? 46) then scan_key s' (S i)
      else KeyBad c
  end.

(** The first lines of [locateKeyName]: leading spaces trimmed, then
    an [export] prefix followed by a space dropped with the spaces after
    it. *)
Definition key_source (src0 : string) : string :=
  let src1 := trim_left_func isSpace src0 in
  if String.prefix export_prefix src1 then
    let trimmed := str_drop (String.length export_prefix) src1 in
    match index_func isSpace trimmed with
    | Some O => trim_left_func isSpace trimmed
    | _ => src1
    end
  else src1.

(** [locateKeyName]: the key, and the input after the separator with
    its leading spaces trimmed. *)
Definition locate_key_name (src0 : string) : result (string * string) :=
  let src := key_source src0 in
  match scan_key src 0 with
  | KeyBad c => Failure (UnexpectedChar c src)
  | k =>
      match src with
      | EmptyString => Failure ZeroLength
      | _ =>
          let (key, offset) := match k with KeyAt i => (str_take i src, S i) | _ => (EmptyString, O) end in
          Success (trim_right_func unicode_is_space key, trim_left_func isSpace (str_drop offset src))
      end
  end.

(** [hasQuotePrefix]. *)
Definition has_quote_prefix (src : string) : option Z :=
  match src with
  | String c _ => if (code c =? prefix_double_quote) || (code c =? prefix_single_quote) then Some (code c) else None
  | EmptyString => None
  end.

(** The backward loop of [extractVarValue] that looks for an inline
    comment: from [i - 1] down, the first [#] at a position [j > 0] with
    a space before it; [endOfVar] if there is none. *)
Fixpoint comment_start (i : nat) (line : list Z) (endOfVar : nat) : nat :=
  match i with
  | O => endOfVar
  | S j =>
      if (nth j line 0 =? char_comment) && (0 <? j)%nat && isSpace (nth (j - 1) line 0) then j
      else comment_start j line endOfVar
  end.

(** [expandEscapes], first pass, [escapeRegex = \\.]: [\n] and [\r]
    become a newline and a carriage return; any other escape is kept
    (the dot does not match a newline). *)
Fixpoint escape_pass (s : string) : string :=
  match s with
  | EmptyString => EmptyString
  | String c s' =>
      if code c =? 92 then
        match s' with
        | EmptyString => s
        | String d s'' =>
            if code d =? 10 then String c (escape_pass s')
            else if code d =? 110 then String (byte 10) (escape_pass s'')
            else if code d =? 114 then String (byte 13) (escape_pass s'')
            else String c (String d (escape_pass s''))
        end
      else String c (escape_pass s')
  end.

(** Second pass, [unescapeCharsRegex = \\([^$])] replaced by [$1]: a
    backslash before anything but [$] is dropped. *)
Fixpoint unescape_pass (s : string) : string :=
  match s with
  | EmptyString => EmptyString
  | String c s' =>
      if code c =? 92 then
        match s' with
        | EmptyString => s
        | String d s'' => if code d =? 36 then String c (unescape_pass s') else String d (unescape_pass s'')
        end
      else String c (unescape_pass s')
  end.

(** [expandEscapes]. *)
Definition expand_escapes (s : string) : string := unescape_pass (escape_pass s).

(** [[A-Z0-9_]]. *)
Definition is_name_char (r : Z) : bool := in_range 65 90 r || in_range 48 57 r || (r =? 95).

Fixpoint span_name (s : string) : string * string :=
  match s with
  | String c s' => if is_name_char (code c) then let (n, rest) := span_name s' in (String c n, rest) else (EmptyString, s)
  | EmptyString => (EmptyString, EmptyString)
  end.

(** An optional byte [k]. *)
Definition opt_char (k : Z) (s : string) : string * string :=
  match s with
  | String c s' => if code c =? k then (String c EmptyString, s') else (EmptyString, s)
  | EmptyString => (EmptyString, s)
  end.

(** A match of [(\$)(\()?\{?([A-Z0-9_]+)?\}?] at a [$]: the matched
    text, group 4 (the name), and the rest.  Every part after the [$] is
    optional, so the greedy choices all succeed. *)
Definition var_match (s : string) : string * string * string :=
  match s with
  | EmptyString => (EmptyString, EmptyString, EmptyString)
  | String d s1 =>
      let (p, s2) := opt_char 40 s1 in
      let (b, s3) := opt_char 123 s2 in
      let (name, s4) := span_name s3 in
      let (e, s5) := opt_char 125 s4 in
      (String d (p ++ b ++ name ++ e), name, s5)
  end.

(** [expandVariables]: [expandVarRegex.ReplaceAllStringFunc], the
    leftmost matches from left to right.  A match that starts with a
    backslash ([submatch[1] == "\\"]) is returned without it; the test
    [submatch[2] == "("] compares the [$] group and is never true; a
    match with a name is replaced by [m[name]] ([""] when absent); any
    other match is kept. *)
Fixpoint expand_vars_fuel (fuel : nat) (s : string) (m : gmap string string) : string :=
  match fuel with
  | O => s
  | S fuel' =>
      match s with
      | EmptyString => EmptyString
      | String c s' =>
          if (code c =? 92) && (code_at 0 s' =? 36) then
            let '(t, _, rest) := var_match s' in t ++ expand_vars_fuel fuel' rest m
          else if code c =? 36 then
            let '(t, name, rest) := var_match s in
            (if String.eqb name "" then t else default "" (m !! name)) ++ expand_vars_fuel fuel' rest m
          else String c (expand_vars_fuel fuel' s' m)
      end
  end.

Definition expand_variables (s : string) (m : gmap string string) : string :=
  expand_vars_fuel (String.length s) s m.

(** The unquoted value: up to the end of the line, an inline comment
    cut off, trimmed, variables expanded. *)
Definition extract_unquoted (src : string) (vars : gmap string string) : result (string * string) :=
  let body (endOfLine : nat) :=
    let line := runes (str_take endOfLine src) in
    match line with
    | nil => Success (EmptyString, str_drop endOfLine src)
    | _ =>
        let endOfVar := comment_start (List.length line) line (List.length line) in
        let trimmed := trim_func isSpace (encode_runes (firstn endOfVar line)) in
        Success (expand_variables trimmed vars, str_drop endOfLine src)
    end in
  match index_func is_line_end src with
  | Some endOfLine => body endOfLine
  | None => match src with EmptyString => Success (EmptyString, EmptyString) | _ => body (String.length src) end
  end.

(** The search for the closing quote [q]: the first one from offset [i]
    whose previous byte [prev] is not a backslash. *)
Fixpoint closing_quote (q prev : Z) (s : string) (i : nat) : option nat :=
  match s with
  | EmptyString => None
  | String c s' => if (code c =? q) && negb (prev =? 92) then Some i else closing_quote q (code c) s' (S i)
  end.

(** [extractVarValue]. *)
Definition extract_var_value (src : string) (vars : gmap string string) : result (string * string) :=
  match has_quote_prefix src with
  | None => extract_unquoted src vars
  | Some q =>
      match src with
      | EmptyString => Success (EmptyString, EmptyString)
      | String c0 rest0 =>
          match closing_quote q (code c0) rest0 1 with
          | Some i =>
              let value := trim_left_func (is_char q) (trim_right_func (is_char q) (str_take i src)) in
              let value := if q =? prefix_double_quote then expand_variables (expand_escapes value) vars else value in
              Success (value, str_drop (S i) src)
          | None =>
              let valEnd := match index_func (is_char 10) src with Some k => k | None => String.length src end in
              Failure (Unterminated (str_take valEnd src))
          end
      end
  end.

(** The [for] loop of [parseBytes]: one statement per round, [out[key] =
    value]. *)
Fixpoint parse_loop (fuel : nat) (cutset : string) (out : gmap string string) : result (gmap string string) :=
  match fuel with
  | O => Failure OutOfFuel
  | S fuel' =>
      let? st := get_statement_start (S (String.length cutset)) cutset in
      match st with
      | None => Success out
      | Some cutset1 =>
          let? kl := locate_key_name cutset1 in
          let? vl := extract_var_value (snd kl) out in
          parse_loop fuel' (snd vl) (<[fst kl := fst vl]> out)
      end
  end.

(** [parseBytes(src, out)]. *)
Definition parse_bytes (src : string) (out : gmap string string) : result (gmap string string) :=
  let src := replace_crlf src in
  parse_loop (S (String.length src)) src out.

(** [UnmarshalBytes]: a fresh map. *)
Definition unmarshal_bytes (src : string) : result (gmap string string) := parse_bytes src ∅.

(** ** [loadFile] *)

Fixpoint has_byte (b : Z) (s : string) : bool :=
  match s with
  | EmptyString => false
  | String c s' => (code c =? b) || has_byte b s'
  end.

(** [syscall.Setenv] accepts the pair: a non-empty key without [=] or
    NUL, a value without NUL. *)
Definition setenv_ok (key value : string) : bool :=
  negb (String.eqb key "") && negb (has_byte 61 key) && negb (has_byte 0 key) && negb (has_byte 0 value).

(** [loadFile(".env", false)] after reading the file: the parse error,
    or the environment with each parsed name it does not have set. *)
Definition load_env (env : gmap string string) (src : string) : result (gmap string string) :=
  let? out := unmarshal_bytes src in
  Success (env ∪ stdpp.base.filter (fun kv => setenv_ok kv.1 kv.2 = true) out).

(** The map of a list of entries, a later entry for a name replacing an
    earlier one (how [out[key] = value] fills it). *)
Definition dotenv_map (entries : list (string * string)) : gmap string string :=
  fold_left (fun m kv => <[kv.1 := kv.2]> m) entries ∅.

(** ** The parser consumes its input *)

Ltac destruct_matches :=
  repeat match goal with
  | |- context [match ?x with _ => _ end] => destruct x
  end.

Lemma has_byte_all (p : Z -> bool) (b : Z) (s : string) :
  all_bytes p s = true -> p b = false -> has_byte b s = false.
Proof.
  intros H Hb. induction s as [|c s IH]; [reflexivity|]. simpl in *.
  apply andb_prop in H as [H1 H2]. rewrite IH by exact H2.
  destruct (Z.eqb_spec (code c) b) as [<-|]; [congruence|reflexivity].
Qed.

Lemma has_byte_drop (b : Z) (n : nat) (s : string) :
  has_byte b (str_drop n s) = true -> has_byte b s = true.
Proof.
  revert s; induction n as [|n IH]; intros [|c s]; simpl; auto.
  intros H. rewrite (IH s H). apply orb_true_r.
Qed.

(** A byte that is not in [s] is not found by a search for its rune. *)
Lemma index_func_no_byte (b : Z) (s : string) :
  0 <= b < 128 -> has_byte b s = false -> index_func (is_char b) s = None.
Proof.
  intros Hb Hs. destruct (index_func (is_char b) s) as [j|] eqn:E; [exfalso|reflexivity].
  apply index_func_from_spec in E as (_ & _ & Hf). rewrite Nat.sub_0_r in Hf.
  unfold is_char in Hf. apply Z.eqb_eq in Hf.
  destruct (decode_rune_ascii_inv _ _ Hf Hb) as (c & s' & E & Hc).
  assert (H : has_byte b (str_drop j s) = true) by (rewrite E; simpl; rewrite Hc, Z.eqb_refl; reflexivity).
  apply has_byte_drop in H. congruence.
Qed.

(** Skipping a comment line moves forward: the newline found is after
    the [#]. *)
Lemma comment_skip (s : string) (p : nat) :
  code_at 0 s = char_comment -> index_func (is_char 10) s = Some p -> (0 < p < String.length s)%nat.
Proof.
  intros C I. pose proof (index_func_bound _ _ _ I). split; [|exact H].
  destruct p as [|p]; [exfalso|lia].
  apply index_func_from_spec in I as (_ & Hne & Hch). rewrite Nat.sub_0_r in Hch, Hne. cbn [str_drop] in Hch, Hne.
  destruct s as [|c t]; [congruence|]. change (code c = char_comment) in C.
  rewrite decode_rune_ascii in Hch by (rewrite C; unfold char_comment; lia).
  unfold is_char in Hch. rewrite C in Hch. discriminate.
Qed.

(** [getStatementStart] returns the end of file or a suffix, and the fuel
    it is given, one more than the length, is enough. *)
Lemma get_statement_start_ok (fuel : nat) (s : string) :
  (String.length s < fuel)%nat ->
  get_statement_start fuel s = Success None \/
  exists t, get_statement_start fuel s = Success (Some t) /\ (String.length t <= String.length s)%nat.
Proof.
  revert s; induction fuel as [|fuel IH]; intros s Hf; [lia|]. cbn [get_statement_start].
  destruct (index_func _ s) as [pos|]; [|left; reflexivity].
  assert (Hl : (String.length (str_drop pos s) <= String.length s)%nat) by (rewrite str_drop_length; lia).
  destruct (negb (code_at 0 (str_drop pos s) =? char_comment)) eqn:C; [right; eauto|].
  apply Bool.negb_false_iff, Z.eqb_eq in C.
  destruct (index_func (is_char 10) (str_drop pos s)) as [pos'|] eqn:I; [|left; reflexivity].
  pose proof (comment_skip _ _ C I).
  destruct (IH (str_drop pos' (str_drop pos s))) as [H'|(t' & H' & Ht)].
  - rewrite str_drop_length. lia.
  - left. exact H'.
  - right. exists t'. split; [exact H'|]. rewrite str_drop_length in Ht. lia.
Qed.

Lemma get_statement_start_fuel (f1 f2 : nat) (s : string) :
  (String.length s < f1)%nat -> (String.length s < f2)%nat ->
  get_statement_start f1 s = get_statement_start f2 s.
Proof.
  revert f2 s; induction f1 as [|f1 IH]; intros [|f2] s H1 H2; try lia. cbn [get_statement_start].
  destruct (index_func _ s) as [pos|]; [|reflexivity].
  destruct (negb (code_at 0 (str_drop pos s) =? char_comment)) eqn:C; [reflexivity|].
  apply Bool.negb_false_iff, Z.eqb_eq in C.
  destruct (index_func (is_char 10) (str_drop pos s)) as [pos'|] eqn:I; [|reflexivity].
  pose proof (comment_skip _ _ C I). apply IH; rewrite !str_drop_length in *; lia.
Qed.

Lemma key_source_facts (t : string) :
  (String.length (key_source t) <= String.length t)%nat /\
  (key_source t = EmptyString \/ isSpace (fst (decode_rune (key_source t))) = false).
Proof.
  unfold key_source. pose proof (trim_left_func_length isSpace t).
  destruct (String.prefix export_prefix (trim_left_func isSpace t)).
  - destruct (index_func isSpace _) as [[|]|].
    + split; [|apply trim_left_func_head].
      pose proof (trim_left_func_length isSpace (str_drop (String.length export_prefix) (trim_left_func isSpace t))).
      rewrite str_drop_length in *. lia.
    + split; [lia|apply trim_left_func_head].
    + split; [lia|apply trim_left_func_head].
  - split; [lia|apply trim_left_func_head].
Qed.

(** The bytes a variable name may have. *)
Definition key_byte (r : Z) : bool :=
  isSpace r || (r =? 95) || is_letter_latin1 r || is_number_latin1 r || (r =? 46).

Lemma scan_key_none (s : string) (i : nat) : scan_key s i = KeyNone -> all_bytes key_byte s = true.
Proof.
  revert i; induction s as [|c s IH]; intros i; [reflexivity|]. cbn [scan_key all_bytes]. intros H.
  assert (Hc : key_byte (code c) = true /\ scan_key s (S i) = KeyNone).
  { unfold key_byte. destruct (isSpace (code c)); [split; [reflexivity|exact H]|].
    destruct ((code c =? 61) || (code c =? 58)); [discriminate|].
    destruct (code c =? 95); [split; [reflexivity|exact H]|].
    destruct (is_letter_latin1 (code c) || is_number_latin1 (code c) || (code c =? 46)) eqn:E; [|discriminate].
    split; [|exact H]. rewrite <- !orb_assoc in *. rewrite E. rewrite !orb_true_r. reflexivity. }
  destruct Hc as [Hc Hs]. rewrite Hc, (IH _ Hs). reflexivity.
Qed.

Lemma scan_key_at (s : string) (i j : nat) : scan_key s i = KeyAt j -> (i <= j < i + String.length s)%nat.
Proof.
  revert i; induction s as [|c s IH]; intros i; simpl; [discriminate|].
  destruct (isSpace (code c)); [intros H; apply IH in H; lia|].
  destruct ((code c =? 61) || (code c =? 58)); [intros [= <-]; lia|].
  destruct (code c =? 95); [intros H; apply IH in H; lia|].
  destruct (_ || _); [intros H; apply IH in H; lia|discriminate].
Qed.

Lemma extract_length (src : string) (vars : gmap string string) (v rest : string) :
  extract_var_value src vars = Success (v, rest) -> (String.length rest <= String.length src)%nat.
Proof.
  unfold extract_var_value, extract_unquoted. cbv zeta.
  destruct (has_quote_prefix src) as [q|].
  - destruct src as [|c0 rest0]; [intros [= _ <-]; simpl; lia|].
    destruct (closing_quote _ _ _ _); [|discriminate]. intros [= _ <-]. rewrite str_drop_length. simpl. lia.
  - destruct (index_func is_line_end src) as [e|];
      [|destruct src; [intros [= _ <-]; simpl; lia|]];
      destruct (runes _); intros [= _ <-]; rewrite str_drop_length; lia.
Qed.

(** A statement that is not a [KEY=] line (no separator) still consumes
    its input: its first byte is not a space, a line end or a quote. *)
Lemma extract_progress (src : string) (vars : gmap string string) (v rest : string) :
  src <> EmptyString -> isSpace (fst (decode_rune src)) = false ->
  all_bytes key_byte src = true ->
  extract_var_value src vars = Success (v, rest) -> (String.length rest < String.length src)%nat.
Proof.
  intros Hne Hsp Hk.
  assert (H10 : has_byte 10 src = false) by (apply (has_byte_all key_byte); [exact Hk|reflexivity]).
  destruct src as [|c t]; [congruence|].
  assert (Hq : has_quote_prefix (String c t) = None).
  { simpl in Hk. apply andb_prop in Hk as [Hc _]. unfold has_quote_prefix.
    destruct (Z.eqb_spec (code c) prefix_double_quote) as [E|]; [rewrite E in Hc; discriminate|].
    destruct (Z.eqb_spec (code c) prefix_single_quote) as [E|]; [rewrite E in Hc; discriminate|]. reflexivity. }
  unfold extract_var_value. rewrite Hq. unfold extract_unquoted. cbv zeta.
  destruct (index_func is_line_end (String c t)) as [[|e]|] eqn:I.
  - exfalso. apply index_func_from_spec in I as (_ & _ & Hl). rewrite Nat.sub_0_r in Hl. cbn [str_drop] in Hl.
    unfold is_line_end in Hl. apply orb_prop in Hl as [Hl|Hl]; apply Z.eqb_eq in Hl.
    + destruct (decode_rune_ascii_inv _ _ Hl ltac:(lia)) as (c' & t' & [= <- <-] & Hc).
      simpl in H10. rewrite Hc in H10. discriminate.
    + rewrite Hl in Hsp. discriminate.
  - destruct (runes _); intros [= _ <-]; rewrite str_drop_length; simpl; lia.
  - destruct (runes _); intros [= _ <-]; rewrite str_drop_length; simpl; lia.
Qed.

(** One statement of [parseBytes], [locateKeyName] then
    [extractVarValue], leaves less input than it was given. *)
Lemma statement_shrinks (t : string) (vars : gmap string string) (key left v rest : string) :
  locate_key_name t = Success (key, left) -> extract_var_value left vars = Success (v, rest) ->
  (String.length rest < String.length t)%nat.
Proof.
  unfold locate_key_name. cbv zeta. destruct (key_source_facts t) as [Hlen Hhead].
  remember (key_source t) as src eqn:Hsrc. clear Hsrc.
  destruct (scan_key src 0) as [i| |c] eqn:K; [| |discriminate];
    (destruct src as [|c0 src']; [discriminate|]); intros [= _ <-] Hx; cbn beta iota zeta in Hx.
  - apply scan_key_at in K. apply extract_length in Hx.
    pose proof (trim_left_func_length isSpace (str_drop (S i) (String c0 src'))).
    rewrite str_drop_length in *. simpl in *. lia.
  - destruct Hhead as [Hhead|Hhead]; [discriminate|].
    rewrite trim_left_func_id in Hx by (right; exact Hhead).
    apply extract_progress in Hx; [lia|discriminate|exact Hhead|exact (scan_key_none _ _ K)].
Qed.

Lemma locate_key_name_fuel (t : string) : locate_key_name t <> Failure OutOfFuel.
Proof. unfold locate_key_name. cbv zeta. destruct_matches; discriminate. Qed.

Lemma extract_var_value_fuel (src : string) (vars : gmap string string) :
  extract_var_value src vars <> Failure OutOfFuel.
Proof. unfold extract_var_value, extract_unquoted. cbv zeta. destruct_matches; discriminate. Qed.

Lemma parse_loop_total (fuel : nat) (s : string) (out : gmap string string) :
  (String.length s < fuel)%nat -> parse_loop fuel s out <> Failure OutOfFuel.
Proof.
  revert s out; induction fuel as [|fuel IH]; intros s out Hf; [lia|]. cbn [parse_loop].
  destruct (get_statement_start_ok (S (String.length s)) s ltac:(lia)) as [H|(t & H & Ht)];
    rewrite H; cbn [res_bind]; [discriminate|].
  destruct (locate_key_name t) as [[key left]|e] eqn:L; cbn [res_bind fst snd];
    [|intros [= ->]; exact (locate_key_name_fuel t L)].
  destruct (extract_var_value left out) as [[v rest]|e] eqn:X; cbn [res_bind fst snd];
    [|intros [= ->]; exact (extract_var_value_fuel left out X)].
  pose proof (statement_shrinks t out key left v rest L X). apply IH. lia.
Qed.

(** ** Plain [KEY=VALUE] lines *)

(** The bytes of a plain name ([A-Za-z0-9_.]) and of a plain value
    (printable ASCII without a space, a quote or [$]). *)
Definition plain_key_byte (r : Z) : bool :=
  in_range 65 90 r || in_range 97 122 r || in_range 48 57 r || (r =? 95) || (r =? 46).

Definition plain_value_byte (r : Z) : bool :=
  in_range 33 126 r && negb ((r =? 34) || (r =? 39) || (r =? 36)).

Definition plain_entry (kv : string * string) : bool :=
  negb (String.eqb kv.1 EmptyString) && all_bytes plain_key_byte kv.1 && all_bytes plain_value_byte kv.2.

Definition newline : string := String (byte 10) EmptyString.

(** A [.env] file with one [KEY=VALUE] line per entry. *)
Definition render_line (kv : string * string) : string := kv.1 ++ String (byte 61) (kv.2 ++ newline).

Fixpoint render (entries : list (string * string)) : string :=
  match entries with
  | [] => EmptyString
  | kv :: rest => render_line kv ++ render rest
  end.

(** Lines of a file, and a value between double quotes. *)
Fixpoint lines (ls : list string) : string :=
  match ls with
  | [] => EmptyString
  | l :: rest => l ++ newline ++ lines rest
  end.

Definition quoted (s : string) : string := String (byte 34) (s ++ String (byte 34) EmptyString).

(** A space, [#] and a space: what starts an inline comment. *)
Definition comment_sep : string := String (byte 32) (String (byte 35) (String (byte 32) EmptyString)).

Lemma has_byte_app (b : Z) (x y : string) : has_byte b (x ++ y) = has_byte b x || has_byte b y.
Proof. induction x as [|c x IH]; simpl; [reflexivity|]. rewrite IH. apply orb_assoc. Qed.

Lemma replace_crlf_id (s : string) : has_byte 13 s = false -> replace_crlf s = s.
Proof.
  induction s as [|c1 s' IH]; [reflexivity|]. cbn [has_byte]. intros H.
  apply orb_false_iff in H as [H1 H2]. cbn [replace_crlf].
  destruct s' as [|c2 s'']; [reflexivity|]. rewrite H1. cbn [andb]. rewrite (IH H2). reflexivity.
Qed.

Lemma all_bytes_in (p : Z -> bool) (s : string) (x : Z) :
  all_bytes p s = true -> In x (List.map code (list_ascii_of_string s)) -> p x = true.
Proof.
  induction s as [|c s IH]; [intros _ []|]. cbn [all_bytes list_ascii_of_string List.map In].
  intros H [<-|Hin]; apply andb_prop in H as [H1 H2]; [exact H1|exact (IH H2 Hin)].
Qed.

Lemma string_snoc (s : string) : s <> EmptyString -> exists s' c, s = s' ++ String c EmptyString.
Proof.
  induction s as [|c s IH]; [congruence|]. intros _.
  destruct (String.string_dec s EmptyString) as [->|Hs].
  - exists EmptyString, c. reflexivity.
  - destruct (IH Hs) as (s' & c' & ->). exists (String c s'), c'. reflexivity.
Qed.

Lemma all_bytes_snoc (p : Z -> bool) (s : string) (c : ascii) :
  all_bytes p (s ++ String c EmptyString) = true -> p (code c) = true.
Proof. rewrite all_bytes_app. cbn. rewrite andb_true_r. intros H. apply andb_prop in H as [_ H]. exact H. Qed.

Lemma plain_key_byte_facts (r : Z) :
  plain_key_byte r = true ->
  r < 128 /\ isSpace r = false /\ unicode_is_space r = false /\ is_line_end r = false /\
  r <> 61 /\ r <> 58 /\ r <> 35 /\ key_byte r = true /\
  (r = 95 \/ is_letter_latin1 r || is_number_latin1 r || (r =? 46) = true).
Proof.
  unfold plain_key_byte, in_range, isSpace, unicode_is_space, is_line_end, key_byte,
    is_letter_latin1, is_number_latin1, in_range. intros H. zcases; cbn in *; try discriminate; repeat split; lia.
Qed.

Lemma plain_value_byte_facts (r : Z) :
  plain_value_byte r = true ->
  r < 128 /\ isSpace r = false /\ is_line_end r = false /\ r <> 13 /\ r <> 34 /\ r <> 39 /\ r <> 36.
Proof.
  unfold plain_value_byte, in_range, isSpace, is_line_end. intros H. zcases; cbn in *; try discriminate;
    repeat split; lia.
Qed.

Lemma has_byte_plain (p : Z -> bool) (b : Z) (s : string) :
  (forall r, p r = true -> r <> b) -> all_bytes p s = true -> has_byte b s = false.
Proof.
  intros Hp Hs. apply (has_byte_all p); [exact Hs|].
  destruct (p b) eqn:E; [exfalso; exact (Hp b E eq_refl)|reflexivity].
Qed.

(** A plain first byte: the search for [f] stops there or goes on. *)
Lemma decode_first_plain (p : Z -> bool) (c : ascii) (s : string) :
  (forall r, p r = true -> r < 128) -> p (code c) = true -> decode_rune (String c s) = (code c, 1%nat).
Proof. intros Hp Hc. apply decode_rune_ascii. exact (Hp _ Hc). Qed.

(** stdpp makes [String.append] opaque to [simpl]; its two equations. *)
Lemma append_nil_l (s : string) : (EmptyString ++ s)%string = s.
Proof. reflexivity. Qed.

Lemma append_cons (c : ascii) (s t : string) : (String c s ++ t)%string = String c (s ++ t).
Proof. reflexivity. Qed.

Lemma prefix_cons (a b : ascii) (p t : string) :
  String.prefix (String a p) (String b t) = if ascii_dec a b then String.prefix p t else false.
Proof. reflexivity. Qed.

Lemma prefix_app_len (p k T : string) (c : ascii) :
  String.prefix p (k ++ String c T) = true -> has_byte (code c) p = false ->
  (String.length p <= String.length k)%nat.
Proof.
  revert k; induction p as [|a p IH]; intros k H1 H2; [simpl; lia|].
  cbn [has_byte] in H2. apply orb_false_iff in H2 as [H2 H3].
  destruct k as [|b k]; rewrite ?append_nil_l, ?append_cons, prefix_cons in H1.
  - destruct (ascii_dec a c) as [->|]; [rewrite Z.eqb_refl in H2|]; discriminate.
  - destruct (ascii_dec a b); [|discriminate]. specialize (IH k H1 H3). simpl. lia.
Qed.

Lemma str_drop_app_le (n : nat) (a b : string) :
  (n <= String.length a)%nat -> str_drop n (a ++ b) = str_drop n a ++ b.
Proof.
  revert a; induction n as [|n IH]; intros [|c a] H; simpl in *; try reflexivity; [lia|]. apply IH. lia.
Qed.

Lemma scan_key_app_plain (k s : string) (i : nat) :
  all_bytes plain_key_byte k = true -> scan_key (k ++ s) i = scan_key s (i + String.length k).
Proof.
  revert i; induction k as [|c k IH]; intros i Hk.
  - rewrite append_nil_l. f_equal. cbn. lia.
  - cbn [all_bytes] in Hk. apply andb_prop in Hk as [Hc Hk].
    destruct (plain_key_byte_facts _ Hc) as (_ & Hsp & _ & _ & H61 & H58 & _ & _ & Hl).
    rewrite append_cons. cbn [scan_key]. rewrite Hsp, (proj2 (Z.eqb_neq _ _) H61), (proj2 (Z.eqb_neq _ _) H58). cbn [orb].
    destruct Hl as [E|Hl]; [rewrite E, Z.eqb_refl|destruct (code c =? 95); [|rewrite Hl]];
      rewrite IH by exact Hk; f_equal; cbn; lia.
Qed.

Lemma scan_key_plain (k T : string) (i : nat) :
  all_bytes plain_key_byte k = true -> scan_key (k ++ String (byte 61) T) i = KeyAt (i + String.length k).
Proof. intros Hk. rewrite scan_key_app_plain by exact Hk. cbn [scan_key]. rewrite code_byte by lia. reflexivity. Qed.

(** The first byte after [n <= length k] bytes of [k ++ c ++ T], for a
    separator [c] that is an ASCII non-space. *)
Lemma plain_suffix_head (k T : string) (c : ascii) (n : nat) :
  all_bytes plain_key_byte k = true -> (n <= String.length k)%nat ->
  code c < 128 -> isSpace (code c) = false ->
  exists c' rest, str_drop n (k ++ String c T) = String c' rest /\ code c' < 128 /\ isSpace (code c') = false.
Proof.
  intros Hk Hn Hc Hsc. rewrite str_drop_app_le by exact Hn.
  destruct (str_drop n k) as [|c1 rest] eqn:D.
  - exists c, T. auto.
  - exists c1, (rest ++ String c T). split; [reflexivity|].
    assert (Hd : all_bytes plain_key_byte (str_drop n k) = true).
    { destruct (str_drop_suffix n k) as [pre E]. rewrite E, all_bytes_app in Hk.
      apply andb_prop in Hk as [_ Hk]. exact Hk. }
    rewrite D in Hd. cbn in Hd. apply andb_prop in Hd as [Hd _].
    destruct (plain_key_byte_facts _ Hd) as (H1 & H2 & _). split; assumption.
Qed.

Lemma key_source_plain (k T : string) (c : ascii) :
  k <> EmptyString -> all_bytes plain_key_byte k = true ->
  code c < 128 -> isSpace (code c) = false -> has_byte (code c) export_prefix = false ->
  key_source (k ++ String c T) = k ++ String c T.
Proof.
  intros Hne Hk Hc Hsc Hex. unfold key_source.
  destruct (plain_suffix_head k T c 0 Hk ltac:(lia) Hc Hsc) as (c0 & rest & E & Hc0 & Hsp). cbn [str_drop] in E.
  rewrite trim_left_func_id by (right; rewrite E, decode_rune_ascii by exact Hc0; exact Hsp).
  destruct (String.prefix export_prefix (k ++ String c T)) eqn:P; [|reflexivity].
  assert (Hl : (String.length export_prefix <= String.length k)%nat)
    by (apply (prefix_app_len _ _ T c); assumption).
  destruct (plain_suffix_head k T c _ Hk Hl Hc Hsc) as (c' & rest' & E' & Hc' & Hsp').
  rewrite E'. destruct (index_func isSpace (String c' rest')) as [[|]|] eqn:I; try reflexivity.
  apply index_func_from_spec in I as (_ & _ & Hf). cbn [str_drop Nat.sub] in Hf.
  rewrite decode_rune_ascii in Hf by exact Hc'. cbn [fst] in Hf. congruence.
Qed.

(** [locateKeyName] on a plain [KEY=]. *)
Lemma locate_key_name_plain (k T : string) :
  k <> EmptyString -> all_bytes plain_key_byte k = true ->
  locate_key_name (k ++ String (byte 61) T) = Success (k, trim_left_func isSpace T).
Proof.
  intros Hne Hk. unfold locate_key_name. cbv zeta.
  rewrite key_source_plain by (assumption || (rewrite code_byte by lia; reflexivity)).
  rewrite scan_key_plain by exact Hk. cbn iota beta.
  destruct k as [|c0 k0]; [congruence|].
  assert (Hm : forall (X : Type) (a b : X),
            match String c0 k0 ++ String (byte 61) T with EmptyString => a | String _ _ => b end = b)
    by reflexivity.
  rewrite Hm, Nat.add_0_l, str_take_app_len.
  replace (S (String.length (String c0 k0)))%nat with (String.length (String c0 k0) + 1)%nat by lia.
  rewrite str_drop_app_plus. cbn [str_drop].
  destruct (string_snoc (String c0 k0) ltac:(discriminate)) as (k' & c & Ek). rewrite Ek.
  rewrite Ek in Hk. pose proof (all_bytes_snoc _ _ _ Hk) as Hc.
  destruct (plain_key_byte_facts _ Hc) as (Hc1 & _ & Hc2 & _).
  rewrite trim_right_func_ascii by assumption. reflexivity.
Qed.

Lemma comment_start_id (line : list Z) (i e : nat) :
  (forall x, In x line -> isSpace x = false) -> comment_start i line e = e.
Proof.
  intros H. induction i as [|i IH]; [reflexivity|]. cbn [comment_start].
  assert (Hs : isSpace (nth (i - 1) line 0) = false).
  { destruct (nth_in_or_default (i - 1) line 0) as [Hin | ->]; [exact (H _ Hin)|reflexivity]. }
  rewrite Hs, andb_false_r. exact IH.
Qed.

Lemma expand_vars_fuel_id (f : nat) (s : string) (m : gmap string string) :
  has_byte 36 s = false -> expand_vars_fuel f s m = s.
Proof.
  revert s; induction f as [|f IH]; intros s H; [reflexivity|].
  destruct s as [|c s']; [reflexivity|]. cbn [has_byte] in H. apply orb_false_iff in H as [H1 H2].
  cbn [expand_vars_fuel].
  assert (Hn : (code_at 0 s' =? 36) = false).
  { destruct s' as [|d s'']; [reflexivity|]. cbn [has_byte] in H2. apply orb_false_iff in H2 as [H2 _].
    exact H2. }
  rewrite Hn, andb_false_r, H1, IH by exact H2. reflexivity.
Qed.

(** The first byte of [v ++ newline ++ R] for a plain value [v]. *)
Lemma plain_value_head (v R : string) :
  all_bytes plain_value_byte v = true ->
  exists c rest, (v ++ newline ++ R)%string = String c rest /\ code c < 128 /\ isSpace (code c) = false /\
                 code c <> 34 /\ code c <> 39.
Proof.
  intros Hv. destruct v as [|c v'].
  - exists (byte 10), R. rewrite code_byte by lia. split; [reflexivity|]. cbn. repeat split; lia.
  - exists c, (v' ++ newline ++ R). split; [reflexivity|]. cbn in Hv. apply andb_prop in Hv as [Hc _].
    destruct (plain_value_byte_facts _ Hc) as (H1 & H2 & _ & _ & H3 & H4 & _). auto.
Qed.

Lemma trim_func_plain (v : string) :
  v <> EmptyString -> all_bytes plain_value_byte v = true -> trim_func isSpace v = v.
Proof.
  intros Hne Hv. unfold trim_func.
  destruct (string_snoc v Hne) as (v' & c & ->).
  pose proof (all_bytes_snoc _ _ _ Hv) as Hc. destruct (plain_value_byte_facts _ Hc) as (Hc1 & Hc2 & _).
  rewrite trim_left_func_id.
  - apply trim_right_func_ascii; assumption.
  - right. destruct v' as [|c0 v0]; cbn [String.append]; rewrite ?append_nil_l, ?append_cons.
    + rewrite decode_rune_ascii by exact Hc1. exact Hc2.
    + cbn in Hv. apply andb_prop in Hv as [Hc0 _]. destruct (plain_value_byte_facts _ Hc0) as (H1 & H2 & _).
      rewrite decode_rune_ascii by exact H1. exact H2.
Qed.

(** [extractVarValue] on a plain value and its line end. *)
Lemma extract_plain (v R : string) (vars : gmap string string) :
  all_bytes plain_value_byte v = true ->
  extract_var_value (v ++ newline ++ R) vars = Success (v, (newline ++ R)%string).
Proof.
  intros Hv. destruct (plain_value_head v R Hv) as (c & rest & E & Hc & Hsp & H34 & H39).
  assert (Hq : has_quote_prefix (v ++ newline ++ R) = None).
  { rewrite E. unfold has_quote_prefix, prefix_double_quote, prefix_single_quote.
    rewrite (proj2 (Z.eqb_neq _ _) H34), (proj2 (Z.eqb_neq _ _) H39). reflexivity. }
  unfold extract_var_value. rewrite Hq. unfold extract_unquoted. cbv zeta.
  assert (Hv' : all_bytes (fun b => (b <? 128) && negb (is_line_end b)) v = true).
  { revert Hv. apply all_bytes_impl. intros b Hb. destruct (plain_value_byte_facts _ Hb) as (H1 & _ & H3 & _).
    rewrite H3, (proj2 (Z.ltb_lt _ _) H1). reflexivity. }
  rewrite index_func_app by exact Hv'.
  rewrite (index_func_head is_line_end (newline ++ R)) by (try discriminate; reflexivity). cbn [option_map Nat.add].
  rewrite str_take_app_len, str_drop_app.
  rewrite runes_ascii by (revert Hv; apply all_bytes_impl; intros b Hb; apply Z.ltb_lt, (plain_value_byte_facts _ Hb)).
  destruct (String.string_dec v EmptyString) as [->|Hne]; [reflexivity|].
  assert (Hl : exists a l, List.map code (list_ascii_of_string v) = a :: l)
    by (destruct v; [congruence|eexists _, _; reflexivity]).
  destruct Hl as (a & l & Hl). rewrite Hl. cbn iota beta. rewrite <- Hl.
  rewrite comment_start_id.
  - rewrite firstn_all. rewrite encode_runes_ascii
      by (revert Hv; apply all_bytes_impl; intros b Hb; apply Z.ltb_lt, (plain_value_byte_facts _ Hb)).
    rewrite trim_func_plain by assumption.
    unfold expand_variables. rewrite expand_vars_fuel_id; [reflexivity|].
    apply (has_byte_plain plain_value_byte); [|exact Hv]. intros r Hr. apply (plain_value_byte_facts _ Hr).
  - intros x Hx. apply (all_bytes_in plain_value_byte) in Hx; [|exact Hv]. apply (plain_value_byte_facts _ Hx).
Qed.

Lemma get_statement_start_newline (f : nat) (R : string) :
  get_statement_start f (newline ++ R) = get_statement_start f R.
Proof.
  destruct f as [|f]; [reflexivity|]. cbn [get_statement_start].
  rewrite (index_func_app _ newline R) by reflexivity.
  destruct (index_func _ R) as [pos|]; cbn [option_map]; [|reflexivity].
  rewrite Nat.add_comm, (str_drop_app_plus pos newline R). reflexivity.
Qed.

(** A plain line is a statement of its own. *)
Lemma get_statement_start_plain (f : nat) (k X : string) :
  k <> EmptyString -> all_bytes plain_key_byte k = true ->
  get_statement_start (S f) (k ++ X) = Success (Some (k ++ X)%string).
Proof.
  intros Hne Hk. destruct k as [|c k']; [congruence|]. cbn in Hk. apply andb_prop in Hk as [Hc _].
  destruct (plain_key_byte_facts _ Hc) as (H1 & _ & Hu & _ & _ & _ & H35 & _).
  cbn [get_statement_start]. rewrite append_cons.
  rewrite index_func_head by (discriminate || (rewrite decode_rune_ascii by exact H1; cbn [fst]; rewrite Hu; reflexivity)).
  cbn [str_drop]. unfold code_at. cbn [String.get]. unfold char_comment. rewrite (proj2 (Z.eqb_neq _ _) H35). reflexivity.
Qed.

Lemma parse_loop_newline (f : nat) (R : string) (out : gmap string string) :
  parse_loop (S f) (newline ++ R) out = parse_loop (S f) R out.
Proof.
  cbn [parse_loop]. rewrite get_statement_start_newline.
  rewrite (get_statement_start_fuel _ (S (String.length R))) by (rewrite ?string_length_app; simpl; lia).
  reflexivity.
Qed.

Lemma parse_loop_render (entries : list (string * string)) :
  Forall (fun kv => plain_entry kv = true) entries ->
  forall (fuel : nat) (out : gmap string string), (String.length (render entries) < fuel)%nat ->
  parse_loop fuel (render entries) out = Success (fold_left (fun m kv => <[kv.1 := kv.2]> m) entries out).
Proof.
  induction 1 as [|[k v] es Hkv Hes IH]; intros fuel out Hf.
  - destruct fuel as [|f]; [simpl in Hf; lia|]. reflexivity.
  - unfold plain_entry in Hkv. cbn [fst snd] in Hkv.
    apply andb_prop in Hkv as [Hkv Hv]. apply andb_prop in Hkv as [Hne Hk].
    apply Bool.negb_true_iff, String.eqb_neq in Hne.
    destruct fuel as [|f]; [simpl in Hf; lia|].
    cbn [render] in *. unfold render_line in *. cbn [fst snd] in *. rewrite string_length_app in Hf.
    rewrite string_app_assoc, append_cons. cbn [parse_loop fold_left fst snd].
    rewrite get_statement_start_plain by assumption. cbn [res_bind].
    rewrite locate_key_name_plain by assumption. cbn [res_bind fst snd].
    rewrite string_app_assoc.
    destruct (plain_value_head v (render es) Hv) as (c & rest & E & Hc & Hsp & _).
    rewrite trim_left_func_id by (right; rewrite E, decode_rune_ascii by exact Hc; exact Hsp).
    rewrite extract_plain by exact Hv. cbn [res_bind fst snd].
    assert (Hf' : (String.length (render es) + 1 < f)%nat).
    { revert Hf. rewrite !string_length_app. cbn [String.length]. rewrite !string_length_app.
      cbn [String.length newline]. lia. }
    destruct f as [|f]; [lia|]. rewrite parse_loop_newline. apply IH. lia.
Qed.

Lemma render_no_cr (entries : list (string * string)) :
  Forall (fun kv => plain_entry kv = true) entries -> has_byte 13 (render entries) = false.
Proof.
  induction 1 as [|[k v] es Hkv _ IH]; [reflexivity|].
  unfold plain_entry in Hkv. cbn [fst snd] in Hkv.
  apply andb_prop in Hkv as [Hkv Hv]. apply andb_prop in Hkv as [_ Hk].
  cbn [render]. unfold render_line. cbn [fst snd].
  rewrite !has_byte_app. cbn [has_byte]. rewrite has_byte_app, IH. cbn [has_byte newline].
  rewrite (has_byte_plain plain_key_byte 13 k), (has_byte_plain plain_value_byte 13 v); try assumption.
  - rewrite !code_byte by lia. reflexivity.
  - intros r Hr. apply (plain_value_byte_facts _ Hr).
  - intros r Hr ->. destruct (plain_key_byte_facts _ Hr) as (_ & H & _). discriminate.
Qed.

Lemma closing_quote_none (q prev : Z) (s : string) (i : nat) :
  has_byte q s = false -> closing_quote q prev s i = None.
Proof.
  revert prev i; induction s as [|c s IH]; intros prev i H; [reflexivity|].
  cbn [has_byte] in H. apply orb_false_iff in H as [H1 H2]. cbn [closing_quote].
  rewrite (proj2 (Z.eqb_neq _ _) (fun E => ltac:(rewrite E, Z.eqb_refl in H1; discriminate))).
  apply IH. exact H2.
Qed.

Lemma replace_crlf_app (p s : string) :
  has_byte 13 p = false -> replace_crlf (p ++ s) = p ++ replace_crlf s.
Proof.
  induction p as [|c p IH]; intros H; [reflexivity|].
  cbn [has_byte] in H. apply orb_false_iff in H as [H1 H2]. rewrite !append_cons. cbn [replace_crlf].
  rewrite <- IH by exact H2. destruct (p ++ s) as [|c2 s2]; [reflexivity|]. rewrite H1. reflexivity.
Qed.

Lemma has_byte_export (b : Z) : b < 97 \/ 122 < b -> has_byte b export_prefix = false.
Proof.
  intros H.
  change (has_byte b export_prefix) with
    ((101 =? b) || ((120 =? b) || ((112 =? b) || ((111 =? b) || ((114 =? b) || ((116 =? b) || false)))))).
  zcases; reflexivity.
Qed.

(** A later entry for a name replaces an earlier one. *)
Lemma dotenv_map_snoc (entries : list (string * string)) (k v : string) :
  dotenv_map (entries ++ [(k, v)]) = <[k := v]> (dotenv_map entries).
Proof. unfold dotenv_map. rewrite fold_left_app. reflexivity. Qed.

Lemma fold_insert_lookup (entries : list (string * string)) (m : gmap string string) (k v : string) :
  fold_left (fun m kv => <[kv.1 := kv.2]> m) entries m !! k = Some v -> In (k, v) entries \/ m !! k = Some v.
Proof.
  revert m; induction entries as [|[k' v'] es IH]; intros m H; [right; exact H|].
  cbn [fold_left fst snd] in H. destruct (IH _ H) as [Hin|Hm]; [left; right; exact Hin|].
  destruct (decide (k' = k)) as [->|Hne].
  - rewrite lookup_insert_eq in Hm. injection Hm as ->. left; left; reflexivity.
  - rewrite lookup_insert_ne in Hm by exact Hne. right; exact Hm.
Qed.

Lemma plain_entry_setenv (kv : string * string) : plain_entry kv = true -> setenv_ok kv.1 kv.2 = true.
Proof.
  unfold plain_entry, setenv_ok. intros H. apply andb_prop in H as [H Hv]. apply andb_prop in H as [Hne Hk].
  rewrite Hne. cbn [andb].
  rewrite (has_byte_plain plain_key_byte 61 kv.1), (has_byte_plain plain_key_byte 0 kv.1),
    (has_byte_plain plain_value_byte 0 kv.2); try assumption; try reflexivity.
  - intros r Hr ->. destruct (plain_value_byte_facts _ Hr) as (_ & H1 & _). discriminate.
  - intros r Hr ->. destruct (plain_key_byte_facts _ Hr) as (_ & H1 & _). discriminate.
  - intros r Hr ->. destruct (plain_key_byte_facts _ Hr) as (_ & _ & _ & _ & H1 & _). congruence.
Qed.

(** [loadFile] on a file of plain lines sets every entry the environment
    does not have. *)
Lemma load_env_render (env : gmap string string) (entries : list (string * string)) :
  Forall (fun kv => plain_entry kv = true) entries ->
  load_env env (render entries) = Success (env ∪ dotenv_map entries).
Proof.
  intros H. unfold load_env, unmarshal_bytes, parse_bytes. rewrite replace_crlf_id by exact (render_no_cr _ H).
  rewrite parse_loop_render by (exact H || lia). cbn [res_bind]. do 2 f_equal.
  apply map_filter_id. intros k v Hl. unfold dotenv_map in Hl.
  destruct (fold_insert_lookup _ _ _ _ Hl) as [Hin|Hm]; [|rewrite lookup_empty in Hm; discriminate].
  rewrite Forall_forall in H. exact (plain_entry_setenv (k, v) (H _ Hin)).
Qed.

(** ** Quoted values and inline comments *)

Lemma escape_pass_app (v s : string) : has_byte 92 v = false -> escape_pass (v ++ s) = v ++ escape_pass s.
Proof.
  induction v as [|c v IH]; intros H; [reflexivity|]. cbn [has_byte] in H. apply orb_false_iff in H as [H1 H2].
  rewrite !append_cons. cbn [escape_pass]. rewrite H1, IH by exact H2. reflexivity.
Qed.

Lemma unescape_pass_app (v s : string) : has_byte 92 v = false -> unescape_pass (v ++ s) = v ++ unescape_pass s.
Proof.
  induction v as [|c v IH]; intros H; [reflexivity|]. cbn [has_byte] in H. apply orb_false_iff in H as [H1 H2].
  rewrite !append_cons. cbn [unescape_pass]. rewrite H1, IH by exact H2. reflexivity.
Qed.

(** The search for the closing quote goes over a prefix without it. *)
Lemma closing_quote_skip (q prev : Z) (p s : string) (i : nat) :
  has_byte q p = false -> exists prev', closing_quote q prev (p ++ s) i = closing_quote q prev' s (i + String.length p).
Proof.
  revert prev i; induction p as [|c p IH]; intros prev i H; [exists prev; rewrite Nat.add_0_r; reflexivity|].
  cbn [has_byte] in H. apply orb_false_iff in H as [H1 H2]. rewrite append_cons. cbn [closing_quote].
  rewrite (proj2 (Z.eqb_neq _ _) (fun E => ltac:(rewrite E, Z.eqb_refl in H1; discriminate))). cbn [andb].
  destruct (IH (code c) (S i) H2) as [prev' E]. exists prev'. rewrite E. f_equal. simpl. lia.
Qed.

Lemma parse_loop_empty (f : nat) (out : gmap string string) : (0 < f)%nat -> parse_loop f EmptyString out = Success out.
Proof. destruct f; [lia|reflexivity]. Qed.

(** The bytes a plain name or value does not have. *)
Lemma plain_key_no_byte (b : Z) (k : string) :
  all_bytes plain_key_byte k = true -> plain_key_byte b = false -> has_byte b k = false.
Proof. apply has_byte_all. Qed.

Lemma plain_value_no_byte (b : Z) (v : string) :
  all_bytes plain_value_byte v = true -> plain_value_byte b = false -> has_byte b v = false.
Proof. apply has_byte_all. Qed.

Lemma list_ascii_app (s t : string) :
  list_ascii_of_string (s ++ t) = (list_ascii_of_string s ++ list_ascii_of_string t)%list.
Proof. induction s as [|c s IH]; [reflexivity|]. rewrite append_cons. cbn [list_ascii_of_string]. rewrite IH. reflexivity. Qed.

Lemma has_byte_not_in (b : Z) (s : string) :
  has_byte b s = false -> ~ In b (List.map code (list_ascii_of_string s)).
Proof.
  induction s as [|c s IH]; [intros _ []|]. cbn [has_byte]. intros H. apply orb_false_iff in H as [H1 H2].
  cbn [list_ascii_of_string List.map In]. intros [E|Hin]; [rewrite E, Z.eqb_refl in H1; discriminate|exact (IH H2 Hin)].
Qed.

(** The backward search of [extractVarValue] stops at the last [#]
    that follows a space. *)
Lemma comment_start_last (P Ls : list Z) (e : nat) :
  ~ In 35 Ls -> comment_start (List.length (P ++ 32 :: 35 :: Ls)%list) (P ++ 32 :: 35 :: Ls)%list e = S (List.length P).
Proof.
  intros HL.
  assert (H : forall n, (n <= List.length Ls)%nat ->
              comment_start (List.length P + 2 + n) (P ++ 32 :: 35 :: Ls)%list e = S (List.length P)).
  { induction n as [|n IH]; intros Hn.
    - replace (List.length P + 2 + 0)%nat with (S (S (List.length P))) by lia. cbn [comment_start].
      rewrite app_nth2 by lia. replace (S (List.length P) - List.length P)%nat with 1%nat by lia.
      rewrite Nat.sub_succ, Nat.sub_0_r, app_nth2, Nat.sub_diag by lia. reflexivity.
    - replace (List.length P + 2 + S n)%nat with (S (List.length P + 2 + n)) by lia. cbn [comment_start].
      rewrite app_nth2 by lia. replace (List.length P + 2 + n - List.length P)%nat with (S (S n)) by lia.
      cbn [nth]. assert (Hx : nth n Ls 0 <> 35) by (intros E; apply HL; rewrite <- E; apply nth_In; lia).
      unfold char_comment. rewrite (proj2 (Z.eqb_neq _ _) Hx). cbn [andb]. apply IH. lia. }
  rewrite length_app. cbn [List.length]. replace (List.length P + S (S (List.length Ls)))%nat
    with (List.length P + 2 + List.length Ls)%nat by lia. apply H. lia.
Qed.

(** The bytes of a commented line of plain values. *)
Lemma commented_bytes (q : Z -> bool) (a b c : string) :
  (forall r, plain_value_byte r = true -> q r = true) -> q 32 = true -> q 35 = true ->
  all_bytes plain_value_byte a = true -> all_bytes plain_value_byte b = true -> all_bytes plain_value_byte c = true ->
  all_bytes q (a ++ comment_sep ++ b ++ comment_sep ++ c) = true.
Proof.
  intros Hq H32 H35 Ha Hb Hc. rewrite !all_bytes_app.
  cbn [comment_sep all_bytes]. rewrite !code_byte by lia. rewrite H32, H35.
  rewrite (all_bytes_impl _ _ a Hq Ha), (all_bytes_impl _ _ b Hq Hb), (all_bytes_impl _ _ c Hq Hc). reflexivity.
Qed.

(** [extractVarValue] on a line of plain values with two inline comment
    separators: the value runs up to the second one. *)
Lemma extract_inline_comment (a b c R : string) (vars : gmap string string) :
  a <> EmptyString -> b <> EmptyString ->
  all_bytes plain_value_byte a = true -> all_bytes plain_value_byte b = true ->
  all_bytes plain_value_byte c = true -> has_byte 35 c = false ->
  extract_var_value ((a ++ comment_sep ++ b ++ comment_sep ++ c) ++ newline ++ R) vars
    = Success ((a ++ comment_sep ++ b)%string, (newline ++ R)%string).
Proof.
  intros Hane Hbne Ha Hb Hc H35.
  set (L := (a ++ comment_sep ++ b ++ comment_sep ++ c)%string).
  destruct a as [|ca a']; [congruence|].
  assert (Hca : plain_value_byte (code ca) = true) by (cbn in Ha; apply andb_prop in Ha as [H _]; exact H).
  destruct (plain_value_byte_facts _ Hca) as (Hca1 & Hca2 & _ & _ & Hca34 & Hca39 & _).
  assert (Hq : has_quote_prefix (L ++ newline ++ R) = None).
  { unfold L. rewrite !append_cons. unfold has_quote_prefix, prefix_double_quote, prefix_single_quote.
    rewrite (proj2 (Z.eqb_neq _ _) Hca34), (proj2 (Z.eqb_neq _ _) Hca39). reflexivity. }
  unfold extract_var_value. rewrite Hq. unfold extract_unquoted. cbv zeta.
  rewrite index_func_app.
  2:{ apply commented_bytes; try assumption; try reflexivity.
      intros r Hr. destruct (plain_value_byte_facts _ Hr) as (H1 & _ & H3 & _).
      rewrite H3, (proj2 (Z.ltb_lt _ _) H1). reflexivity. }
  rewrite (index_func_head is_line_end (newline ++ R)) by (try discriminate; reflexivity). cbn [option_map Nat.add].
  rewrite str_take_app_len, str_drop_app.
  rewrite runes_ascii.
  2:{ apply commented_bytes; try assumption; try reflexivity. intros r Hr. apply Z.ltb_lt, (plain_value_byte_facts _ Hr). }
  set (X := (String ca a' ++ comment_sep ++ b)%string).
  assert (EL : List.map code (list_ascii_of_string L)
               = (List.map code (list_ascii_of_string X) ++ 32 :: 35 :: List.map code (list_ascii_of_string (String (byte 32) c)))%list).
  { unfold L, X. rewrite <- !string_app_assoc, !list_ascii_app, !List.map_app, <- !app_assoc. reflexivity. }
  rewrite EL. set (P := List.map code (list_ascii_of_string X)).
  set (Ls := List.map code (list_ascii_of_string (String (byte 32) c))).
  assert (Hm : forall (Y : Type) (u w : Y), match (P ++ 32 :: 35 :: Ls)%list with [] => u | _ :: _ => w end = w)
    by (intros; destruct P; reflexivity).
  rewrite Hm, comment_start_last.
  2:{ unfold Ls. intros Hin. cbn in Hin. destruct Hin as [E|Hin]; [discriminate|].
      exact (has_byte_not_in 35 c H35 Hin). }
  replace (S (List.length P)) with (List.length P + 1)%nat by lia. rewrite firstn_app_2. cbn [firstn].
  assert (EP : (P ++ [32])%list = List.map code (list_ascii_of_string (X ++ String (byte 32) EmptyString))).
  { unfold P. rewrite list_ascii_app, List.map_app. reflexivity. }
  rewrite EP, encode_runes_ascii.
  2:{ assert (Hq7 : forall r, plain_value_byte r = true -> (r <? 128) = true)
        by (intros r Hr; apply Z.ltb_lt, (plain_value_byte_facts _ Hr)).
      unfold X. rewrite !all_bytes_app, (all_bytes_impl _ _ _ Hq7 Ha), (all_bytes_impl _ _ _ Hq7 Hb). reflexivity. }
  destruct (string_snoc b Hbne) as (b' & cb & Eb).
  assert (Hcb : plain_value_byte (code cb) = true) by (rewrite Eb in Hb; exact (all_bytes_snoc _ _ _ Hb)).
  destruct (plain_value_byte_facts _ Hcb) as (Hcb1 & Hcb2 & _).
  unfold trim_func. rewrite trim_left_func_id.
  2:{ right. unfold X. rewrite !append_cons, decode_rune_ascii by exact Hca1. exact Hca2. }
  assert (EX : (X ++ String (byte 32) EmptyString)%string
               = ((String ca a' ++ comment_sep ++ b') ++ String cb (String (byte 32) EmptyString))%string).
  { unfold X. rewrite Eb, !string_app_assoc. reflexivity. }
  rewrite EX, trim_right_func_strip by (rewrite ?code_byte by lia; (assumption || reflexivity)).
  assert (EX' : ((String ca a' ++ comment_sep ++ b') ++ String cb EmptyString)%string = X)
    by (unfold X; rewrite Eb, !string_app_assoc; reflexivity).
  rewrite EX'. unfold expand_variables. rewrite expand_vars_fuel_id; [reflexivity|].
  unfold X. rewrite !has_byte_app, (plain_value_no_byte 36 _ Ha eq_refl), (plain_value_no_byte 36 _ Hb eq_refl).
  unfold comment_sep. cbn [has_byte]. rewrite !code_byte by lia. reflexivity.
Qed.

(** ** What the parser does *)

(** C25: [parseBytes] terminates on every input: the loop of statements
    with the fuel it is given (one more than the length of the file)
    never runs out, so the result is the map or one of Go's parse
    errors. *)
Theorem parse_total (src : string) (out : gmap string string) :
  parse_bytes src out <> Failure OutOfFuel.
Proof. unfold parse_bytes. apply parse_loop_total. lia. Qed.

(** C26: a file of plain [KEY=VALUE] lines (names of letters, digits,
    [_] and [.], values of printable ASCII without spaces, quotes or
    [$]) parses back to exactly its entries, a later line for a name
    replacing an earlier one. *)
Theorem unmarshal_render (entries : list (string * string)) :
  Forall (fun kv => plain_entry kv = true) entries ->
  unmarshal_bytes (render entries) = Success (dotenv_map entries).
Proof.
  intros H. unfold unmarshal_bytes, parse_bytes. rewrite replace_crlf_id by exact (render_no_cr _ H).
  apply parse_loop_render; [exact H|lia].
Qed.

(** C27: an opening double quote without a closing one, at the end of
    the file, is the error "unterminated quoted value" followed by the
    value's line, and nothing is set. *)
Theorem unmarshal_unterminated (k t : string) :
  k <> EmptyString -> all_bytes plain_key_byte k = true ->
  has_byte 34 t = false -> has_byte 10 t = false -> has_byte 13 t = false ->
  unmarshal_bytes (k ++ String (byte 61) (String (byte 34) t)) = Failure (Unterminated (String (byte 34) t)).
Proof.
  intros Hne Hk H34 H10 H13. unfold unmarshal_bytes, parse_bytes.
  rewrite replace_crlf_id.
  2:{ rewrite has_byte_app. cbn [has_byte]. rewrite !code_byte by lia. cbn. rewrite H13, orb_false_r.
      apply (has_byte_plain plain_key_byte); [|exact Hk]. intros r Hr ->.
      destruct (plain_key_byte_facts _ Hr) as (_ & H & _). discriminate. }
  cbn [parse_loop]. rewrite get_statement_start_plain by assumption. cbn [res_bind].
  rewrite locate_key_name_plain by assumption. cbn [res_bind fst snd].
  rewrite trim_left_func_id by (right; rewrite decode_rune_ascii; rewrite code_byte; (reflexivity || lia)).
  assert (Hq : has_quote_prefix (String (byte 34) t) = Some 34)
    by (unfold has_quote_prefix; rewrite code_byte by lia; reflexivity).
  unfold extract_var_value. rewrite Hq. rewrite code_byte by lia.
  rewrite closing_quote_none by exact H34.
  rewrite index_func_no_byte by (lia || (cbn [has_byte]; rewrite code_byte by lia; exact H10)).
  rewrite str_take_all. reflexivity.
Qed.

(** C28: a byte a variable name cannot have ([-], [/], [!], ...) after a
    plain prefix of the name is the error "unexpected character" with the
    rest of the file from the start of the name. *)
Theorem unmarshal_bad_key (k R : string) (c : ascii) :
  k <> EmptyString -> all_bytes plain_key_byte k = true ->
  code c < 128 -> key_byte (code c) = false -> code c <> 61 -> code c <> 58 ->
  unmarshal_bytes (k ++ String c R) = Failure (UnexpectedChar c (k ++ String c (replace_crlf R))).
Proof.
  intros Hne Hk Hc Hkb H61 H58.
  assert (Hsp : isSpace (code c) = false)
    by (unfold key_byte in Hkb; destruct (isSpace (code c)); [discriminate|reflexivity]).
  assert (H13 : code c <> 13) by (intros E; rewrite E in Hsp; discriminate).
  assert (Hk13 : has_byte 13 k = false)
    by (apply (has_byte_plain plain_key_byte); [intros r Hr ->; destruct (plain_key_byte_facts _ Hr) as (_ & H & _); discriminate|exact Hk]).
  unfold unmarshal_bytes, parse_bytes. rewrite replace_crlf_app by exact Hk13.
  assert (Hcr : replace_crlf (String c R) = String c (replace_crlf R)).
  { cbn [replace_crlf]. destruct R as [|c2 R2]; [reflexivity|]. rewrite (proj2 (Z.eqb_neq _ _) H13). reflexivity. }
  rewrite Hcr. cbn [parse_loop]. rewrite get_statement_start_plain by assumption. cbn [res_bind].
  unfold locate_key_name. cbv zeta.
  assert (Hex : has_byte (code c) export_prefix = false).
  { apply has_byte_export. unfold key_byte, is_letter_latin1 in Hkb.
    destruct (Z.ltb_spec (code c) 97); [left; lia|]. destruct (Z.ltb_spec 122 (code c)); [right; lia|].
    exfalso. assert (in_range 97 122 (code c) = true) as E by (unfold in_range; zcases; reflexivity).
    rewrite E, ?orb_true_r, ?orb_true_l in Hkb. discriminate. }
  rewrite key_source_plain by assumption.
  rewrite scan_key_app_plain by exact Hk. cbn [scan_key].
  unfold key_byte in Hkb. rewrite Hsp in *. cbn [orb] in Hkb.
  rewrite (proj2 (Z.eqb_neq _ _) H61), (proj2 (Z.eqb_neq _ _) H58). cbn [orb].
  destruct (code c =? 95); [discriminate|]. cbn [orb] in Hkb. rewrite Hkb. reflexivity.
Qed.

Lemma unmarshal_render_witness :
  Forall (fun kv => plain_entry kv = true) [("API_KEY", "abc123"); ("CITY", "Colombo"); ("API_KEY", "xyz")] /\
  unmarshal_bytes (render [("API_KEY", "abc123"); ("CITY", "Colombo"); ("API_KEY", "xyz")])
    = Success (dotenv_map [("API_KEY", "abc123"); ("CITY", "Colombo"); ("API_KEY", "xyz")]).
Proof.
  assert (H : Forall (fun kv => plain_entry kv = true) [("API_KEY", "abc123"); ("CITY", "Colombo"); ("API_KEY", "xyz")])
    by (repeat constructor).
  split; [exact H|]. apply unmarshal_render. exact H.
Defined.

Lemma unmarshal_unterminated_witness :
  ("API_KEY" <> EmptyString /\ all_bytes plain_key_byte "API_KEY" = true /\
   has_byte 34 "abc" = false /\ has_byte 10 "abc" = false /\ has_byte 13 "abc" = false) /\
  unmarshal_bytes ("API_KEY" ++ String (byte 61) (String (byte 34) "abc"))
    = Failure (Unterminated (String (byte 34) "abc")).
Proof.
  assert (H : "API_KEY" <> EmptyString) by discriminate.
  split; [exact (conj H (conj eq_refl (conj eq_refl (conj eq_refl eq_refl))))|].
  apply unmarshal_unterminated; [exact H|reflexivity..].
Defined.

Lemma unmarshal_bad_key_witness :
  ("MY" <> EmptyString /\ all_bytes plain_key_byte "MY" = true /\ code "-" < 128 /\
   key_byte (code "-") = false /\ code "-" <> 61 /\ code "-" <> 58) /\
  unmarshal_bytes ("MY" ++ String "-" "KEY=1") = Failure (UnexpectedChar "-" ("MY" ++ String "-" (replace_crlf "KEY=1"))).
Proof.
  assert (H : "MY" <> EmptyString) by discriminate.
  assert (Hc : code "-" < 128) by (vm_compute; reflexivity).
  assert (H61 : code "-" <> 61) by (vm_compute; discriminate).
  assert (H58 : code "-" <> 58) by (vm_compute; discriminate).
  split; [exact (conj H (conj eq_refl (conj Hc (conj eq_refl (conj H61 H58)))))|].
  apply unmarshal_bad_key; [exact H|reflexivity|exact Hc|reflexivity|exact H61|exact H58].
Defined.

(** C29: a backslash-escaped quote just before the closing quote of a
    double-quoted value ends the value: for every plain name and every
    plain value [v] without a backslash, the line of [NAME=], a double
    quote, [v], a backslash and two double quotes sets [NAME] to [v]
    followed by a backslash, where the escape means a value ending in a
    double quote.  The search for the closing quote skips
    the escaped quote, but the trimming of quote characters then
    removes it, and the backslash it leaves has nothing to escape. *)
Theorem unmarshal_escaped_quote (k v : string) :
  k <> EmptyString -> all_bytes plain_key_byte k = true ->
  all_bytes plain_value_byte v = true -> has_byte 92 v = false ->
  unmarshal_bytes (k ++ String (byte 61) (quoted (v ++ String (byte 92) (String (byte 34) EmptyString))))
    = Success {[k := (v ++ String (byte 92) EmptyString)%string]}.
Proof.
  intros Hne Hk Hv H92. unfold quoted.
  rewrite string_app_assoc, !append_cons, append_nil_l.
  set (T := (v ++ String (byte 92) (String (byte 34) (String (byte 34) EmptyString)))%string).
  assert (HT13 : has_byte 13 T = false).
  { unfold T. rewrite has_byte_app, (plain_value_no_byte 13 v Hv eq_refl). reflexivity. }
  unfold unmarshal_bytes, parse_bytes. rewrite replace_crlf_id.
  2:{ rewrite has_byte_app, (plain_key_no_byte 13 k Hk eq_refl). cbn [has_byte]. rewrite HT13. reflexivity. }
  cbn [parse_loop]. rewrite get_statement_start_plain by assumption. cbn [res_bind].
  rewrite locate_key_name_plain by assumption. cbn [res_bind fst snd].
  rewrite trim_left_func_id by (right; rewrite decode_rune_ascii; rewrite code_byte; (reflexivity || lia)).
  assert (Hq : has_quote_prefix (String (byte 34) T) = Some 34)
    by (unfold has_quote_prefix; rewrite code_byte by lia; reflexivity).
  unfold extract_var_value. rewrite Hq. cbn iota beta. rewrite code_byte by lia.
  destruct (closing_quote_skip 34 34 v (String (byte 92) (String (byte 34) (String (byte 34) EmptyString))) 1
              (plain_value_no_byte 34 v Hv eq_refl)) as [prev E].
  fold T in E. rewrite E. cbn [closing_quote]. rewrite !code_byte by lia. cbn [Z.eqb andb negb Pos.eqb].
  assert (Htake : str_take (S (S (1 + String.length v))) (String (byte 34) T)
                  = ((String (byte 34) v) ++ String (byte 92) (String (byte 34) EmptyString))%string).
  { unfold T. rewrite <- append_cons. replace (S (S (1 + String.length v)))%nat
      with (String.length (String (byte 34) v ++ String (byte 92) (String (byte 34) EmptyString))%string)
      by (rewrite string_length_app; simpl; lia).
    assert (EX : String (byte 92) (String (byte 34) (String (byte 34) EmptyString))
                 = (String (byte 92) (String (byte 34) EmptyString) ++ String (byte 34) EmptyString)%string)
      by reflexivity.
    rewrite EX, <- string_app_assoc. apply str_take_app_len. }
  rewrite Htake, trim_right_func_strip by (rewrite ?code_byte by lia; reflexivity).
  replace (String (byte 34) v ++ String (byte 92) EmptyString)%string
    with (String (byte 34) EmptyString ++ (v ++ String (byte 92) EmptyString))%string by reflexivity.
  rewrite (trim_left_func_app _ (String (byte 34) EmptyString)) by (rewrite ?code_byte by lia; reflexivity).
  rewrite trim_left_func_id.
  2:{ right. destruct v as [|c v']; [rewrite append_nil_l, decode_rune_ascii; rewrite ?code_byte; (reflexivity || lia)|].
      cbn in Hv. apply andb_prop in Hv as [Hc _]. destruct (plain_value_byte_facts _ Hc) as (Hc1 & _ & _ & _ & H34 & _).
      rewrite append_cons, decode_rune_ascii by exact Hc1. cbn [fst]. unfold is_char. apply Z.eqb_neq. exact H34. }
  unfold prefix_double_quote. cbn iota beta. rewrite Pos.eqb_refl.
  unfold expand_escapes. rewrite escape_pass_app by exact H92.
  change (escape_pass (String (byte 92) EmptyString)) with (String (byte 92) EmptyString).
  rewrite unescape_pass_app by exact H92.
  change (unescape_pass (String (byte 92) EmptyString)) with (String (byte 92) EmptyString).
  unfold expand_variables. rewrite expand_vars_fuel_id.
  2:{ rewrite has_byte_app, (plain_value_no_byte 36 v Hv eq_refl). cbn [has_byte]. rewrite code_byte by lia. reflexivity. }
  cbn [res_bind fst snd].
  assert (Hdrop : str_drop (S (S (S (1 + String.length v)))) (String (byte 34) T) = EmptyString).
  { pose proof (str_drop_length (S (S (S (1 + String.length v)))) (String (byte 34) T)) as L.
    destruct (str_drop _ _); [reflexivity|exfalso].
    unfold T in L. cbn [String.length] in L. rewrite string_length_app in L. simpl in L. lia. }
  rewrite Hdrop, parse_loop_empty by (rewrite string_length_app; simpl; lia).
  rewrite insert_empty. reflexivity.
Qed.

(** C30: an inline comment starts at the last space and [#] of an
    unquoted value, not the first: for every plain name and plain
    values [a] and [b] (non-empty) and [c] (without [#]), the line
    [NAME=a # b # c] sets [NAME] to [a # b], where a comment that starts
    at the first [ #] would leave [a].  [extractVarValue] scans the line
    backwards and stops at the first space-hash it meets. *)
Theorem unmarshal_inline_comment (k a b c : string) :
  k <> EmptyString -> all_bytes plain_key_byte k = true ->
  a <> EmptyString -> b <> EmptyString ->
  all_bytes plain_value_byte a = true -> all_bytes plain_value_byte b = true ->
  all_bytes plain_value_byte c = true -> has_byte 35 c = false ->
  unmarshal_bytes (k ++ String (byte 61) (a ++ comment_sep ++ b ++ comment_sep ++ c ++ newline))
    = Success {[k := (a ++ comment_sep ++ b)%string]}.
Proof.
  intros Hne Hk Hane Hbne Ha Hb Hc H35.
  assert (H13 : has_byte 13 (a ++ comment_sep ++ b ++ comment_sep ++ c ++ newline) = false).
  { rewrite !has_byte_app, (plain_value_no_byte 13 a Ha eq_refl), (plain_value_no_byte 13 b Hb eq_refl),
      (plain_value_no_byte 13 c Hc eq_refl). reflexivity. }
  unfold unmarshal_bytes, parse_bytes. rewrite replace_crlf_id.
  2:{ rewrite has_byte_app, (plain_key_no_byte 13 k Hk eq_refl). cbn [has_byte]. rewrite H13. reflexivity. }
  cbn [parse_loop]. rewrite get_statement_start_plain by assumption. cbn [res_bind].
  rewrite locate_key_name_plain by assumption. cbn [res_bind fst snd].
  destruct a as [|ca a']; [congruence|].
  assert (Hca : plain_value_byte (code ca) = true) by (cbn in Ha; apply andb_prop in Ha as [H _]; exact H).
  destruct (plain_value_byte_facts _ Hca) as (Hca1 & Hca2 & _).
  rewrite trim_left_func_id by (right; rewrite append_cons, decode_rune_ascii by exact Hca1; exact Hca2).
  replace (String ca a' ++ comment_sep ++ b ++ comment_sep ++ c ++ newline)%string
    with ((String ca a' ++ comment_sep ++ b ++ comment_sep ++ c) ++ newline ++ EmptyString)%string
    by (rewrite string_app_nil_r, !string_app_assoc; reflexivity).
  rewrite extract_inline_comment by (assumption || discriminate). cbn [res_bind fst snd].
  destruct (String.length _) as [|f] eqn:Ef; [rewrite string_length_app in Ef; simpl in Ef; lia|].
  rewrite parse_loop_newline, parse_loop_empty by lia. rewrite insert_empty. reflexivity.
Qed.

Lemma unmarshal_escaped_quote_witness :
  ("E" <> EmptyString /\ all_bytes plain_key_byte "E" = true /\
   all_bytes plain_value_byte "abc" = true /\ has_byte 92 "abc" = false) /\
  unmarshal_bytes ("E" ++ String (byte 61) (quoted ("abc" ++ String (byte 92) (String (byte 34) EmptyString))))
    = Success {["E" := ("abc" ++ String (byte 92) EmptyString)%string]}.
Proof.
  assert (H : "E" <> EmptyString) by discriminate.
  split; [exact (conj H (conj eq_refl (conj eq_refl eq_refl)))|].
  apply unmarshal_escaped_quote; [exact H|reflexivity..].
Defined.

Lemma unmarshal_inline_comment_witness :
  ("C" <> EmptyString /\ all_bytes plain_key_byte "C" = true /\ "a" <> EmptyString /\ "b" <> EmptyString /\
   all_bytes plain_value_byte "a" = true /\ all_bytes plain_value_byte "b" = true /\
   all_bytes plain_value_byte "c" = true /\ has_byte 35 "c" = false) /\
  unmarshal_bytes ("C" ++ String (byte 61) ("a" ++ comment_sep ++ "b" ++ comment_sep ++ "c" ++ newline))
    = Success {["C" := ("a" ++ comment_sep ++ "b")%string]}.
Proof.
  assert (Hk : "C" <> EmptyString) by discriminate.
  assert (Ha : "a" <> EmptyString) by discriminate.
  assert (Hb : "b" <> EmptyString) by discriminate.
  split; [exact (conj Hk (conj eq_refl (conj Ha (conj Hb (conj eq_refl (conj eq_refl (conj eq_refl eq_refl)))))))|].
  apply unmarshal_inline_comment; [exact Hk|reflexivity|exact Ha|exact Hb|reflexivity..].
Defined.

(** A [.env] of the usual forms parses to the values godotenv's
    documentation gives: comments and blank lines skipped, an [export]
    prefix dropped, an inline comment cut, double-quoted values with
    [\n] and variables expanded ([${HOST}]), single-quoted values taken
    literally, the YAML separator [:], and a CRLF line end. *)
Example dotenv_samples :
  unmarshal_bytes (lines ["# weather settings"; ""; "export API_KEY=abc123 # inline";
                          "CITY=" ++ quoted "New York"; "GREETING=" ++ quoted "hi\nthere";
                          "HOST=h"; "URL=${HOST}/x"; "SINGLE='a $HOST'"; "UNITS: metric";
                          "CRLF=1" ++ String (byte 13) EmptyString])
    = Success (list_to_map [("API_KEY", "abc123"); ("CITY", "New York");
                            ("GREETING", "hi" ++ newline ++ "there"); ("HOST", "h"); ("URL", "h/x");
                            ("SINGLE", "a $HOST"); ("UNITS", "metric"); ("CRLF", "1")]).
Proof. vm_compute. reflexivity. Qed.

(** Four behaviours of the parser that a reader of a [.env] file
    would not expect: an escaped quote just before the closing quote is
    lost with it and the backslash kept (the quoted text [abc\] and an
    escaped quote give [abc\]); the
    inline comment starts at the last [ #], not the first; [$(H)] is
    expanded as [$H] (the test [submatch[2] == "("] compares the [$]
    group and never holds), leaving the [)]; and a last line without
    [=] sets the empty name to the whole line.  The first two hold for
    every plain name and value ([unmarshal_escaped_quote],
    [unmarshal_inline_comment]). *)
Example dotenv_quirks :
  unmarshal_bytes ("E=" ++ String (byte 34) ("abc\" ++ String (byte 34) (String (byte 34) EmptyString)))
    = Success {[ "E" := "abc\" ]} /\
  unmarshal_bytes "C=a # b # c" = Success {[ "C" := "a # b" ]} /\
  unmarshal_bytes (lines ["H=h"; "X=$(H)"]) = Success (list_to_map [("H", "h"); ("X", "h)")]) /\
  unmarshal_bytes "FOO" = Success {[ "" := "FOO" ]}.
Proof. repeat split; vm_compute; reflexivity. Qed.

End DotEnv.
