(* ===== verification/Duration.v ===== *)
(** * The execution time: [time.Since] and [Duration.String]

    main.go lines 45-48:
<<
    startNow := time.Now()
    defer func() {
        fmt.Printf("Execution time: %s\n", time.Since(startNow))
    }()
>>
    [time.Now()] carries a reading of the monotonic clock, and
    [time.Since(startNow)] subtracts two monotonic readings ([subMono] in
    the [time] package): an [int64] subtraction that wraps, corrected to
    [maxDuration] or [minDuration] when it overflowed.  [%s] prints the
    [Duration] with its [String] method, which formats it right to left
    into a 32-byte buffer ([Duration.format], [fmtFrac], [fmtInt]).

    Integers are kept as [Z] at their width: [swrap64] is the [int64]
    view of an integer modulo [2^64], [wrap64] the [uint64] view. *)

From S2P Require Import Prelude.
From Stdlib Require Import ZArith Lia String Ascii List.
Import ListNotations.
Open Scope string_scope.
Open Scope Z_scope.
Open Scope bool_scope.

Module Duration.

(** ** Machine integers *)

Definition min_int64 : Z := - 2 ^ 63.
Definition max_int64 : Z := 2 ^ 63 - 1.

Definition in_int64 (z : Z) : bool := (min_int64 <=? z) && (z <=? max_int64).

(** [uint64(z)]. *)
Definition wrap64 (z : Z) : Z := z mod 2 ^ 64.

(** [int64(z)]: the two's-complement reading of [z] modulo [2^64]. *)
Definition swrap64 (z : Z) : Z := (z + 2 ^ 63) mod 2 ^ 64 - 2 ^ 63.

(** ** [time.Since] *)

(** [subMono(t, u)]: [t - u] for two monotonic readings, saturated. *)
Definition sub_mono (t u : Z) : Z :=
  let d := swrap64 (t - u) in
  if (d <? 0) && (u <? t) then max_int64
  else if (0 <? d) && (t <? u) then min_int64
  else d.

(** ** [Duration.String] *)

Definition digit_char (n : Z) : ascii := ascii_of_nat (Z.to_nat (48 + n)).

(** [fmtFrac(buf, v, prec)]: the [prec] low decimal digits of [v] as a
    fraction, trailing zeros omitted and the point too when they are
    all zero; and [v / 10^prec].  The digits are produced from the
    lowest, each printed one going before the ones already printed. *)
Fixpoint fmt_frac_loop (prec : nat) (v : Z) (print : bool) (acc : string) : string * Z :=
  match prec with
  | O => (if print then String "." acc else acc, v)
  | S p =>
      let digit := v mod 10 in
      let print' := print || negb (digit =? 0) in
      fmt_frac_loop p (v / 10) print' (if print' then String (digit_char digit) acc else acc)
  end.

Definition fmt_frac (v : Z) (prec : nat) : string * Z := fmt_frac_loop prec v false "".

(** [fmtInt(buf, v)]: [v] in decimal.  The loop runs once per digit; a
    [uint64] has at most 20, the fuel. *)
Fixpoint fmt_int_loop (fuel : nat) (v : Z) (acc : string) : string :=
  match fuel with
  | O => acc
  | S f => if 0 <? v then fmt_int_loop f (v / 10) (String (digit_char (v mod 10)) acc) else acc
  end.

Definition fmt_int (v : Z) : string :=
  if v =? 0 then "0" else fmt_int_loop 20 v "".

(** U+00B5, the micro sign, in UTF-8. *)
Definition micro : string := String (ascii_of_nat 194) (String (ascii_of_nat 181) "").

(** [Duration.format] for [d] an [int64]: the text [String] returns. *)
Definition duration_string (d : Z) : string :=
  let neg := d <? 0 in
  let u := if neg then wrap64 (- wrap64 d) else wrap64 d in
  let body :=
    if u <? 10 ^ 9 then
      if u =? 0 then None
      else
        let '(prec, unit) :=
          if u <? 10 ^ 3 then (0%nat, "ns")
          else if u <? 10 ^ 6 then (3%nat, micro ++ "s")
          else (6%nat, "ms") in
        let '(frac, v) := fmt_frac u prec in
        Some (fmt_int v ++ frac ++ unit)
    else
      let '(frac, v) := fmt_frac u 9 in
      let secs := fmt_int (v mod 60) ++ frac ++ "s" in
      let mins := v / 60 in
      Some (if 0 <? mins then
              let hours := mins / 60 in
              (if 0 <? hours then fmt_int hours ++ "h" else "") ++ fmt_int (mins mod 60) ++ "m" ++ secs
            else secs) in
  match body with
  | None => "0s"
  | Some b => if neg then "-" ++ b else b
  end.

(** The line the deferred function prints. *)
Definition exec_time_line (d : Z) : string :=
  "Execution time: " ++ duration_string d ++ String (ascii_of_nat 10) "".

(** ** Lemmas on the machine integers *)

Lemma swrap64_in (z : Z) : min_int64 <= z <= max_int64 -> swrap64 z = z.
Proof. unfold swrap64, min_int64, max_int64. intros H. rewrite Z.mod_small; lia. Qed.

Lemma swrap64_above (z : Z) : max_int64 < z < 2 ^ 64 - min_int64 -> swrap64 z = z - 2 ^ 64.
Proof.
  unfold swrap64, min_int64, max_int64. intros H.
  rewrite <- (Z.mod_unique (z + 2 ^ 63) (2 ^ 64) 1 (z + 2 ^ 63 - 2 ^ 64)); lia.
Qed.

Lemma swrap64_below (z : Z) : - 2 ^ 64 + min_int64 <= z < min_int64 -> swrap64 z = z + 2 ^ 64.
Proof.
  unfold swrap64, min_int64, max_int64. intros H.
  rewrite <- (Z.mod_unique (z + 2 ^ 63) (2 ^ 64) (-1) (z + 2 ^ 63 + 2 ^ 64)); lia.
Qed.

Lemma swrap64_range (z : Z) : min_int64 <= swrap64 z <= max_int64.
Proof.
  unfold swrap64, min_int64, max_int64.
  pose proof (Z.mod_pos_bound (z + 2 ^ 63) (2 ^ 64) ltac:(lia)). lia.
Qed.

(** From two [int64] readings with [u <= t], the forward difference
    clamped above. *)
Lemma sub_mono_forward (t u : Z) :
  min_int64 <= t <= max_int64 -> min_int64 <= u <= max_int64 -> u <= t ->
  sub_mono t u = Z.min max_int64 (t - u).
Proof.
  intros Ht Hu Hle. unfold sub_mono.
  destruct (Z.le_gt_cases (t - u) max_int64) as [Hin|Hgt].
  - rewrite swrap64_in by (unfold min_int64, max_int64 in *; lia). unfold min_int64, max_int64 in *.
    destruct (Z.ltb_spec (t - u) 0), (Z.ltb_spec 0 (t - u)), (Z.ltb_spec t u); simpl; lia.
  - rewrite swrap64_above by (unfold min_int64, max_int64 in *; lia).
    unfold min_int64, max_int64 in *.
    destruct (Z.ltb_spec (t - u - 2 ^ 64) 0), (Z.ltb_spec u t); simpl; lia.
Qed.

(** [uint64(d)], negated when [d < 0], is [|d|] for an [int64] [d]. *)
Lemma magnitude_abs (d : Z) :
  min_int64 <= d <= max_int64 ->
  (if d <? 0 then wrap64 (- wrap64 d) else wrap64 d) = Z.abs d.
Proof.
  unfold wrap64, min_int64, max_int64. intros H. destruct (Z.ltb_spec d 0).
  - rewrite <- (Z.mod_unique d (2 ^ 64) (-1) (d + 2 ^ 64)) by lia.
    rewrite <- (Z.mod_unique (- (d + 2 ^ 64)) (2 ^ 64) (-1) (- d)) by lia. lia.
  - rewrite Z.mod_small; lia.
Qed.

(** ** Lemmas on the digits *)

Lemma fmt_int_loop_length (f : nat) (v : Z) (k : nat) (acc : string) :
  0 <= v < 10 ^ Z.of_nat k ->
  (String.length (fmt_int_loop f v acc) <= k + String.length acc)%nat.
Proof.
  revert v k acc. induction f as [|f IH]; intros v k acc Hv; simpl; [lia|].
  destruct (Z.ltb_spec 0 v); [|lia].
  destruct k as [|k]; [simpl in Hv; lia|].
  rewrite Nat2Z.inj_succ, Z.pow_succ_r in Hv by lia.
  assert (Hd : 0 <= v / 10 < 10 ^ Z.of_nat k)
    by (split; [apply Z.div_pos; lia | apply Z.div_lt_upper_bound; lia]).
  specialize (IH (v / 10) k (String (digit_char (v mod 10)) acc) Hd). simpl in IH. lia.
Qed.

Lemma fmt_int_length (v : Z) (k : nat) :
  (1 <= k)%nat -> 0 <= v < 10 ^ Z.of_nat k -> (String.length (fmt_int v) <= k)%nat.
Proof.
  intros Hk Hv. unfold fmt_int. destruct (Z.eqb_spec v 0); [simpl; lia|].
  pose proof (fmt_int_loop_length 20 v k "" Hv). simpl in *. lia.
Qed.

Lemma fmt_frac_loop_length (p : nat) (v : Z) (print : bool) (acc : string) :
  (String.length (fst (fmt_frac_loop p v print acc)) <= p + 1 + String.length acc)%nat.
Proof.
  revert v print acc. induction p as [|p IH]; intros v print acc; simpl.
  - destruct print; simpl; lia.
  - eapply Nat.le_trans; [apply IH|]. destruct (_ || _); simpl; lia.
Qed.

Lemma fmt_frac_loop_value (p : nat) (v : Z) (print : bool) (acc : string) :
  0 <= v -> snd (fmt_frac_loop p v print acc) = v / 10 ^ Z.of_nat p.
Proof.
  revert v print acc. induction p as [|p IH]; intros v print acc Hv; simpl.
  - rewrite Z.div_1_r. reflexivity.
  - rewrite IH by (apply Z.div_pos; lia).
    rewrite Z.div_div by lia. f_equal. rewrite Nat2Z.inj_succ, Z.pow_succ_r; lia.
Qed.

Lemma fmt_frac_facts (u : Z) (p : nat) :
  0 <= u -> exists frac v, fmt_frac u p = (frac, v) /\
    (String.length frac <= p + 1)%nat /\ v = u / 10 ^ Z.of_nat p.
Proof.
  intros Hu. exists (fst (fmt_frac u p)), (snd (fmt_frac u p)).
  split; [destruct (fmt_frac u p); reflexivity|]. split.
  - pose proof (fmt_frac_loop_length p u false "") as H. cbn [String.length] in H. unfold fmt_frac. lia.
  - apply fmt_frac_loop_value. exact Hu.
Qed.

(** ** Theorems *)

(** C22: [time.Since] is a saturating subtraction.  For two [int64]
    monotonic readings, [subMono] returns [t - u] clamped to the [int64]
    range: the wrapped difference is corrected to [maxDuration] or
    [minDuration] exactly when it overflowed. *)
Theorem sub_mono_saturates (t u : Z) :
  min_int64 <= t <= max_int64 -> min_int64 <= u <= max_int64 ->
  sub_mono t u = Z.max min_int64 (Z.min max_int64 (t - u)).
Proof.
  intros Ht Hu. unfold sub_mono.
  destruct (Z.le_gt_cases (t - u) max_int64) as [Hle|Hgt].
  - destruct (Z.le_gt_cases min_int64 (t - u)) as [Hge|Hlt].
    + rewrite swrap64_in by lia. unfold min_int64, max_int64 in *.
      destruct (Z.ltb_spec (t - u) 0), (Z.ltb_spec u t), (Z.ltb_spec 0 (t - u)), (Z.ltb_spec t u);
        simpl; lia.
    + rewrite swrap64_below by (unfold min_int64, max_int64 in *; lia).
      unfold min_int64, max_int64 in *.
      destruct (Z.ltb_spec (t - u + 2 ^ 64) 0), (Z.ltb_spec u t), (Z.ltb_spec 0 (t - u + 2 ^ 64)), (Z.ltb_spec t u);
        simpl; lia.
  - rewrite swrap64_above by (unfold min_int64, max_int64 in *; lia).
    unfold min_int64, max_int64 in *.
    destruct (Z.ltb_spec (t - u - 2 ^ 64) 0), (Z.ltb_spec u t); simpl; lia.
Qed.

Lemma sub_mono_saturates_witness :
  (min_int64 <= max_int64 <= max_int64 /\ min_int64 <= min_int64 <= max_int64) /\
  sub_mono max_int64 min_int64 = Z.max min_int64 (Z.min max_int64 (max_int64 - min_int64)).
Proof.
  split; [unfold min_int64, max_int64; lia|].
  apply sub_mono_saturates; unfold min_int64, max_int64; lia.
Defined.

(** [subMono] is well typed at [int64]: whatever the two readings,
    wrapped or not, its result is an [int64] value, since the wrapped
    difference is one and the two saturation values are its bounds. *)
Lemma sub_mono_int64 (t u : Z) : in_int64 (sub_mono t u) = true.
Proof.
  unfold in_int64. apply andb_true_intro. rewrite Z.leb_le, Z.leb_le.
  unfold sub_mono. destruct ((swrap64 (t - u) <? 0) && (u <? t)); [unfold min_int64, max_int64; lia|].
  destruct ((0 <? swrap64 (t - u)) && (t <? u)); [unfold min_int64, max_int64; lia|].
  apply swrap64_range.
Qed.

(** C23: [Duration.format] never writes outside its buffer: the text of
    every [int64] duration is at most 32 bytes long (the longest is 25,
    for [minDuration]). *)
Theorem duration_string_fits (d : Z) :
  min_int64 <= d <= max_int64 -> (String.length (duration_string d) <= 32)%nat.
Proof.
  intros Hd. unfold duration_string. rewrite (magnitude_abs d Hd).
  assert (Hu : 0 <= Z.abs d <= 2 ^ 63) by (unfold min_int64, max_int64 in Hd; lia).
  set (u := Z.abs d) in *. clearbody u.
  destruct (Z.ltb_spec u (10 ^ 9)) as [Hs|Hl].
  - destruct (Z.eqb_spec u 0); [simpl; destruct (d <? 0); simpl; lia|].
    assert (Hp : exists prec unit, (if u <? 10 ^ 3 then (0%nat, "ns")
                   else if u <? 10 ^ 6 then (3%nat, micro ++ "s") else (6%nat, "ms")) = (prec, unit) /\
                   (prec <= 6)%nat /\ (String.length unit <= 3)%nat).
    { destruct (u <? 10 ^ 3); [|destruct (u <? 10 ^ 6)]; eexists _, _; (split; [reflexivity|]); simpl; split; lia. }
    destruct Hp as (prec & unit & -> & Hprec & Hunit).
    destruct (fmt_frac_facts u prec ltac:(lia)) as (frac & v & -> & Hf & Hv).
    assert (Hv' : 0 <= v < 10 ^ Z.of_nat 9).
    { subst v. split; [apply Z.div_pos; [lia | apply Z.pow_pos_nonneg; lia]|].
      apply Z.div_lt_upper_bound; [apply Z.pow_pos_nonneg; lia|].
      assert (0 < 10 ^ Z.of_nat prec) by (apply Z.pow_pos_nonneg; lia). simpl. nia. }
    pose proof (fmt_int_length v 9 ltac:(lia) Hv').
    destruct (d <? 0); rewrite ?string_length_app; simpl; rewrite ?string_length_app; lia.
  - destruct (fmt_frac_facts u 9 ltac:(lia)) as (frac & v & -> & Hf & Hv).
    assert (Hv' : 0 <= v < 10 ^ 10) by (subst v; split; [apply Z.div_pos; lia | apply Z.div_lt_upper_bound; simpl in *; lia]).
    pose proof (fmt_int_length (v mod 60) 2 ltac:(lia) ltac:(simpl; pose proof (Z.mod_pos_bound v 60); lia)).
    pose proof (fmt_int_length ((v / 60) mod 60) 2 ltac:(lia) ltac:(simpl; pose proof (Z.mod_pos_bound (v / 60) 60); lia)).
    assert (Hh : 0 <= v / 60 / 60 < 10 ^ Z.of_nat 7).
    { subst v. split; [apply Z.div_pos; [apply Z.div_pos; [apply Z.div_pos|]|]; lia|].
      rewrite !Z.div_div by lia. apply Z.div_lt_upper_bound; simpl; lia. }
    pose proof (fmt_int_length (v / 60 / 60) 7 ltac:(lia) Hh).
    destruct (0 <? v / 60); [destruct (0 <? v / 60 / 60)|]; destruct (d <? 0);
      rewrite ?string_length_app; simpl; rewrite ?string_length_app; simpl; lia.
Qed.

Lemma duration_string_fits_witness :
  min_int64 <= min_int64 <= max_int64 /\ (String.length (duration_string min_int64) <= 32)%nat.
Proof. split; [unfold min_int64, max_int64; lia | apply duration_string_fits; unfold min_int64, max_int64; lia]. Defined.

(** The text [%s] prints for a [Duration], on the values of Go's
    documentation: zero, each unit, fractions without trailing zeros, a
    minute with zero seconds, and the extreme [int64] durations. *)
Example duration_string_samples :
  List.map duration_string [0; 1; 1500; 1500000; 1500000000; 60000000000; 3661000000000; -1500]
    = ["0s"; "1ns"; "1.5" ++ micro ++ "s"; "1.5ms"; "1.5s"; "1m0s"; "1h1m1s"; "-1.5" ++ micro ++ "s"] /\
  duration_string min_int64 = "-2562047h47m16.854775808s" /\
  duration_string max_int64 = "2562047h47m16.854775807s".
Proof. repeat split; vm_compute; reflexivity. Qed.

End Duration.
