(* ===== verification/Float64.v ===== *)
(** * Go's [float64]: IEEE-754 binary64 on [SpecFloat]

    Go's [float64] is IEEE-754 binary64 with round-to-nearest-even.
    The Standard Library's [SpecFloat] gives binary64 arithmetic as
    executable functions on a representation with an explicit mantissa
    and exponent ([S754_finite s m e] is [(-1)^s * m * 2^e]), so the
    values main.go computes can be evaluated with [vm_compute].  This
    file fixes the format ([prec = 53], [emax = 1024]), names the
    operations main.go uses, and gives the conversions:
    - [of_Z]: Go's [float64(i)] for an [int] [i];
    - [of_decimal]: the nearest binary64 to a decimal [m * 10^e], which
      is how Go rounds an untyped constant such as [273.15] to
      [float64] and what [strconv.ParseFloat] returns for a JSON
      number (both are correctly rounded).
    The lemmas give the exact form of small integers ([of_Z_pos]) and
    show that dividing two such integers is the same division as on the
    raw decimal operands ([div_of_Z]). *)

From S2P Require Import Prelude.
From Stdlib Require Import ZArith Lia Floats.SpecFloat.
Open Scope Z_scope.

Module F64.

Definition prec : Z := 53.
Definition emax : Z := 1024.

(** A binary64 value: zero, infinity, NaN or [(-1)^s * m * 2^e]. *)
Abbreviation float64 := spec_float.

Definition valid (x : float64) : bool := valid_binary prec emax x.

Definition add (x y : float64) : float64 := SFadd prec emax x y.
Definition sub (x y : float64) : float64 := SFsub prec emax x y.
Definition mul (x y : float64) : float64 := SFmul prec emax x y.
Definition div (x y : float64) : float64 := SFdiv prec emax x y.
Definition ldexp (x : float64) (e : Z) : float64 := SFldexp prec emax x e.
Definition frexp (x : float64) : float64 * Z := SFfrexp prec emax x.

(** Go's [==] and [<] on [float64]: false whenever NaN is involved. *)
Definition eqb (x y : float64) : bool := SFeqb x y.
Definition ltb (x y : float64) : bool := SFltb x y.

Definition zero : float64 := S754_zero false.

Definition is_nan (x : float64) : bool :=
  match x with S754_nan => true | _ => false end.

Definition is_finite (x : float64) : bool :=
  match x with S754_zero _ | S754_finite _ _ _ => true | _ => false end.

(** [float64(z)]: the nearest binary64 to the integer [z]. *)
Definition of_Z (z : Z) : float64 := binary_normalize prec emax z 0 false.

Definition one : float64 := of_Z 1.

(** The nearest binary64 to [(-1)^neg * m * 10^e]; a zero keeps the
    sign of the literal ([-0] parses to negative zero). *)
Definition of_decimal (neg : bool) (m : N) (e : Z) : float64 :=
  match m with
  | N0 => S754_zero neg
  | Npos p =>
      if 0 <=? e then
        binary_normalize prec emax (if neg then Zneg p * 10 ^ e else Zpos p * 10 ^ e) 0 neg
      else div (S754_finite neg p 0) (S754_finite false (Z.to_pos (10 ^ (- e))) 0)
  end.

(** The exact value of a finite float as a signed mantissa and a binary
    exponent: [x = fst * 2 ^ snd]. *)
Definition to_mant_exp (x : float64) : option (Z * Z) :=
  match x with
  | S754_zero _ => Some (0, 0)
  | S754_finite s m e => Some (if s then Zneg m else Zpos m, e)
  | _ => None
  end.

(** [x] is finite and its value is the integer [n]. *)
Definition is_int_value (x : float64) (n : Z) : Prop :=
  match to_mant_exp x with
  | Some (m, e) => if 0 <=? e then m * 2 ^ e = n else m = n * 2 ^ (- e)
  | None => False
  end.

(** ** Exactness lemmas *)

Lemma digits2_pos_size (p : positive) : digits2_pos p = Pos.size p.
Proof. induction p; simpl; congruence. Qed.

Lemma size_iter_xO (p n : positive) :
  Pos.size (Pos.iter xO p n) = (Pos.size p + n)%positive.
Proof.
  induction n using Pos.peano_ind.
  - simpl. lia.
  - rewrite Pos.iter_succ. simpl. rewrite IHn. lia.
Qed.

Lemma iter_xO_Z (p n : positive) : Zpos (Pos.iter xO p n) = Zpos p * 2 ^ Zpos n.
Proof.
  induction n using Pos.peano_ind.
  - simpl. lia.
  - rewrite Pos.iter_succ, Pos2Z.inj_succ, Z.pow_succ_r by lia.
    rewrite Pos2Z.inj_xO, IHn. lia.
Qed.

Lemma shr_fexp_exact (m : positive) (e : Z) (l : location) :
  Zpos (Pos.size m) = prec -> emin prec emax <= e ->
  shr_fexp prec emax (Zpos m) e l = (shr_record_of_loc (Zpos m) l, e).
Proof.
  intros Hm He. unfold shr_fexp, fexp, Zdigits2.
  rewrite digits2_pos_size, Hm.
  replace (Z.max (prec + e - prec) (emin prec emax) - e) with 0 by lia.
  reflexivity.
Qed.

(** Rounding a mantissa of exactly [prec] digits at a representable
    exponent is exact. *)
Lemma round_aux_exact (s : bool) (m : positive) (e : Z) :
  Zpos (Pos.size m) = prec -> emin prec emax <= e <= emax - prec ->
  binary_round_aux prec emax s (Zpos m) e loc_Exact = S754_finite s m e.
Proof.
  intros Hm He. unfold binary_round_aux.
  rewrite shr_fexp_exact by lia. simpl.
  rewrite shr_fexp_exact by lia. simpl.
  assert (Hle : (e <=? emax - prec) = true) by (apply Z.leb_le; lia).
  unfold emax, prec in Hle |- *. simpl in Hle. rewrite Hle. reflexivity.
Qed.

(** A positive integer of at most [prec] bits is rounded exactly: its
    mantissa is shifted left to [prec] bits. *)
Lemma binary_round_small (s : bool) (p : positive) :
  Zpos (Pos.size p) <= prec ->
  binary_round prec emax s p 0 =
  S754_finite s (Z.to_pos (Zpos p * 2 ^ (prec - Zpos (Pos.size p)))) (Zpos (Pos.size p) - prec).
Proof.
  intros Hp. unfold binary_round, shl_align, fexp.
  rewrite digits2_pos_size.
  destruct (Z.eq_dec (Zpos (Pos.size p)) prec) as [Heq|Hne].
  - rewrite Heq. simpl. rewrite round_aux_exact; [| assumption | unfold emin, prec, emax; lia].
    rewrite Pos.mul_1_r. reflexivity.
  - set (k := Z.to_pos (prec - Zpos (Pos.size p))).
    assert (Hk : Zpos k = prec - Zpos (Pos.size p)) by (unfold k; rewrite Z2Pos.id; lia).
    replace (Z.max (Zpos (Pos.size p) + 0 - prec) (emin prec emax) - 0) with (- Zpos k)
      by (unfold emin, emax, prec in *; lia).
    change (- Zpos k) with (Zneg k). cbv iota.
    rewrite round_aux_exact.
    + rewrite <- Hk, <- iter_xO_Z. simpl Z.to_pos. f_equal. unfold emin, emax, prec in *; lia.
    + rewrite size_iter_xO. lia.
    + unfold emin, emax, prec in *; lia.
Qed.

Lemma new_location_scale (b r : Z) (j : Z) :
  0 < b -> 0 <= r < b -> 0 <= j ->
  new_location (b * 2 ^ j) (r * 2 ^ j) = new_location b r.
Proof.
  intros Hb Hr Hj.
  assert (Hp : 0 < 2 ^ j) by (apply Z.pow_pos_nonneg; lia).
  destruct (Z.eq_dec j 0) as [->|Hj0].
  { rewrite Z.pow_0_r, !Z.mul_1_r. reflexivity. }
  assert (Heven : Z.even (b * 2 ^ j) = true).
  { rewrite Z.even_mul. apply Bool.orb_true_iff. right.
    replace j with (Z.succ (j - 1)) by lia. rewrite Z.pow_succ_r by lia.
    rewrite Z.even_mul. reflexivity. }
  unfold new_location. rewrite Heven. unfold new_location_even.
  assert (Hz : (r * 2 ^ j =? 0) = (r =? 0)).
  { destruct (Z.eqb_spec r 0), (Z.eqb_spec (r * 2 ^ j) 0); nia. }
  rewrite Hz.
  assert (Hc : (2 * (r * 2 ^ j) ?= b * 2 ^ j) = (2 * r ?= b)).
  { replace (2 * (r * 2 ^ j)) with ((2 * r) * 2 ^ j) by ring.
    symmetry. apply Zmult_compare_compat_r. lia. }
  rewrite Hc.
  destruct (Z.even b) eqn:Eb; [reflexivity|].
  unfold new_location_odd. destruct (Z.eqb r 0); [reflexivity|].
  f_equal.
  assert (Hodd : b = 2 * Z.div2 b + 1).
  { rewrite (Z.div2_odd b) at 1. rewrite <- Z.negb_even, Eb. simpl. lia. }
  destruct (Z.compare_spec (2 * r) b); destruct (Z.compare_spec (2 * r + 1) b);
    solve [reflexivity | lia].
Qed.

Lemma Zdigits2_pos_log2 (z : Z) : 0 < z -> Zdigits2 z = Z.log2 z + 1.
Proof.
  intros Hz. destruct z as [|p|p]; try lia. simpl. rewrite digits2_pos_size.
  destruct p; simpl; lia.
Qed.

Lemma div_eucl_div_mod (a b : Z) : Z.div_eucl a b = (a / b, a mod b).
Proof. unfold Z.div, Z.modulo. destruct (Z.div_eucl a b). reflexivity. Qed.

Lemma div_core_scale (p1 p2 : positive) (j1 j2 : Z) :
  0 <= j1 -> 0 <= j2 ->
  Z.log2 (Zpos p1) + 1 + j1 = prec -> Z.log2 (Zpos p2) + 1 + j2 = prec ->
  SFdiv_core_binary prec emax (Zpos p1 * 2 ^ j1) (- j1) (Zpos p2 * 2 ^ j2) (- j2)
  = SFdiv_core_binary prec emax (Zpos p1) 0 (Zpos p2) 0.
Proof.
  intros Hj1 Hj2 Hd1 Hd2.
  assert (P1 : 0 < 2 ^ j1) by (apply Z.pow_pos_nonneg; lia).
  assert (P2 : 0 < 2 ^ j2) by (apply Z.pow_pos_nonneg; lia).
  pose proof (Z.log2_nonneg (Zpos p1)). pose proof (Z.log2_nonneg (Zpos p2)).
  unfold SFdiv_core_binary. cbv zeta.
  rewrite !Zdigits2_pos_log2 by nia. rewrite !Z.log2_mul_pow2 by lia.
  set (E := j2 - j1 - prec).
  repeat match goal with
  | |- context [Z.min (fexp ?p ?em ?x) ?y] =>
      replace (Z.min (fexp p em x) y) with E by (unfold E, fexp, emin, emax, prec in *; lia)
  end.
  replace (- j1 - - j2 - E) with prec by (unfold E; lia).
  replace (0 - 0 - E) with (j1 - j2 + prec) by (unfold E; lia).
  destruct (j1 - j2 + prec) eqn:Es; try (unfold prec in *; lia).
  unfold prec at 1. cbv iota. rewrite <- Es.
  rewrite !Z.shiftl_mul_pow2 by (unfold prec in *; lia).
  rewrite !div_eucl_div_mod. cbv iota beta.
  replace (Zpos p1 * 2 ^ j1 * 2 ^ prec) with ((Zpos p1 * 2 ^ (j1 - j2 + prec)) * 2 ^ j2)
    by (rewrite <- !Z.mul_assoc, <- !Z.pow_add_r by (unfold prec in *; lia); f_equal; f_equal; lia).
  rewrite Z.div_mul_cancel_r, Z.mul_mod_distr_r by lia.
  rewrite new_location_scale; [reflexivity | lia | apply Z.mod_pos_bound; lia | lia].
Qed.

Lemma size_log2 (p : positive) : Zpos (Pos.size p) = Z.log2 (Zpos p) + 1.
Proof.
  destruct p; simpl; lia.
Qed.

(** Dividing two integers of at most [prec] bits after converting them
    to binary64 is the same correctly rounded division as on the raw
    integers. *)
Lemma div_round_small (s1 : bool) (p1 p2 : positive) :
  Zpos (Pos.size p1) <= prec -> Zpos (Pos.size p2) <= prec ->
  div (binary_round prec emax s1 p1 0) (binary_round prec emax false p2 0)
  = div (S754_finite s1 p1 0) (S754_finite false p2 0).
Proof.
  intros H1 H2. rewrite !binary_round_small by assumption.
  assert (0 < 2 ^ (prec - Zpos (Pos.size p1))) by (apply Z.pow_pos_nonneg; lia).
  assert (0 < 2 ^ (prec - Zpos (Pos.size p2))) by (apply Z.pow_pos_nonneg; lia).
  unfold div, SFdiv. rewrite !Z2Pos.id by lia.
  replace (Zpos (Pos.size p1) - prec) with (- (prec - Zpos (Pos.size p1))) by lia.
  replace (Zpos (Pos.size p2) - prec) with (- (prec - Zpos (Pos.size p2))) by lia.
  pose proof (size_log2 p1). pose proof (size_log2 p2).
  rewrite div_core_scale; [reflexivity | lia ..].
Qed.

(** A valid finite float has a mantissa of at most [prec] bits. *)
Lemma valid_mantissa_bound (s : bool) (m : positive) (e : Z) :
  valid (S754_finite s m e) = true -> Zpos (Pos.size m) <= prec.
Proof.
  unfold valid, valid_binary, bounded, canonical_mantissa, fexp.
  rewrite digits2_pos_size. intros H. apply andb_prop in H as [H _].
  apply Z.eqb_eq in H. unfold emin, prec, emax in *. lia.
Qed.

End F64.
