(* ===== verification/GoMath.v ===== *)
(** * The Go [math] functions used by [round] in main.go

    [round] calls [math.Pow(10, float64(decimals))], then [math.Ceil],
    [math.Floor] or [math.Round] on [val * mult].  These are library
    functions, modelled here from what they compute:
    - [Round], [Floor], [Ceil]: the integer nearest to [x] with ties
      away from zero, the greatest integer [<= x] and the least integer
      [>= x].  A zero result keeps the sign of [x], infinities, NaN and
      values that are already integral are returned unchanged, as
      documented for Go's functions.  The three share [round_integral],
      which splits the mantissa of [x] into integer part and remainder.
    - [pow10_int d]: [math.Pow(10, float64(d))] for a Go [int] [d],
      following pow.go on an integral exponent: the special cases
      [y == 0] and [y == 1], the overflow case [yi >= 1<<63], then
      repeated squaring of the [Frexp] mantissa of 10 ([pow_loop]),
      the reciprocal for a negative exponent and a final [Ldexp].  The
      branches of pow.go for a fractional exponent, which need [Exp] and
      [Log], cannot be reached from [float64(d)] and are not modelled.

    The theorems characterise the three roundings by the integer they
    return ([round_integral_value]; [Round_bounds]: ordered, bracketing
    the argument, [Round] within half a unit and away from zero at a
    half-way point) and prove [Pow(10, d)] exact for [-22 <= d <= 22]
    and [+Inf] or [+0] far outside, by evaluation on tables. *)

From S2P Require Import Prelude Float64.
From Stdlib Require Import ZArith Lia List Floats.SpecFloat.
Import ListNotations.
Open Scope Z_scope.
Open Scope bool_scope.

Module GoMath.
Import F64.

(** ** Rounding to an integral value *)

Inductive RoundDir := NearestAway | Down | Up.

(** The integer magnitude of the rounded value of [(-1)^s * m / 2^k]. *)
Definition int_magnitude (dir : RoundDir) (s : bool) (m k : positive) : Z :=
  let '(q, r) := Z.div_eucl (Zpos m) (2 ^ Zpos k) in
  match dir with
  | NearestAway => if 2 ^ Zpos k <=? 2 * r then q + 1 else q
  | Down => if s && negb (r =? 0) then q + 1 else q
  | Up => if negb s && negb (r =? 0) then q + 1 else q
  end.

(** The float of sign [s] and integer magnitude [n]; a zero keeps [s]. *)
Definition of_int_mag (s : bool) (n : Z) : float64 :=
  match n with
  | Zpos p => binary_round prec emax s p 0
  | _ => S754_zero s
  end.

Definition round_integral (dir : RoundDir) (x : float64) : float64 :=
  match x with
  | S754_finite s m (Zneg k) => of_int_mag s (int_magnitude dir s m k)
  | _ => x
  end.

(** The signed integer of sign [s] and magnitude [n]. *)
Definition signed (s : bool) (n : Z) : Z := if s then - n else n.

(** When the magnitude is the integer part plus one: [K = 2^k] and [r] is
    the remainder of the mantissa modulo [K]. *)
Definition round_up_cond (dir : RoundDir) (s : bool) (K r : Z) : bool :=
  match dir with
  | NearestAway => K <=? 2 * r
  | Down => s && negb (r =? 0)
  | Up => negb s && negb (r =? 0)
  end.

(** [math.Round]: half away from zero. *)
Definition Round (x : float64) : float64 := round_integral NearestAway x.
(** [math.Floor]. *)
Definition Floor (x : float64) : float64 := round_integral Down x.
(** [math.Ceil]. *)
Definition Ceil (x : float64) : float64 := round_integral Up x.

(** ** [math.Pow(10, y)] on an integral [y] *)

Definition ten : float64 := of_Z 10.
Definition half : float64 := of_decimal false 5 (-1).

(** The integer part of [|x|], as [math.Modf(Abs(x))] returns it. *)
Definition abs_int_part (x : float64) : Z :=
  match x with
  | S754_finite _ m e => if 0 <=? e then Zpos m * 2 ^ e else Zpos m / 2 ^ (- e)
  | _ => 0
  end.

(** The loop of pow.go: [for i := int64(yi); i != 0; i >>= 1].  The
    fuel 64 bounds the iterations of a 64-bit [i]. *)
Fixpoint pow_loop (fuel : nat) (i : Z) (a1 : float64) (ae : Z)
         (x1 : float64) (xe : Z) : float64 * Z :=
  match fuel with
  | O => (a1, ae)
  | S fuel' =>
      if i =? 0 then (a1, ae)
      else if (xe <? - 2 ^ 12) || (2 ^ 12 <? xe) then (a1, ae + xe)
      else
        let '(a1', ae') := if Z.odd i then (mul a1 x1, ae + xe) else (a1, ae) in
        let x1' := mul x1 x1 in
        let xe' := xe * 2 in
        let '(x1'', xe'') := if ltb x1' half then (add x1' x1', xe' - 1) else (x1', xe') in
        pow_loop fuel' (Z.shiftr i 1) a1' ae' x1'' xe''
  end.

Definition pow10_int (d : Z) : float64 :=
  let y := of_Z d in
  if eqb y zero then one
  else if eqb y one then ten
  else
    let yi := abs_int_part y in
    if 2 ^ 63 <=? yi then (if ltb zero y then S754_infinity false else zero)
    else
      let '(x1, xe) := frexp ten in
      let '(a1, ae) := pow_loop 64 yi one 0 x1 xe in
      let '(a1', ae') := if ltb y zero then (div one a1, - ae) else (a1, ae) in
      ldexp a1' ae'.

(** ** Rounding to an integral value: the integer returned *)

Lemma of_int_mag_value (s : bool) (n : Z) :
  0 <= n -> Z.log2 n < prec ->
  is_int_value (of_int_mag s n) (if s then - n else n).
Proof.
  intros Hn Hl. unfold of_int_mag. destruct n as [|p|p]; try lia.
  - unfold is_int_value. simpl. destruct s; reflexivity.
  - pose proof (size_log2 p). rewrite binary_round_small by lia.
    unfold is_int_value, to_mant_exp.
    assert (0 < 2 ^ (prec - Zpos (Pos.size p))) by (apply Z.pow_pos_nonneg; lia).
    rewrite Z2Pos.id by lia.
    destruct (Z.leb_spec 0 (Zpos (Pos.size p) - prec)).
    + assert (Zpos (Pos.size p) = prec) by lia.
      replace (prec - Zpos (Pos.size p)) with 0 by lia.
      replace (Zpos (Pos.size p) - prec) with 0 by lia. destruct s; simpl; lia.
    + replace (- (Zpos (Pos.size p) - prec)) with (prec - Zpos (Pos.size p)) by lia.
      destruct s; simpl; lia.
Qed.

Lemma int_magnitude_eq (dir : RoundDir) (s : bool) (m k : positive) :
  int_magnitude dir s m k =
  Zpos m / 2 ^ Zpos k + (if round_up_cond dir s (2 ^ Zpos k) (Zpos m mod 2 ^ Zpos k) then 1 else 0).
Proof.
  unfold int_magnitude. rewrite div_eucl_div_mod.
  destruct dir; simpl; destruct_ifs; lia.
Qed.

Lemma int_magnitude_bound (dir : RoundDir) (s : bool) (m k : positive) :
  Zpos (Pos.size m) <= prec -> 0 <= int_magnitude dir s m k /\ Z.log2 (int_magnitude dir s m k) < prec.
Proof.
  intros Hm. rewrite int_magnitude_eq. pose proof (size_log2 m).
  assert (HK : 2 <= 2 ^ Zpos k) by (change 2 with (2 ^ 1) at 1; apply Z.pow_le_mono_r; lia).
  assert (Hq : 0 <= Zpos m / 2 ^ Zpos k <= Zpos m / 2) by
    (split; [apply Z.div_pos; lia | apply Z.div_le_compat_l; lia]).
  assert (Hm2 : Zpos m < 2 ^ prec).
  { apply Z.log2_lt_pow2; lia. }
  assert (Zpos m / 2 < 2 ^ (prec - 1)).
  { apply Z.div_lt_upper_bound; [lia|]. rewrite <- Z.pow_succ_r by (unfold prec; lia).
    replace (Z.succ (prec - 1)) with prec by lia. lia. }
  split; [destruct_ifs; lia|].
  destruct (Z.eq_dec (Zpos m / 2 ^ Zpos k + (if round_up_cond dir s (2 ^ Zpos k) (Zpos m mod 2 ^ Zpos k) then 1 else 0)) 0) as [->|Hne].
  - simpl. unfold prec. lia.
  - apply Z.log2_lt_pow2; [destruct_ifs; lia|].
    assert (2 ^ (prec - 1) < 2 ^ prec) by (apply Z.pow_lt_mono_r; unfold prec; lia).
    destruct_ifs; lia.
Qed.

Lemma round_integral_value (dir : RoundDir) (s : bool) (m k : positive) :
  valid (S754_finite s m (Zneg k)) = true ->
  is_int_value (round_integral dir (S754_finite s m (Zneg k))) (signed s (int_magnitude dir s m k)).
Proof.
  intros Hv. apply valid_mantissa_bound in Hv.
  destruct (int_magnitude_bound dir s m k Hv).
  apply of_int_mag_value; assumption.
Qed.

(** C13: [Floor], [Round] and [Ceil] of a valid float with a fractional part
    are the integers [floor(M / K)], [round(M / K)] (half away from
    zero) and [ceil(M / K)] of its exact value [M / K]: they are
    ordered, the first and last bracket [M / K] one apart, the rounded
    one is within half a unit, and at a half-way point it is the one
    away from zero. *)
Lemma Round_bounds (s : bool) (m k : positive) :
  let x := S754_finite s m (Zneg k) in
  let M := signed s (Zpos m) in
  let K := 2 ^ Zpos k in
  valid x = true ->
  exists nf nr nc,
    is_int_value (Floor x) nf /\ is_int_value (Round x) nr /\ is_int_value (Ceil x) nc /\
    nf * K <= M <= nc * K /\ nc - nf <= 1 /\ nf <= nr <= nc /\
    Z.abs (2 * (nr * K - M)) <= K /\ (Z.abs (2 * (nr * K - M)) = K -> Z.abs M < Z.abs (nr * K)).
Proof.
  intros x M K Hv.
  exists (signed s (int_magnitude Down s m k)), (signed s (int_magnitude NearestAway s m k)),
         (signed s (int_magnitude Up s m k)).
  split; [apply round_integral_value; assumption|].
  split; [apply round_integral_value; assumption|].
  split; [apply round_integral_value; assumption|].
  rewrite !int_magnitude_eq. unfold M, K, signed. clear Hv x M.
  assert (HK : 0 < 2 ^ Zpos k) by (apply Z.pow_pos_nonneg; lia).
  pose proof (Z.div_mod (Zpos m) (2 ^ Zpos k) ltac:(lia)).
  pose proof (Z.mod_pos_bound (Zpos m) (2 ^ Zpos k) HK).
  set (q := Zpos m / 2 ^ Zpos k) in *. set (r := Zpos m mod 2 ^ Zpos k) in *.
  destruct s; simpl;
    destruct (Z.leb_spec (2 ^ Zpos k) (2 * r)); destruct (Z.eqb_spec r 0); simpl; nia.
Qed.

(** ** [math.Pow(10, d)] *)

Lemma pow10_table :
  Forall (fun d => pow10_int d = of_decimal false 1 d) (map (fun i => Z.of_nat i - 22) (seq 0 45)).
Proof. repeat (apply Forall_cons; [vm_compute; reflexivity|]). apply Forall_nil. Qed.

(** C14: [math.Pow(10, d)] is the binary64 nearest to [10^d] for
    [-22 <= d <= 22]: the decimal scale factors of [round] are exact
    (positive [d]) or correctly rounded (negative [d]). *)
Lemma pow10_exact (d : Z) : -22 <= d <= 22 -> pow10_int d = of_decimal false 1 d.
Proof.
  intros Hd. pose proof pow10_table as T. rewrite Forall_forall in T. apply T.
  apply in_map_iff. exists (Z.to_nat (d + 22)). split; [lia|]. apply in_seq. lia.
Qed.

(** [+Inf] and [+0]: what [math.Pow(10, d)] returns out of range. *)
Definition is_pos_inf (x : float64) : bool :=
  match x with S754_infinity false => true | _ => false end.
Definition is_pos_zero (x : float64) : bool :=
  match x with S754_zero false => true | _ => false end.

Lemma pow10_out_of_range_table :
  forallb (fun i => is_pos_inf (pow10_int (309 + Z.of_nat i))) (seq 0 1692) &&
  forallb (fun i => is_pos_zero (pow10_int (-324 - Z.of_nat i))) (seq 0 1677) = true.
Proof. vm_compute. reflexivity. Qed.

(** [math.Pow(10, d)] overflows to [+Inf] for [309 <= d <= 2000] and
    underflows to [+0] for [-2000 <= d <= -324]. *)
Lemma pow10_out_of_range (d : Z) :
  (309 <= d <= 2000 -> pow10_int d = S754_infinity false) /\
  (-2000 <= d <= -324 -> pow10_int d = S754_zero false).
Proof.
  pose proof pow10_out_of_range_table as T. apply andb_prop in T as [T1 T2].
  rewrite forallb_forall in T1, T2. split; intros Hd.
  - specialize (T1 (Z.to_nat (d - 309)) ltac:(apply in_seq; lia)).
    rewrite Z2Nat.id in T1 by lia. replace (309 + (d - 309)) with d in T1 by lia.
    destruct (pow10_int d) as [| [|] | |]; try discriminate; reflexivity.
  - specialize (T2 (Z.to_nat (-324 - d)) ltac:(apply in_seq; lia)).
    rewrite Z2Nat.id in T2 by lia. replace (-324 - (-324 - d)) with d in T2 by lia.
    destruct (pow10_int d) as [[|] | | |]; try discriminate; reflexivity.
Qed.

Lemma pow10_exact_witness : -22 <= 2 <= 22 /\ pow10_int 2 = of_decimal false 1 2.
Proof. split; [lia | apply pow10_exact; lia]. Defined.

(** [2.5 = 5629499534213120 * 2^-51]: [Floor], [Round], [Ceil] give 2, 3, 3. *)
Lemma Round_bounds_witness :
  valid (S754_finite false 5629499534213120%positive (-51)) = true /\
  (exists nf nr nc,
    is_int_value (Floor (S754_finite false 5629499534213120%positive (-51))) nf /\
    is_int_value (Round (S754_finite false 5629499534213120%positive (-51))) nr /\
    is_int_value (Ceil (S754_finite false 5629499534213120%positive (-51))) nc /\
    nf * 2 ^ 51 <= signed false 5629499534213120 <= nc * 2 ^ 51 /\ nc - nf <= 1 /\
    nf <= nr <= nc /\ Z.abs (2 * (nr * 2 ^ 51 - signed false 5629499534213120)) <= 2 ^ 51 /\
    (Z.abs (2 * (nr * 2 ^ 51 - signed false 5629499534213120)) = 2 ^ 51 ->
     Z.abs (signed false 5629499534213120) < Z.abs (nr * 2 ^ 51))).
Proof. split; [reflexivity | apply (Round_bounds false 5629499534213120 51); reflexivity]. Defined.

End GoMath.
