(* ===== verification/Rounding.v ===== *)
(** * The rounding helper and the Celsius conversion of main.go

    [round(val, decimals, mode)] (main.go lines 84-94) scales [val] by
    [mult := math.Pow(10, float64(decimals))], rounds the product to an
    integral float with [math.Ceil], [math.Floor] or [math.Round]
    according to [mode], and divides by [mult] again; every value is a
    [float64], so each of [*] and [/] rounds to binary64.  The driver
    loop converts a reading with [temperature.Temp - 273.15] (line 77),
    where the constant [273.15] is first rounded to [float64], and logs
    [round(tempC, 2, "round")] (line 79); [celsius_round] is that
    composition.

    Theorems: in the mode [main] passes, and in every mode but "ceil"
    and "floor", the value logged is the binary64 nearest to the
    decimal [n / 100] for the integer [n] that [math.Round] picks
    ([round_two_decimals]); [round] is NaN when [math.Pow] overflows or
    underflows ([round_out_of_range_nan]).  Two examples evaluate the
    spec's sample values in binary64 ([celsius_round_samples]) and show
    that the code does not round the exact decimal [k - 273.15] half
    away from zero, as the spec states, because [k], [273.15] and the
    product [tempC * 100] are each rounded to binary64 first
    ([celsius_round_not_decimal]). *)

From S2P Require Import Prelude Float64 GoMath.
From Stdlib Require Import ZArith Lia String Floats.SpecFloat.
Open Scope Z_scope.

Module Rounding.
Import F64 GoMath.

(** [round] (lines 84-94): [mult := math.Pow(10, float64(decimals))],
    then the [switch mode] with its [default] case. *)
Definition round (val : float64) (decimals : Z) (mode : string) : float64 :=
  let mult := pow10_int decimals in
  if String.eqb mode "ceil" then div (Ceil (mul val mult)) mult
  else if String.eqb mode "floor" then div (Floor (mul val mult)) mult
  else div (Round (mul val mult)) mult.

(** The untyped constant [273.15] converted to [float64]. *)
Definition kelvin_offset : float64 := of_decimal false 27315 (-2).

(** [tempC := temperature.Temp - 273.15] (line 77). *)
Definition to_celsius (temp : float64) : float64 := sub temp kelvin_offset.

(** The value logged for a reading (lines 77-79). *)
Definition celsius_round (temp : float64) : float64 :=
  round (to_celsius temp) 2 "round".

(** What the spec states: the exact decimal [k - 273.15] rounded half
    away from zero to two decimals, for a reading given as the decimal
    [m * 10^e] ([e <= 0]), as the binary64 of that two-decimal number. *)
Definition spec_celsius_round (m : Z) (e : Z) : float64 :=
  let den := 10 ^ (- e) in
  let num := 100 * m - 27315 * den in
  let n := (2 * Z.abs num + den) / (2 * den) in
  of_decimal (num <? 0) (Z.to_N n) (-2).

(** ** Theorems *)

(** The values of the spec's section 8 hold for the code in binary64:
    273.15 K logs 0 (a positive zero), 300.00 K logs 26.85 and 0 K logs
    -273.15, each the binary64 of the two-decimal number, and each the
    value the spec's exact decimal rounding gives. *)
Example celsius_round_samples :
  celsius_round (of_decimal false 27315 (-2)) = of_decimal false 0 (-2) /\
  celsius_round (of_decimal false 30000 (-2)) = of_decimal false 2685 (-2) /\
  celsius_round (of_decimal false 0 (-2)) = of_decimal true 27315 (-2) /\
  spec_celsius_round 27315 (-2) = of_decimal false 0 (-2) /\
  spec_celsius_round 30000 (-2) = of_decimal false 2685 (-2) /\
  spec_celsius_round 0 (-2) = of_decimal true 27315 (-2).
Proof. repeat split; vm_compute; reflexivity. Qed.

(** The code is not the spec's rounding.  For the reading 273.215 K
    the exact Celsius value is 0.065, which rounds half away from zero to
    0.07; the code logs 0.06, because [273.215 - 273.15] in binary64 is
    slightly below 0.065. *)
Example celsius_round_not_decimal :
  celsius_round (of_decimal false 273215 (-3)) = of_decimal false 6 (-2) /\
  spec_celsius_round 273215 (-3) = of_decimal false 7 (-2) /\
  celsius_round (of_decimal false 273215 (-3)) <> spec_celsius_round 273215 (-3).
Proof.
  split; [vm_compute; reflexivity|]. split; [vm_compute; reflexivity|].
  vm_compute. discriminate.
Qed.

Lemma pow10_two : pow10_int 2 = binary_round prec emax false 100 0.
Proof. vm_compute. reflexivity. Qed.

(** C5: rounding to two decimals in the mode [main] passes, or in any
    mode other than "ceil" and "floor" (Go's [switch] has no other case,
    so a misspelt or differently cased mode also rounds), yields the
    binary64 nearest to the decimal [n / 100], where [n] is the integer
    [math.Round] returns for [val * 100] (half away from zero, for a
    product with a fractional part), so the logged value prints as that
    two-decimal number.  Its sign is the sign of the product, also when
    [n = 0]. *)
Theorem round_two_decimals (val : float64) (mode : string) (s : bool) (m k : positive) :
  mode <> "ceil"%string -> mode <> "floor"%string ->
  mul val (pow10_int 2) = S754_finite s m (Zneg k) ->
  valid (S754_finite s m (Zneg k)) = true ->
  round val 2 mode = of_decimal s (Z.to_N (int_magnitude NearestAway s m k)) (-2).
Proof.
  intros Hc Hf Hmul Hv. unfold round.
  destruct (String.eqb_spec mode "ceil"); [contradiction|].
  destruct (String.eqb_spec mode "floor"); [contradiction|].
  rewrite Hmul, pow10_two.
  destruct (int_magnitude_bound NearestAway s m k (valid_mantissa_bound _ _ _ Hv)) as [H0 Hl].
  unfold Round, round_integral, of_int_mag.
  destruct (int_magnitude NearestAway s m k) as [|p|p] eqn:E; try lia.
  - unfold div. simpl. destruct s; reflexivity.
  - rewrite div_round_small.
    + reflexivity.
    + rewrite size_log2. lia.
    + unfold prec. simpl. lia.
Qed.

(** At 300 K, the conversion of the loop, in the mode [main] passes. *)
Lemma round_two_decimals_witness :
  "round"%string <> "ceil"%string /\ "round"%string <> "floor"%string /\
  mul (to_celsius (of_decimal false 30000 (-2))) (pow10_int 2) =
    S754_finite false 5904377441157125 (Zneg 41) /\
  valid (S754_finite false 5904377441157125 (Zneg 41)) = true /\
  round (to_celsius (of_decimal false 30000 (-2))) 2 "round" =
    of_decimal false (Z.to_N (int_magnitude NearestAway false 5904377441157125 41)) (-2).
Proof.
  assert (H1 : "round"%string <> "ceil"%string) by discriminate.
  assert (H2 : "round"%string <> "floor"%string) by discriminate.
  assert (H3 : mul (to_celsius (of_decimal false 30000 (-2))) (pow10_int 2) =
               S754_finite false 5904377441157125 (Zneg 41)) by (vm_compute; reflexivity).
  split; [exact H1|]. split; [exact H2|]. split; [exact H3|]. split; [reflexivity|].
  apply round_two_decimals; [exact H1 | exact H2 | exact H3 | reflexivity].
Defined.

(** When the scale factor is [+Inf] or [+0] every branch computes
    [R(val * mult) / mult] with [R(x) = x] on the result, an [Inf / Inf],
    [0 / 0] or NaN quotient. *)
Lemma round_degenerate_mult (val : float64) (d : Z) (mode : string) :
  pow10_int d = S754_infinity false \/ pow10_int d = S754_zero false ->
  round val d mode = S754_nan.
Proof.
  intros Hm. unfold round.
  destruct Hm as [E|E]; rewrite E;
    destruct val as [[|]|[|]| |[|] m e];
    destruct (String.eqb mode "ceil"), (String.eqb mode "floor"); reflexivity.
Qed.

(** C18: [round] overflows.  For [309 <= decimals <= 2000]
    [math.Pow(10, decimals)] is [+Inf], for [-2000 <= decimals <= -324]
    it is [+0], and then [round] returns NaN for every value and every
    mode, zero included. *)
Theorem round_out_of_range_nan (val : float64) (decimals : Z) (mode : string) :
  (309 <= decimals <= 2000 \/ -2000 <= decimals <= -324) ->
  round val decimals mode = S754_nan.
Proof.
  intros Hd. apply round_degenerate_mult.
  destruct (pow10_out_of_range decimals) as [Hi Hz].
  destruct Hd as [Hd|Hd]; [left; apply Hi | right; apply Hz]; exact Hd.
Qed.

Lemma round_out_of_range_nan_witness :
  (309 <= 400 <= 2000 \/ -2000 <= 400 <= -324) /\
  round (of_decimal false 2685 (-2)) 400 "round" = S754_nan.
Proof. split; [left; lia | apply round_out_of_range_nan; left; lia]. Defined.

End Rounding.
