(* ===== verification/Json.v ===== *)
(** * JSON values and their decoding into [WeatherResponse]

    main.go declares the shape it expects from the weather service
    (lines 15-21):
<<
    type Temperature struct { Temp float64 `json:"temp"` }
    type WeatherResponse struct { Main Temperature `json:"main"` }
>>
    and decodes the response body into a zero [WeatherResponse] with
    [json.NewDecoder(resp.Body).Decode(&weatherResponse)] (line 36).
    This file models what [encoding/json] does for these two types:
    - an object key selects a field when it equals the field's tag name,
      or failing that when the two fold to the same text: Go 1.21+
      ([log/slog] needs it) folds ASCII letters to upper case and any
      other rune [r] to [unicode.ToUpper(unicode.ToLower(r))], so that
      U+0130 and U+0131 fold to [I]; keys that select no field are
      skipped;
    - [null] leaves the field as it is;
    - a value of the wrong kind records an [UnmarshalTypeError] (the
      first one is kept) and decoding goes on with the next key; the
      saved error is what [Decode] returns;
    - a number is converted with [strconv.ParseFloat]; a number out of
      the range of [float64] is a type error;
    - repeated keys are decoded in order into the same value, so a later
      key overwrites the earlier one and a later ["main"] object updates
      the [Temperature] in place instead of resetting it.
    Numbers keep their literal text, as the decoder does; [number_value]
    reads it as a decimal.

    The abstract reading the spec describes, "the number at [main.temp]",
    is [spec_main_temp]; the theorems show where the decoder agrees with
    it and where it succeeds although the spec expects a [DecodeError],
    and which keys select [Main]. *)

From S2P Require Import Prelude Utf8 Float64.
From stdpp Require Import base list strings.
From Stdlib Require Import ZArith Lia String Ascii Floats.SpecFloat.
Open Scope Z_scope.

Module Json.
Import F64.

(** ** JSON values *)

#[warnings="-register-all"]
Inductive json : Type :=
| JNull
| JBool (b : bool)
| JNumber (lit : string)
| JString (s : string)
| JArray (items : list json)
| JObject (members : list (string * json)).

(** ** The Go types of main.go (lines 15-21) *)

Record Temperature := mkTemperature { Temp : float64 }.
Record WeatherResponse := mkWeatherResponse { Main : Temperature }.

(** [WeatherResponse{}]: every field is zero. *)
Definition zero_WeatherResponse : WeatherResponse :=
  mkWeatherResponse (mkTemperature zero).

(** ** Decoding errors *)

(** [*json.UnmarshalTypeError]: the JSON kind found, the Go type
    expected, and the struct and field path when inside a struct. *)
Record UnmarshalTypeError := mkUnmarshalTypeError {
  ute_value : string;
  ute_type : string;
  ute_struct : string;
  ute_field : string
}.

Inductive DecodeError :=
| TypeError (e : UnmarshalTypeError)
| SyntaxError (msg : string) (offset : Z)
| EOF
| UnexpectedEOF.

Definition error_string (e : DecodeError) : string :=
  match e with
  | TypeError u =>
      if String.eqb (ute_field u) "" then
        "json: cannot unmarshal " ++ ute_value u ++ " into Go value of type " ++ ute_type u
      else
        "json: cannot unmarshal " ++ ute_value u ++ " into Go struct field " ++
        ute_struct u ++ "." ++ ute_field u ++ " of type " ++ ute_type u
  | SyntaxError msg _ => msg
  | EOF => "EOF"
  | UnexpectedEOF => "unexpected EOF"
  end.

(** [d.saveError]: only the first error is kept. *)
Definition save_error (e : DecodeError) (saved : option DecodeError) : option DecodeError :=
  match saved with
  | None => Some e
  | Some _ => saved
  end.

(** The kind Go names in a type error for a value that does not fit. *)
Definition kind_name (j : json) : string :=
  match j with
  | JNull => "null"
  | JBool _ => "bool"
  | JNumber _ => "number"
  | JString _ => "string"
  | JArray _ => "array"
  | JObject _ => "object"
  end.

(** ** Field matching *)

(** Case folding of an ASCII key byte: [a]-[z] become [A]-[Z]. *)
Definition fold_ascii (c : ascii) : ascii :=
  if (97 <=? Utf8.code c) && (Utf8.code c <=? 122) then Utf8.byte (Utf8.code c - 32) else c.

(** [unicode.ToUpper(unicode.ToLower(r))] for a rune of two bytes or
    more.  Exact for every rune up to U+00FF and for the four runes whose
    fold is an ASCII letter (U+0130 and U+0131 fold to [I], U+017F to
    [S], the Kelvin sign U+212A to [K]); any other rune is kept, where
    Go's case tables may give another rune, never an ASCII one.  Only
    ASCII tag names are compared with folded keys, so which keys select
    a field is exact. *)
Definition to_upper_lower (r : Z) : Z :=
  if (r =? 304) || (r =? 305) then 73
  else if r =? 383 then 83
  else if r =? 8490 then 75
  else if r =? 181 then 924
  else if r =? 255 then 376
  else if (224 <=? r) && (r <=? 254) && negb (r =? 247) then r - 32
  else r.

(** [appendFoldedName] (Go 1.21 [encoding/json], fold.go): an ASCII
    byte is upper-cased; any other rune is read with [utf8.DecodeRune]
    and written back with [utf8.AppendRune] folded.  The loop runs on
    fuel, the length of the input, since every round consumes at least
    one byte. *)
Fixpoint append_folded (fuel : nat) (s : string) : string :=
  match fuel, s with
  | O, _ => EmptyString
  | _, EmptyString => EmptyString
  | S fuel', String c s' =>
      if Utf8.code c <? Utf8.RuneSelf then String (fold_ascii c) (append_folded fuel' s')
      else let '(r, n) := Utf8.decode_rune s in
           (Utf8.utf8 (to_upper_lower r) ++ append_folded fuel' (Utf8.str_drop n s))%string
  end.

(** [foldName]: the key of [byFoldedName]. *)
Definition fold_name (s : string) : string := append_folded (String.length s) s.

(** The key selects the field tagged [name]: exact match first, then the
    folded match. *)
Definition field_matches (name key : string) : bool :=
  String.eqb key name || String.eqb (fold_name key) (fold_name name).

(** ** Numbers *)

Definition digit_value (c : ascii) : option N :=
  let n := nat_of_ascii c in
  if (48 <=? n)%nat && (n <=? 57)%nat then Some (N.of_nat (n - 48)) else None.

(** Digits read into [acc]; returns the value, the count and the rest. *)
Fixpoint read_digits (s : string) (acc : N) (cnt : Z) : N * Z * string :=
  match s with
  | String c s' =>
      match digit_value c with
      | Some d => read_digits s' (acc * 10 + d)%N (cnt + 1)
      | None => (acc, cnt, s)
      end
  | EmptyString => (acc, cnt, s)
  end.

(** A JSON number literal [-?int(.frac)?([eE][+-]?exp)?] as sign,
    decimal mantissa and exponent: its value is [(-1)^neg * m * 10^e]. *)
Definition number_value (lit : string) : bool * N * Z :=
  let '(neg, s1) := match lit with String "-" s => (true, s) | _ => (false, lit) end in
  let '(ip, _, s2) := read_digits s1 0 0 in
  let '(mant, nfrac, s3) :=
    match s2 with
    | String "." s => read_digits s ip 0
    | _ => (ip, 0, s2)
    end in
  let '(eneg, s4) :=
    match s3 with
    | String ("e" | "E") (String "-" s) => (true, s)
    | String ("e" | "E") (String "+" s) => (false, s)
    | String ("e" | "E") s => (false, s)
    | _ => (false, EmptyString)
    end in
  let '(ev, _, _) := read_digits s4 0 0 in
  (neg, mant, (if eneg then - Z.of_N ev else Z.of_N ev) - nfrac).

(** [strconv.ParseFloat(lit, 64)]: the nearest [float64]; out of range
    it returns an infinity with an error, which the decoder turns into
    a type error. *)
Definition parse_float (lit : string) : option float64 :=
  let '(neg, m, e) := number_value lit in
  let f := of_decimal neg m e in
  if is_finite f then Some f else None.

(** ** Decoding into the structs of main.go *)

(** The field [Temp float64] (tag "temp"), reached as [main.temp]. *)
Definition decode_Temp (j : json) (cur : float64) (saved : option DecodeError)
  : float64 * option DecodeError :=
  match j with
  | JNull => (cur, saved)
  | JNumber lit =>
      match parse_float lit with
      | Some f => (f, saved)
      | None =>
          (cur, save_error (TypeError (mkUnmarshalTypeError
                  ("number " ++ lit) "float64" "Temperature" "main.temp")) saved)
      end
  | _ =>
      (cur, save_error (TypeError (mkUnmarshalTypeError
              (kind_name j) "float64" "Temperature" "main.temp")) saved)
  end.

(** One member of a [Temperature] object. *)
Definition Temperature_member (acc : Temperature * option DecodeError) (kv : string * json)
  : Temperature * option DecodeError :=
  let '(t, saved) := acc in
  if field_matches "temp" kv.1 then
    let '(f, saved') := decode_Temp kv.2 (Temp t) saved in (mkTemperature f, saved')
  else (t, saved).

(** The field [Main Temperature] (tag "main"), decoded in place. *)
Definition decode_Temperature (j : json) (t : Temperature) (saved : option DecodeError)
  : Temperature * option DecodeError :=
  match j with
  | JNull => (t, saved)
  | JObject members => fold_left Temperature_member members (t, saved)
  | _ =>
      (t, save_error (TypeError (mkUnmarshalTypeError
             (kind_name j) "main.Temperature" "WeatherResponse" "main")) saved)
  end.

(** One member of the top-level object. *)
Definition WeatherResponse_member (acc : WeatherResponse * option DecodeError) (kv : string * json)
  : WeatherResponse * option DecodeError :=
  let '(w, saved) := acc in
  if field_matches "main" kv.1 then
    let '(t, saved') := decode_Temperature kv.2 (Main w) saved in (mkWeatherResponse t, saved')
  else (w, saved).

Definition decode_WeatherResponse (j : json) (w : WeatherResponse) (saved : option DecodeError)
  : WeatherResponse * option DecodeError :=
  match j with
  | JNull => (w, saved)
  | JObject members => fold_left WeatherResponse_member members (w, saved)
  | _ =>
      (w, save_error (TypeError (mkUnmarshalTypeError
             (kind_name j) "main.WeatherResponse" "" "")) saved)
  end.

(** [d.unmarshal(&weatherResponse)] on a scanned value: the value as
    decoded in place, and the saved error that [Decode] returns. *)
Definition unmarshal (j : json) (w : WeatherResponse) : WeatherResponse * option DecodeError :=
  decode_WeatherResponse j w None.

(** ** The spec's reading of the body *)

Fixpoint lookup_member (k : string) (ms : list (string * json)) : option json :=
  match ms with
  | [] => None
  | (k', v) :: ms' => if String.eqb k k' then Some v else lookup_member k ms'
  end.

(** "Decode a JSON object of shape [{ "main": { "temp": <number> } }]
    and return the number; a body that lacks [main.temp] or does not
    have that shape is a [DecodeError]" (spec section 4.1). *)
Definition spec_main_temp (j : json) : option float64 :=
  match j with
  | JObject ms =>
      match lookup_member "main" ms with
      | Some (JObject ms') =>
          match lookup_member "temp" ms' with
          | Some (JNumber lit) => parse_float lit
          | _ => None
          end
      | _ => None
      end
  | _ => None
  end.

(** ** Lemmas *)

Definition selects (name : string) (kv : string * json) : bool := field_matches name kv.1.

Lemma Temperature_member_skip (acc : Temperature * option DecodeError) (kv : string * json) :
  selects "temp" kv = false -> Temperature_member acc kv = acc.
Proof. destruct acc. unfold Temperature_member, selects. intros ->. reflexivity. Qed.

Lemma WeatherResponse_member_skip (acc : WeatherResponse * option DecodeError) (kv : string * json) :
  selects "main" kv = false -> WeatherResponse_member acc kv = acc.
Proof. destruct acc. unfold WeatherResponse_member, selects. intros ->. reflexivity. Qed.

(** Only the members that select a field matter. *)
Lemma decode_Temperature_filter (ms : list (string * json)) t saved :
  decode_Temperature (JObject ms) t saved =
  fold_left Temperature_member (List.filter (selects "temp") ms) (t, saved).
Proof. apply fold_left_filter_skip. intros. apply Temperature_member_skip. assumption. Qed.

Lemma decode_WeatherResponse_filter (ms : list (string * json)) w saved :
  decode_WeatherResponse (JObject ms) w saved =
  fold_left WeatherResponse_member (List.filter (selects "main") ms) (w, saved).
Proof. apply fold_left_filter_skip. intros. apply WeatherResponse_member_skip. assumption. Qed.

Lemma lookup_member_filter (k : string) (v : json) (ms : list (string * json)) :
  List.filter (selects k) ms = [(k, v)] -> lookup_member k ms = Some v.
Proof.
  induction ms as [|[k' v'] ms IH]; intros H; [discriminate|].
  simpl in H. unfold selects in H at 1. unfold field_matches in H at 1. simpl in H.
  simpl. destruct (String.eqb_spec k k') as [<-|Hne].
  - rewrite String.eqb_refl in H. simpl in H. inversion H. reflexivity.
  - destruct (String.eqb_spec k' k); [congruence|]. simpl in H.
    destruct (String.eqb (fold_name k') (fold_name k)); [|apply IH; exact H].
    inversion H. congruence.
Qed.

(** *** Folded keys *)

Lemma append_folded_fuel (f g : nat) (s : string) :
  (String.length s <= f)%nat -> (String.length s <= g)%nat -> append_folded f s = append_folded g s.
Proof.
  revert g s. induction f as [|f IH]; intros g s Hf Hg.
  - destruct s; [destruct g; reflexivity|simpl in Hf; lia].
  - destruct s as [|c s']; [destruct g; reflexivity|].
    destruct g as [|g]; [simpl in Hg; lia|]. cbn [append_folded].
    destruct (Utf8.code c <? Utf8.RuneSelf).
    + simpl in Hf, Hg. f_equal. apply IH; lia.
    + destruct (Utf8.decode_rune (String c s')) as [r n] eqn:D.
      pose proof (Utf8.decode_rune_width (String c s') ltac:(discriminate)) as Hw. rewrite D in Hw. simpl in Hw.
      pose proof (Utf8.str_drop_length n (String c s')). simpl in *. f_equal. apply IH; lia.
Qed.

Lemma append_folded_enough (f : nat) (s : string) :
  (String.length s <= f)%nat -> append_folded f s = fold_name s.
Proof. intros H. apply append_folded_fuel; [exact H|lia]. Qed.

Lemma fold_name_ascii (c : ascii) (s : string) :
  Utf8.code c < 128 -> fold_name (String c s) = String (fold_ascii c) (fold_name s).
Proof.
  intros Hc. unfold fold_name at 1. cbn [String.length append_folded]. unfold Utf8.RuneSelf.
  rewrite (proj2 (Z.ltb_lt _ _) Hc). reflexivity.
Qed.

Lemma fold_name_multi (c : ascii) (s : string) (r : Z) (n : nat) :
  128 <= Utf8.code c -> Utf8.decode_rune (String c s) = (r, n) ->
  fold_name (String c s) = (Utf8.utf8 (to_upper_lower r) ++ fold_name (Utf8.str_drop n (String c s)))%string.
Proof.
  intros Hc D. unfold fold_name at 1. cbn [String.length append_folded]. unfold Utf8.RuneSelf.
  rewrite (proj2 (Z.ltb_ge _ _) Hc), D. f_equal. apply append_folded_enough.
  pose proof (Utf8.decode_rune_width (String c s) ltac:(discriminate)) as Hw. rewrite D in Hw. simpl in Hw.
  pose proof (Utf8.str_drop_length n (String c s)). simpl in *. lia.
Qed.

(** The folds of a rune of two bytes or more that are ASCII. *)
Lemma to_upper_lower_low (r : Z) :
  128 <= r -> to_upper_lower r < 128 ->
  ((r = 304 \/ r = 305) /\ to_upper_lower r = 73) \/ (r = 383 /\ to_upper_lower r = 83) \/
  (r = 8490 /\ to_upper_lower r = 75).
Proof. intros H1. unfold to_upper_lower. Utf8.zcases; cbn [orb andb negb]; Utf8.zcases; lia. Qed.

Lemma to_upper_lower_bound (r : Z) : 0 <= r < 1114112 -> 0 <= to_upper_lower r < 1114112.
Proof. intros H. unfold to_upper_lower. Utf8.zcases; cbn [orb andb negb]; Utf8.zcases; lia. Qed.

(** [utf8.EncodeRune] of a rune of 128 or more starts with a lead byte. *)
Lemma utf8_lead (u : Z) : 128 <= u < 1114112 -> exists b t, Utf8.utf8 u = String b t /\ 192 <= Utf8.code b.
Proof.
  intros H. unfold Utf8.utf8. Utf8.zcases; eexists _, _; (split; [reflexivity|]);
    [pose proof (Z.div_mod u 64 ltac:(lia)); pose proof (Z.mod_pos_bound u 64 ltac:(lia))
    |pose proof (Z.div_mod u 4096 ltac:(lia)); pose proof (Z.mod_pos_bound u 4096 ltac:(lia))
    |pose proof (Z.div_mod u 262144 ltac:(lia)); pose proof (Z.mod_pos_bound u 262144 ltac:(lia))];
    rewrite Utf8.code_byte; lia.
Qed.

(** The first byte of a folded key, and where it comes from. *)
Lemma fold_name_head (k t : string) (x : ascii) :
  fold_name k = String x t -> Utf8.code x < 128 ->
  (exists c k', k = String c k' /\ Utf8.code c < 128 /\ fold_ascii c = x /\ fold_name k' = t) \/
  (exists r n, Utf8.decode_rune k = (r, n) /\ 128 <= r /\ to_upper_lower r = Utf8.code x /\
               fold_name (Utf8.str_drop n k) = t).
Proof.
  intros H Hx. destruct k as [|c k']; [discriminate|].
  destruct (Z.lt_ge_cases (Utf8.code c) 128) as [Hc|Hc].
  - left. rewrite fold_name_ascii in H by exact Hc. injection H as <- <-. exists c, k'. auto.
  - right. destruct (Utf8.decode_rune (String c k')) as [r n] eqn:D.
    pose proof (Utf8.decode_rune_bound (String c k')) as Hb. rewrite D in Hb. simpl in Hb.
    assert (Hr : 128 <= r)
      by (destruct (Utf8.decode_rune_multi c k' r n Hc D) as [[-> _]|[(? & ? & _ & _ & ? & _)|[[_ ?]|[_ ?]]]];
          unfold Utf8.RuneError; lia).
    rewrite (fold_name_multi c k' r n Hc D) in H. exists r, n. repeat split; try assumption.
    + destruct (Z.lt_ge_cases (to_upper_lower r) 128) as [Hl|Hl].
      * pose proof (to_upper_lower_bound r Hb). unfold Utf8.utf8 in H. rewrite (proj2 (Z.ltb_lt _ _) Hl) in H.
        injection H as <- _. rewrite Utf8.code_byte; lia.
      * destruct (utf8_lead (to_upper_lower r) ltac:(pose proof (to_upper_lower_bound r Hb); lia))
          as (b & t' & E & Hb').
        rewrite E in H. injection H as -> _. lia.
    + destruct (Z.lt_ge_cases (to_upper_lower r) 128) as [Hl|Hl].
      * unfold Utf8.utf8 in H. rewrite (proj2 (Z.ltb_lt _ _) Hl) in H. injection H as _ <-. reflexivity.
      * destruct (utf8_lead (to_upper_lower r) ltac:(pose proof (to_upper_lower_bound r Hb); lia))
          as (b & t' & E & Hb'). rewrite E in H. injection H as -> _. lia.
Qed.

Lemma fold_ascii_inv (c x : ascii) :
  fold_ascii c = x -> c = x \/ (65 <= Utf8.code x <= 90 /\ Utf8.code c = Utf8.code x + 32).
Proof.
  unfold fold_ascii. pose proof (Utf8.code_range c).
  destruct ((97 <=? Utf8.code c) && (Utf8.code c <=? 122)) eqn:E; intros <-; [right|left; reflexivity].
  apply andb_prop in E as [E1%Z.leb_le E2%Z.leb_le]. rewrite Utf8.code_byte by lia. lia.
Qed.

Lemma fold_name_nil (k : string) : fold_name k = EmptyString -> k = EmptyString.
Proof.
  destruct k as [|c k']; [reflexivity|]. destruct (Z.lt_ge_cases (Utf8.code c) 128) as [Hc|Hc].
  - rewrite fold_name_ascii by exact Hc. discriminate.
  - destruct (Utf8.decode_rune (String c k')) as [r n] eqn:D. rewrite (fold_name_multi c k' r n Hc D).
    unfold Utf8.utf8. repeat destruct (_ <? _); discriminate.
Qed.

(** A folded upper-case letter other than [I], [S] and [K] comes from
    that letter or its lower case. *)
Lemma fold_name_letter (k t : string) (l u : ascii) :
  Utf8.code l = Utf8.code u + 32 -> 65 <= Utf8.code u <= 90 ->
  Utf8.code u <> 73 -> Utf8.code u <> 83 -> Utf8.code u <> 75 ->
  fold_name k = String u t -> exists c k', k = String c k' /\ (c = l \/ c = u) /\ fold_name k' = t.
Proof.
  intros Hl Hu H73 H83 H75 H. destruct (fold_name_head k t u H ltac:(lia)) as [(c & k' & -> & Hc & Hf & Ht)|(r & n & _ & Hr & Hf & _)].
  - exists c, k'. split; [reflexivity|]. split; [|exact Ht].
    destruct (fold_ascii_inv c u Hf) as [->|[_ E]]; [right; reflexivity|left].
    rewrite <- (Utf8.byte_code c), <- (Utf8.byte_code l). f_equal. lia.
  - exfalso. destruct (to_upper_lower_low r Hr ltac:(lia)) as [[_ E]|[[_ E]|[_ E]]]; lia.
Qed.

(** A folded [I] comes from [i], [I], U+0130 or U+0131. *)
Lemma fold_name_letter_I (k t : string) :
  fold_name k = String (Utf8.byte 73) t ->
  exists p k', k = (p ++ k')%string /\ In p ["i"; "I"; Utf8.utf8 304; Utf8.utf8 305] /\ fold_name k' = t.
Proof.
  intros H. assert (H73 : Utf8.code (Utf8.byte 73) = 73) by reflexivity.
  destruct (fold_name_head k t _ H ltac:(lia)) as [(c & k' & -> & Hc & Hf & Ht)|(r & n & D & Hr & Hf & Ht)].
  - exists (String c EmptyString), k'. split; [reflexivity|]. split; [|exact Ht].
    destruct (fold_ascii_inv c _ Hf) as [->|[_ E]]; [simpl; auto|].
    rewrite <- (Utf8.byte_code c), E, H73. simpl; auto.
  - rewrite H73 in Hf. destruct (to_upper_lower_low r Hr ltac:(lia)) as [[Hr' _]|[[_ E]|[_ E]]]; [|lia|lia].
    destruct k as [|c k']; [simpl in D; injection D as <- _; unfold Utf8.RuneError in Hr'; lia|].
    assert (Hc : 128 <= Utf8.code c).
    { destruct (Z.lt_ge_cases (Utf8.code c) 128) as [Hc|Hc]; [|exact Hc].
      rewrite Utf8.decode_rune_ascii in D by exact Hc. injection D as <- _. lia. }
    destruct (Utf8.decode_rune_multi c k' r n Hc D)
      as [[-> _]|[(c1 & s' & -> & -> & _ & Hv & Hb0 & Hb1)|[[_ ?]|[_ ?]]]]; [unfold Utf8.RuneError in Hr'; lia| |lia|lia].
    exists (Utf8.utf8 r), s'. cbn [Utf8.str_drop] in Ht. split; [|split; [|exact Ht]].
    + rewrite <- (Utf8.byte_code c), <- (Utf8.byte_code c1).
      destruct Hr' as [->| ->]; [replace (Utf8.code c) with 196 by lia; replace (Utf8.code c1) with 176 by lia
                                |replace (Utf8.code c) with 196 by lia; replace (Utf8.code c1) with 177 by lia];
        reflexivity.
    + destruct Hr' as [->| ->]; simpl; auto.
Qed.

(** ** Saved errors *)

(** The error [Decode] returns when [saved] was saved before [r]. *)
Definition merge_error (saved r : option DecodeError) : option DecodeError :=
  match saved with Some e => Some e | None => r end.

Lemma merge_error_assoc (a b c : option DecodeError) :
  merge_error (merge_error a b) c = merge_error a (merge_error b c).
Proof. destruct a; reflexivity. Qed.

(** A step that decodes the same value whatever error was saved, and
    keeps a saved error. *)
Definition keeps_error {A B : Type} (f : A * option DecodeError -> B -> A * option DecodeError) : Prop :=
  forall a saved b, f (a, saved) b = (fst (f (a, None) b), merge_error saved (snd (f (a, None) b))).

Lemma fold_keeps_error {A B : Type} (f : A * option DecodeError -> B -> A * option DecodeError)
      (l : list B) (a : A) (saved : option DecodeError) :
  keeps_error f ->
  fold_left f l (a, saved) =
    (fst (fold_left f l (a, None)), merge_error saved (snd (fold_left f l (a, None)))).
Proof.
  intros Hf. revert a saved. induction l as [|b l IH]; intros a saved; [destruct saved; reflexivity|].
  simpl. rewrite (Hf a saved b). destruct (f (a, None) b) as [a' s'] eqn:E. simpl.
  rewrite IH, (IH a' s'). simpl. rewrite merge_error_assoc. reflexivity.
Qed.

Lemma decode_Temp_keeps (j : json) (cur : float64) (saved : option DecodeError) :
  decode_Temp j cur saved =
    (fst (decode_Temp j cur None), merge_error saved (snd (decode_Temp j cur None))).
Proof. destruct j; simpl; try destruct (parse_float _); destruct saved; reflexivity. Qed.

Lemma Temperature_member_keeps : keeps_error Temperature_member.
Proof.
  intros t saved kv. unfold Temperature_member. destruct (field_matches "temp" kv.1); [|destruct saved; reflexivity].
  rewrite decode_Temp_keeps. destruct (decode_Temp kv.2 (Temp t) None). reflexivity.
Qed.

Lemma decode_Temperature_keeps (j : json) (t : Temperature) (saved : option DecodeError) :
  decode_Temperature j t saved =
    (fst (decode_Temperature j t None), merge_error saved (snd (decode_Temperature j t None))).
Proof.
  destruct j; simpl; try (destruct saved; reflexivity).
  apply fold_keeps_error, Temperature_member_keeps.
Qed.

Lemma WeatherResponse_member_keeps : keeps_error WeatherResponse_member.
Proof.
  intros w saved kv. unfold WeatherResponse_member. destruct (field_matches "main" kv.1); [|destruct saved; reflexivity].
  rewrite decode_Temperature_keeps. destruct (decode_Temperature kv.2 (Main w) None). reflexivity.
Qed.

(** ** Theorems *)

(** C6: a body without [main.temp] is decoded successfully.  When no
    member of the object selects [Main], or every one that does is [null]
    or an object with no member selecting [Temp], [Decode] returns no
    error and leaves [Temp] at its zero value 0 K.  The spec says such a
    body is a [DecodeError]; the driver then logs -273.15 as a
    successful reading. *)
Theorem unmarshal_missing_temp (ms : list (string * json)) :
  Forall (fun kv => match kv.2 with
                    | JNull => True
                    | JObject ms' => List.filter (selects "temp") ms' = []
                    | _ => False
                    end) (List.filter (selects "main") ms) ->
  unmarshal (JObject ms) zero_WeatherResponse = (zero_WeatherResponse, None).
Proof.
  intros Hall. unfold unmarshal. rewrite decode_WeatherResponse_filter.
  apply fold_left_fixed. eapply Forall_impl; [exact Hall|].
  intros [k v] Hv. unfold WeatherResponse_member. simpl in Hv |- *.
  destruct (field_matches "main" k); [|reflexivity].
  destruct v; try contradiction; [reflexivity|].
  rewrite decode_Temperature_filter, Hv. reflexivity.
Qed.

(** The error body the weather service sends for a missing or invalid
    key, [{"cod":401,"message":"Invalid API key..."}], decodes without
    error to [Temp = 0]. *)
Lemma unmarshal_missing_temp_witness :
  Forall (fun kv => match kv.2 with
                    | JNull => True
                    | JObject ms' => List.filter (selects "temp") ms' = []
                    | _ => False
                    end)
    (List.filter (selects "main") [("cod", JNumber "401"); ("message", JString "Invalid API key")]) /\
  unmarshal (JObject [("cod", JNumber "401"); ("message", JString "Invalid API key")])
    zero_WeatherResponse = (zero_WeatherResponse, None).
Proof.
  assert (E : List.filter (selects "main") [("cod", JNumber "401"); ("message", JString "Invalid API key")] = [])
    by (vm_compute; reflexivity).
  split; [rewrite E; constructor | apply unmarshal_missing_temp; rewrite E; constructor].
Defined.

(** C7: on a body of the spec's shape the decoder returns what the
    spec's reading returns.  When the only member selecting [Main] is
    ["main"] with an object whose only member selecting [Temp] is
    ["temp"] with a number in range, both give that number and [Decode]
    returns no error; other members are ignored. *)
Theorem unmarshal_refines_spec (ms ms' : list (string * json)) (lit : string) (f : float64) :
  List.filter (selects "main") ms = [("main", JObject ms')] ->
  List.filter (selects "temp") ms' = [("temp", JNumber lit)] ->
  parse_float lit = Some f ->
  spec_main_temp (JObject ms) = Some f /\
  unmarshal (JObject ms) zero_WeatherResponse = (mkWeatherResponse (mkTemperature f), None).
Proof.
  intros Hm Ht Hf. split.
  - simpl. rewrite (lookup_member_filter _ _ _ Hm), (lookup_member_filter _ _ _ Ht). exact Hf.
  - unfold unmarshal. rewrite decode_WeatherResponse_filter, Hm. simpl.
    rewrite (fold_left_filter_skip (selects "temp"))
      by (intros; apply Temperature_member_skip; assumption).
    rewrite Ht. simpl. rewrite Hf. reflexivity.
Qed.

Lemma unmarshal_refines_spec_witness :
  List.filter (selects "main") [("coord", JObject []); ("main", JObject [("temp", JNumber "300.5"); ("humidity", JNumber "40")])]
    = [("main", JObject [("temp", JNumber "300.5"); ("humidity", JNumber "40")])] /\
  List.filter (selects "temp") [("temp", JNumber "300.5"); ("humidity", JNumber "40")]
    = [("temp", JNumber "300.5")] /\
  parse_float "300.5" = Some (of_decimal false 3005 (-1)) /\
  spec_main_temp (JObject [("coord", JObject []); ("main", JObject [("temp", JNumber "300.5"); ("humidity", JNumber "40")])])
    = Some (of_decimal false 3005 (-1)) /\
  unmarshal (JObject [("coord", JObject []); ("main", JObject [("temp", JNumber "300.5"); ("humidity", JNumber "40")])])
    zero_WeatherResponse = (mkWeatherResponse (mkTemperature (of_decimal false 3005 (-1))), None).
Proof.
  split; [reflexivity|]. split; [reflexivity|]. split; [vm_compute; reflexivity|].
  apply (unmarshal_refines_spec _ [("temp", JNumber "300.5"); ("humidity", JNumber "40")] "300.5");
    [reflexivity | reflexivity | vm_compute; reflexivity].
Defined.

(** C8: the keys that select [Main].  A key selects the field tagged
    [main] exactly when it spells [main] letter by letter in either case,
    the [i] also as U+0130 or U+0131 (whose folds are [I] in Go 1.21+),
    and nothing else: no other rune folds to [M], [A], [I] or [N], and
    every other byte sequence folds to something else. *)
Theorem field_matches_main (k : string) :
  field_matches "main" k = true <->
  exists m a i n, k = (m ++ a ++ i ++ n)%string /\ In m ["m"; "M"] /\ In a ["a"; "A"] /\
                  In i ["i"; "I"; Utf8.utf8 304; Utf8.utf8 305] /\ In n ["n"; "N"].
Proof.
  split.
  - unfold field_matches. intros [H|H]%Bool.orb_true_iff; apply String.eqb_eq in H.
    { subst. exists "m", "a", "i", "n". simpl; auto 10. }
    assert (E : fold_name "main" = "MAIN") by reflexivity. rewrite E in H.
    destruct (fold_name_letter k _ "m" "M" eq_refl ltac:(vm_compute; split; intro; discriminate) ltac:(discriminate) ltac:(discriminate)
                ltac:(discriminate) H) as (c1 & k1 & -> & H1 & F1).
    destruct (fold_name_letter k1 _ "a" "A" eq_refl ltac:(vm_compute; split; intro; discriminate) ltac:(discriminate) ltac:(discriminate)
                ltac:(discriminate) F1) as (c2 & k2 & -> & H2 & F2).
    destruct (fold_name_letter_I k2 _ F2) as (p & k3 & -> & H3 & F3).
    destruct (fold_name_letter k3 _ "n" "N" eq_refl ltac:(vm_compute; split; intro; discriminate) ltac:(discriminate) ltac:(discriminate)
                ltac:(discriminate) F3) as (c4 & k4 & -> & H4 & F4).
    apply fold_name_nil in F4 as ->.
    exists (String c1 EmptyString), (String c2 EmptyString), p, (String c4 EmptyString).
    split; [reflexivity|].
    destruct H1 as [-> | ->], H2 as [-> | ->], H4 as [-> | ->]; simpl; auto 10.
  - intros (m & a & i & n & -> & Hm & Ha & Hi & Hn).
    destruct Hm as [<-|[<-|[]]], Ha as [<-|[<-|[]]], Hi as [<-|[<-|[<-|[<-|[]]]]], Hn as [<-|[<-|[]]];
      vm_compute; reflexivity.
Qed.

(** C20: a type error does not stop the decoding.  Whatever error was
    saved before, decoding a value into a [WeatherResponse] sets the same
    fields, and the error [Decode] returns is the first one saved: an
    earlier error is never replaced by a later one. *)
Theorem decode_WeatherResponse_keeps_error (j : json) (w : WeatherResponse) (saved : option DecodeError) :
  decode_WeatherResponse j w saved =
    (fst (decode_WeatherResponse j w None), merge_error saved (snd (decode_WeatherResponse j w None))).
Proof.
  destruct j; simpl; try (destruct saved; reflexivity).
  apply fold_keeps_error, WeatherResponse_member_keeps.
Qed.

End Json.
