(* ===== verification/JsonText.v ===== *)
(** * The JSON scanner: bytes, strings, numbers and literals

    [json.NewDecoder(resp.Body).Decode(&v)] (main.go line 36) reads one
    JSON value from the body with the [encoding/json] scanner.  This file
    holds the scanner's pieces on the body as a byte string, each
    returning the token and the rest of the input, or an error:
    - [SEof]: the input ended inside a token (reported as
      [io.ErrUnexpectedEOF]);
    - [SBad c ctx n]: a byte the grammar does not allow, with the
      scanner's message ("invalid character 'x' in numeric literal",
      ...) and the number of bytes after it, from which [JsonRead]
      computes the offset;
    - [SFuel]: the fuel of the recursive descent ran out, which
      [JsonRead.read_fuel_enough] shows never happens.
    String escapes are decoded ([\uXXXX] to UTF-8, a lone surrogate to
    U+FFFD); bytes above 127 are kept as they are, which cannot change
    how a key matches the ASCII tags "main" and "temp".  The file also
    proves that every piece consumes input (the lemmas [JsonRead]'s fuel
    bound rests on), and that the string scanner reads back what Go's
    string encoder writes ([scan_string_roundtrip]). *)

From S2P Require Import Prelude Float64 Json Utf8.
From Stdlib Require Import ZArith Lia String Ascii List.
Import ListNotations.
Open Scope string_scope.
Open Scope Z_scope.
Open Scope bool_scope.

Module JsonText.
Import Json Utf8.

Create HintDb json discriminated.

(** ** Scanner results *)

(** [SEof]: the input ended inside a value.  [SBad c ctx n]: byte [c]
    is not allowed [ctx], with [n] bytes after it.  [SFuel]: the fuel of
    the recursive descent ran out, which [JsonRead] shows never happens
    with the fuel [read_value] gives. *)
Inductive scan_error := SEof | SBad (c : ascii) (ctx : string) (after : nat) | SFuel.

Inductive sres (A : Type) := SOk (a : A) (rest : string) | SFail (e : scan_error).
Arguments SOk {A} a rest.
Arguments SFail {A} e.

Definition bad {A : Type} (c : ascii) (ctx : string) (rest : string) : sres A :=
  SFail (SBad c ctx (String.length rest)).

(** ** Bytes *)

Definition is_space (c : ascii) : bool :=
  match c with " " | "009" | "010" | "013" => true | _ => false end%char.

Definition is_digit (c : ascii) : bool :=
  let n := nat_of_ascii c in (48 <=? n)%nat && (n <=? 57)%nat.

Fixpoint skip_space (s : string) : string :=
  match s with
  | String c s' => if is_space c then skip_space s' else s
  | EmptyString => s
  end.

(** The bytes of [s] while [p] holds, and the rest. *)
Fixpoint span (p : ascii -> bool) (s : string) : string * string :=
  match s with
  | String c s' => if p c then let '(a, b) := span p s' in (String c a, b) else (EmptyString, s)
  | EmptyString => (EmptyString, EmptyString)
  end.

Definition hex_value (c : ascii) : option Z :=
  let n := Z.of_nat (nat_of_ascii c) in
  if (48 <=? n) && (n <=? 57) then Some (n - 48)
  else if (97 <=? n) && (n <=? 102) then Some (n - 87)
  else if (65 <=? n) && (n <=? 70) then Some (n - 55)
  else None.

Definition replacement_char : Z := RuneError.

Definition quote : ascii := ascii_of_nat 34.

(** [quoteChar] of the scanner: the single and the double quote are
    special cases, any other byte is [strconv.Quote(string(c))] (the byte read as a
    Latin-1 rune) between single quotes. *)
Definition quote_char (c : ascii) : string :=
  let q (body : string) := String "'" (body ++ String "'" EmptyString) in
  if code c =? 39 then q (String backslash (String "'" EmptyString))
  else if code c =? 34 then q (String quote EmptyString)
  else q (quote_inner (utf8 (code c))).

Definition sres_map {A B : Type} (f : A -> B) (r : sres A) : sres B :=
  match r with SOk a rest => SOk (f a) rest | SFail e => SFail e end.

Definition prepend (c : string) (r : sres string) : sres string :=
  sres_map (fun a => c ++ a) r.

(** Sequencing: go on with the value read and the rest of the input. *)
Definition sres_bind {A B : Type} (r : sres A) (k : A -> string -> sres B) : sres B :=
  match r with SOk a rest => k a rest | SFail e => SFail e end.

(** ** More fuel gives a more defined result

    As for a bounded interpreter: a result with more fuel is the same
    unless the first one ran out of fuel. *)

Definition sres_le {A : Type} (r1 r2 : sres A) : Prop := r1 = SFail SFuel \/ r1 = r2.

Lemma sres_le_refl {A : Type} (r : sres A) : sres_le r r.
Proof. right. reflexivity. Qed.

Lemma sres_le_fuel {A : Type} (r : sres A) : sres_le (SFail SFuel) r.
Proof. left. reflexivity. Qed.

Lemma sres_bind_mono {A B : Type} (r1 r2 : sres A) (k1 k2 : A -> string -> sres B) :
  sres_le r1 r2 -> (forall a rest, sres_le (k1 a rest) (k2 a rest)) ->
  sres_le (sres_bind r1 k1) (sres_bind r2 k2).
Proof. intros [->| ->] Hk; [left; reflexivity|]. destruct r2; simpl; [apply Hk | right; reflexivity]. Qed.

Lemma sres_map_mono {A B : Type} (f : A -> B) (r1 r2 : sres A) :
  sres_le r1 r2 -> sres_le (sres_map f r1) (sres_map f r2).
Proof. intros [->| ->]; [left | right]; reflexivity. Qed.

(** ** Every result leaves less input

    [within n r]: [r] did not run out of fuel, and when it succeeded the
    rest of the input is shorter than [n]. *)

Definition within {A : Type} (n : nat) (r : sres A) : Prop :=
  match r with SOk _ rest => (String.length rest < n)%nat | SFail e => e <> SFuel end.

Lemma within_mono {A : Type} (n m : nat) (r : sres A) : (n <= m)%nat -> within n r -> within m r.
Proof. intros H W; destruct r; simpl in *; [lia | exact W]. Qed.

Lemma within_bind {A B : Type} (n : nat) (r : sres A) (k : A -> string -> sres B) :
  within n r -> (forall a rest, (String.length rest < n)%nat -> within n (k a rest)) ->
  within n (sres_bind r k).
Proof. destruct r; simpl; auto. Qed.

Lemma within_map {A B : Type} (n : nat) (f : A -> B) (r : sres A) :
  within n r -> within n (sres_map f r).
Proof. destruct r; simpl; auto. Qed.

Lemma within_bad {A : Type} (n : nat) (c : ascii) (ctx rest : string) : within n (bad (A:=A) c ctx rest).
Proof. simpl. discriminate. Qed.

Lemma within_eof {A : Type} (n : nat) : within n (SFail (A:=A) SEof).
Proof. simpl. discriminate. Qed.

#[export] Hint Resolve within_bad within_eof within_map : json.

(** ** Strings *)

(** Four hex digits of a [\u] escape. *)
Fixpoint scan_hex (n : nat) (s : string) (acc : Z) : sres Z :=
  match n with
  | O => SOk acc s
  | S n' =>
      match s with
      | EmptyString => SFail SEof
      | String c s' =>
          match hex_value c with
          | Some h => scan_hex n' s' (acc * 16 + h)
          | None => bad c "in \u hexadecimal character escape" s'
          end
      end
  end.

Definition is_surrogate (u : Z) : bool := (55296 <=? u) && (u <? 57344).

(** A second [\uXXXX] completing a surrogate pair, if [s] starts with one. *)
Definition low_surrogate (hi : Z) (s : string) : option (Z * string) :=
  match s with
  | String b (String u s') =>
      if Ascii.eqb b backslash && Ascii.eqb u "u" then
        match scan_hex 4 s' 0 with
        | SOk lo rest =>
            if (hi <? 56320) && (56320 <=? lo) && (lo <? 57344)
            then Some (65536 + (hi - 55296) * 1024 + (lo - 56320), rest) else None
        | SFail _ => None
        end
      else None
  | _ => None
  end.

(** The decoded byte of a one-letter escape. *)
Definition simple_escape (c : ascii) : option ascii :=
  match nat_of_ascii c with
  | 34 => Some quote | 92 => Some backslash | 47 => Some "/"%char
  | 98 => Some (ascii_of_nat 8) | 102 => Some (ascii_of_nat 12)
  | 110 => Some (ascii_of_nat 10) | 114 => Some (ascii_of_nat 13)
  | 116 => Some (ascii_of_nat 9)
  | _ => None
  end%nat.

(** The bytes of a string literal after its opening quote, decoded, up
    to the closing quote. *)
Fixpoint scan_string (fuel : nat) (s : string) : sres string :=
  match fuel with
  | O => SFail SFuel
  | S fuel' =>
      match s with
      | EmptyString => SFail SEof
      | String c s' =>
          if Ascii.eqb c quote then SOk EmptyString s'
          else if Ascii.eqb c backslash then
            match s' with
            | EmptyString => SFail SEof
            | String e s'' =>
                if Ascii.eqb e "u" then
                  match scan_hex 4 s'' 0 with
                  | SFail err => SFail err
                  | SOk u rest =>
                      if is_surrogate u then
                        match low_surrogate u rest with
                        | Some (cp, rest') => prepend (utf8 cp) (scan_string fuel' rest')
                        | None => prepend (utf8 replacement_char) (scan_string fuel' rest)
                        end
                      else prepend (utf8 u) (scan_string fuel' rest)
                  end
                else
                  match simple_escape e with
                  | Some d => prepend (String d EmptyString) (scan_string fuel' s'')
                  | None => bad e "in string escape code" s''
                  end
            end
          else if (nat_of_ascii c <? 32)%nat then bad c "in string literal" s'
          else prepend (String c EmptyString) (scan_string fuel' s')
      end
  end.

(** ** Numbers and literals *)

(** The digits required after a point or an exponent mark. *)
Definition scan_required_digits (ctx : string) (s : string) : sres string :=
  match s with
  | EmptyString => SFail SEof
  | String d r =>
      if is_digit d then let '(ds, r') := span is_digit r in SOk (String d ds) r'
      else bad d ctx r
  end.

(** A leading minus sign. *)
Definition split_sign (s : string) : string * string :=
  match s with
  | String c r => if Ascii.eqb c "-" then ("-"%string, r) else (EmptyString, s)
  | EmptyString => (EmptyString, s)
  end.

(** The fraction [.digits], if the next byte is a point. *)
Definition scan_fraction (s : string) : sres string :=
  match s with
  | String c r =>
      if Ascii.eqb c "." then prepend "." (scan_required_digits "after decimal point in numeric literal" r)
      else SOk EmptyString s
  | EmptyString => SOk EmptyString s
  end.

(** The exponent [e[+-]digits], if the next byte is [e] or [E]. *)
Definition scan_exponent (s : string) : sres string :=
  match s with
  | String e r =>
      if Ascii.eqb e "e" || Ascii.eqb e "E" then
        match r with
        | String sg r' =>
            if Ascii.eqb sg "+" || Ascii.eqb sg "-" then
              prepend (String e (String sg EmptyString)) (scan_required_digits "in exponent of numeric literal" r')
            else prepend (String e EmptyString) (scan_required_digits "in exponent of numeric literal" r)
        | EmptyString => prepend (String e EmptyString) (scan_required_digits "in exponent of numeric literal" r)
        end
      else SOk EmptyString s
  | EmptyString => SOk EmptyString s
  end.

(** A number literal starting at [s] (a minus sign or a digit); the
    literal text is returned as the scanner delimits it. *)
Definition scan_number (s : string) : sres string :=
  let '(sign, s1) := split_sign s in
  match s1 with
  | EmptyString => SFail SEof
  | String c r =>
      if negb (is_digit c) then bad c "in numeric literal" r
      else
        let '(intp, s2) :=
          if Ascii.eqb c "0" then ("0"%string, r)
          else let '(ds, r') := span is_digit r in (String c ds, r') in
        sres_bind (scan_fraction s2) (fun fr s3 =>
          sres_map (fun ex => sign ++ intp ++ fr ++ ex) (scan_exponent s3))
  end.

(** The remaining bytes [word] of the literal [name]. *)
Fixpoint scan_word (name word : string) (s : string) : sres unit :=
  match word with
  | EmptyString => SOk tt s
  | String w word' =>
      match s with
      | EmptyString => SFail SEof
      | String c s' =>
          if Ascii.eqb c w then scan_word name word' s'
          else bad c ("in literal " ++ name ++ " (expecting " ++ quote_char w ++ ")") s'
      end
  end.

(** ** The scanner consumes its input *)

Lemma skip_space_length (s : string) : (String.length (skip_space s) <= String.length s)%nat.
Proof. induction s as [|c s IH]; simpl; [lia|]. destruct (is_space c); simpl; lia. Qed.

Lemma skip_space_cons (s r : string) (c : ascii) :
  skip_space s = String c r -> (String.length r < String.length s)%nat.
Proof. intros H. pose proof (skip_space_length s) as L. rewrite H in L. simpl in L. lia. Qed.

Lemma span_length (p : ascii -> bool) (s : string) :
  (String.length (snd (span p s)) <= String.length s)%nat.
Proof.
  induction s as [|c s IH]; simpl; [lia|].
  destruct (p c); [destruct (span p s); simpl in *; lia | simpl; lia].
Qed.

Lemma scan_hex_within (n : nat) (s : string) (acc : Z) :
  within (S (String.length s)) (scan_hex n s acc).
Proof.
  revert s acc. induction n as [|n IH]; intros s acc; simpl; [lia|].
  destruct s as [|c s]; [discriminate|]. destruct (hex_value c); [|apply within_bad].
  eapply within_mono; [|apply IH]. simpl. lia.
Qed.

Lemma low_surrogate_length (hi : Z) (s : string) (cp : Z) (r : string) :
  low_surrogate hi s = Some (cp, r) -> (String.length r < String.length s)%nat.
Proof.
  unfold low_surrogate. destruct s as [|b [|u s]]; try discriminate.
  destruct (Ascii.eqb b backslash && Ascii.eqb u "u"); [|discriminate].
  pose proof (scan_hex_within 4 s 0) as W.
  destruct (scan_hex 4 s 0) as [lo rest|]; [|discriminate].
  destruct (_ && _); [|discriminate]. intros [= _ <-]. simpl in W |- *. lia.
Qed.

Lemma scan_string_mono (i j : nat) (s : string) :
  (i <= j)%nat -> sres_le (scan_string i s) (scan_string j s).
Proof.
  revert j s. induction i as [|i IH]; intros j s Hij; [apply sres_le_fuel|].
  destruct j as [|j]; [lia|]. cbn [scan_string].
  destruct s as [|c s]; [apply sres_le_refl|].
  destruct (Ascii.eqb c quote); [apply sres_le_refl|].
  destruct (Ascii.eqb c backslash); [|destruct (nat_of_ascii c <? 32)%nat; [apply sres_le_refl|]];
    [|apply sres_map_mono, IH; lia].
  destruct s as [|e s]; [apply sres_le_refl|].
  destruct (Ascii.eqb e "u"); [|destruct (simple_escape e); [apply sres_map_mono, IH; lia | apply sres_le_refl]].
  destruct (scan_hex 4 s 0) as [u rest|]; [|apply sres_le_refl].
  destruct (is_surrogate u); [destruct (low_surrogate u rest) as [[cp r]|]|];
    apply sres_map_mono, IH; lia.
Qed.

(** The string scanner needs one unit of fuel per byte, and one more. *)
Lemma scan_string_within (f : nat) (s : string) :
  (String.length s < f)%nat -> within (String.length s) (scan_string f s).
Proof.
  revert s. induction f as [|f IH]; intros s Hf; [lia|]. cbn [scan_string].
  destruct s as [|c s]; [apply within_eof|]. cbn [String.length] in Hf |- *.
  destruct (Ascii.eqb c quote); [cbn [within]; lia|].
  destruct (Ascii.eqb c backslash);
    [|destruct (nat_of_ascii c <? 32)%nat; [apply within_bad|];
      apply within_map; eapply within_mono; [|apply IH]; lia].
  destruct s as [|e s]; [apply within_eof|]. cbn [String.length] in Hf |- *.
  destruct (Ascii.eqb e "u");
    [|destruct (simple_escape e); [|apply within_bad];
      apply within_map; eapply within_mono; [|apply IH]; lia].
  pose proof (scan_hex_within 4 s 0) as W.
  destruct (scan_hex 4 s 0) as [u rest|]; [|exact W]. simpl in W.
  destruct (is_surrogate u); [destruct (low_surrogate u rest) as [[cp r]|] eqn:E|].
  all: try apply low_surrogate_length in E.
  all: apply within_map; eapply within_mono; [|apply IH]; lia.
Qed.

Lemma scan_required_digits_within (ctx s : string) :
  within (S (String.length s)) (scan_required_digits ctx s).
Proof.
  unfold scan_required_digits. destruct s as [|d r]; [apply within_eof|].
  destruct (is_digit d); [|apply within_bad].
  pose proof (span_length is_digit r) as L. destruct (span is_digit r) as [ds r']. simpl in *. lia.
Qed.

Lemma scan_word_within (name word s : string) :
  within (S (String.length s)) (scan_word name word s).
Proof.
  revert s. induction word as [|w word IH]; intros s; simpl; [lia|].
  destruct s as [|c s]; [apply within_eof|].
  destruct (Ascii.eqb c w); [|apply within_bad]. eapply within_mono; [|apply IH]. simpl. lia.
Qed.

Lemma scan_fraction_within (s : string) : within (S (String.length s)) (scan_fraction s).
Proof.
  unfold scan_fraction. destruct s as [|c r]; simpl; [lia|].
  destruct (Ascii.eqb c "."); [|simpl; lia].
  apply within_map. eapply within_mono; [|apply scan_required_digits_within]. lia.
Qed.

Lemma scan_exponent_within (s : string) : within (S (String.length s)) (scan_exponent s).
Proof.
  unfold scan_exponent. destruct s as [|e r]; simpl; [lia|].
  destruct (_ || _); [|simpl; lia].
  destruct r as [|sg r']; [apply within_map, within_eof|].
  destruct (_ || _); apply within_map; (eapply within_mono; [|apply scan_required_digits_within]); simpl; lia.
Qed.

Lemma scan_number_within (c : ascii) (r : string) :
  within (S (String.length r)) (scan_number (String c r)).
Proof.
  unfold scan_number.
  assert (Hs : exists sign s1, split_sign (String c r) = (sign, s1) /\ (String.length s1 <= S (String.length r))%nat).
  { unfold split_sign. destruct (Ascii.eqb c "-"); eexists _, _; split; [reflexivity| |reflexivity|]; simpl; lia. }
  destruct Hs as (sign & s1 & -> & Hl).
  destruct s1 as [|d r1]; [apply within_eof|]. simpl in Hl.
  destruct (negb (is_digit d)); [apply within_bad|].
  assert (Hi : exists intp s2, (if Ascii.eqb d "0" then ("0"%string, r1)
                                else let '(ds, r') := span is_digit r1 in (String d ds, r')) = (intp, s2) /\
                               (String.length s2 <= String.length r1)%nat).
  { destruct (Ascii.eqb d "0"); [eexists _, _; split; [reflexivity | lia]|].
    pose proof (span_length is_digit r1) as L. destruct (span is_digit r1) as [ds r'].
    eexists _, _; split; [reflexivity | simpl in L; lia]. }
  destruct Hi as (intp & s2 & -> & Hl2).
  apply within_bind; [eapply within_mono; [|apply scan_fraction_within]; lia|].
  intros fr s3 Hs3. apply within_map. eapply within_mono; [|apply scan_exponent_within]. lia.
Qed.

(** ** Round trip with Go's string encoder *)

(** How [encoding/json] writes one ASCII byte inside a string literal
    ([encodeState.string] with HTML escaping off): the quote and the
    backslash escaped, [\b \f \n \r \t] by name, the other control bytes
    as [\u00XX], every other byte as it is.  This is the writer side
    the scanner reads; main.go itself only reads. *)
Definition encode_char (c : ascii) : string :=
  let n := nat_of_ascii c in
  if Ascii.eqb c quote then String backslash (String quote EmptyString)
  else if Ascii.eqb c backslash then String backslash (String backslash EmptyString)
  else if (n =? 8)%nat then String backslash "b"
  else if (n =? 12)%nat then String backslash "f"
  else if (n =? 10)%nat then String backslash "n"
  else if (n =? 13)%nat then String backslash "r"
  else if (n =? 9)%nat then String backslash "t"
  else if (n <? 32)%nat then
    String backslash ("u00" ++ String (hex_digit (Z.of_nat n / 16)) (String (hex_digit (Z.of_nat n mod 16)) EmptyString))
  else String c EmptyString.

Fixpoint encode_string (s : string) : string :=
  match s with
  | EmptyString => EmptyString
  | String c s' => encode_char c ++ encode_string s'
  end.

Fixpoint is_ascii (s : string) : bool :=
  match s with
  | EmptyString => true
  | String c s' => (nat_of_ascii c <? 128)%nat && is_ascii s'
  end.

(** The scanner reads an encoded ASCII byte back in one step. *)
Lemma scan_string_encode_char (c : ascii) (f : nat) (x : string) :
  (nat_of_ascii c < 128)%nat ->
  scan_string (S f) (encode_char c ++ x) = prepend (String c EmptyString) (scan_string f x).
Proof.
  intros H. destruct c as [b0 b1 b2 b3 b4 b5 b6 b7].
  destruct b7; [exfalso; revert H; destruct b0, b1, b2, b3, b4, b5, b6; vm_compute; lia|].
  destruct b0, b1, b2, b3, b4, b5, b6; reflexivity.
Qed.

(** C21: every ASCII string that Go's encoder writes as a JSON string
    literal is read back by the scanner as that string, with the rest of
    the input left as it was; one unit of fuel per byte of the string
    (and one for the closing quote) is enough. *)
Theorem scan_string_roundtrip (s rest : string) (f : nat) :
  is_ascii s = true -> (String.length s < f)%nat ->
  scan_string f (encode_string s ++ String quote rest) = SOk s rest.
Proof.
  revert f. induction s as [|c s IH]; intros f Ha Hf; destruct f as [|f]; try (simpl in Hf; lia).
  - reflexivity.
  - simpl in Ha, Hf. apply andb_prop in Ha as [Hc Ha]. apply Nat.ltb_lt in Hc.
    cbn [encode_string]. rewrite string_app_assoc, scan_string_encode_char by exact Hc.
    rewrite IH by (exact Ha || lia). reflexivity.
Qed.

Lemma scan_string_roundtrip_witness :
  is_ascii (String quote "a\b") = true /\ (String.length (String quote "a\b") < 10)%nat /\
  scan_string 10 (encode_string (String quote "a\b") ++ String quote "}") = SOk (String quote "a\b") "}".
Proof.
  split; [reflexivity|]. split; [vm_compute; lia|].
  apply scan_string_roundtrip; [reflexivity | vm_compute; lia].
Defined.

End JsonText.
