(* ===== verification/JsonRead.v ===== *)
(** * [Decoder.Decode]: reading one JSON value and decoding it

    [json.NewDecoder(resp.Body).Decode(&weatherResponse)] (main.go line
    36) reads one JSON value from the body with the [encoding/json]
    scanner ([Decoder.readValue]) and decodes it into the
    [WeatherResponse] ([Json.unmarshal]).  This file holds the reading:
    a recursive descent over the scanner pieces of [JsonText], with the
    scanner's nesting limit ([maxNestingDepth = 10000]: the byte that
    opens an 10001st enclosing object or array is a syntax error
    "exceeded max depth").

    The descent runs on fuel, one unit per call.  An array spends three
    calls ([parse_value], [parse_array], [parse_elements]) before it
    consumes its first element, so [read_value] gives [3 * length + 1].
    The theorems of this file show that this is enough: with it the
    parser never runs out of fuel, and more fuel gives the same result. *)

From S2P Require Import Prelude Float64 Json JsonText.
From Stdlib Require Import ZArith Lia String Ascii List.
Import ListNotations.
Open Scope string_scope.
Open Scope bool_scope.

Module JsonRead.
Import Json JsonText.

(** [maxNestingDepth] of the scanner. *)
Definition max_nesting_depth : nat := Z.to_nat 10000.

(** A value at nesting [depth] (the number of objects and arrays around
    it). *)
Fixpoint parse_value (fuel depth : nat) (s : string) : sres json :=
  match fuel with
  | O => SFail SFuel
  | S f =>
      match skip_space s with
      | EmptyString => SFail SEof
      | String c r =>
          if Ascii.eqb c "{" then
            if (max_nesting_depth <=? depth)%nat then bad c "exceeded max depth" r
            else parse_object f (S depth) r
          else if Ascii.eqb c "[" then
            if (max_nesting_depth <=? depth)%nat then bad c "exceeded max depth" r
            else parse_array f (S depth) r
          else if Ascii.eqb c quote then sres_map JString (scan_string f r)
          else if Ascii.eqb c "-" || is_digit c then sres_map JNumber (scan_number (String c r))
          else if Ascii.eqb c "t" then sres_map (fun _ => JBool true) (scan_word "true" "rue" r)
          else if Ascii.eqb c "f" then sres_map (fun _ => JBool false) (scan_word "false" "alse" r)
          else if Ascii.eqb c "n" then sres_map (fun _ => JNull) (scan_word "null" "ull" r)
          else bad c "looking for beginning of value" r
      end
  end

(** After the opening brace. *)
with parse_object (fuel depth : nat) (s : string) : sres json :=
  match fuel with
  | O => SFail SFuel
  | S f =>
      match skip_space s with
      | EmptyString => SFail SEof
      | String c r =>
          if Ascii.eqb c "}" then SOk (JObject []) r
          else if Ascii.eqb c quote then parse_members f depth r []
          else bad c "looking for beginning of object key string" r
      end
  end

(** After the opening quote of a key; [acc] holds the members read. *)
with parse_members (fuel depth : nat) (s : string) (acc : list (string * json)) : sres json :=
  match fuel with
  | O => SFail SFuel
  | S f =>
      sres_bind (scan_string f s) (fun key r1 =>
        match skip_space r1 with
        | EmptyString => SFail SEof
        | String c r2 =>
            if negb (Ascii.eqb c ":") then bad c "after object key" r2
            else
              sres_bind (parse_value f depth r2) (fun v r3 =>
                let acc' := (acc ++ [(key, v)])%list in
                match skip_space r3 with
                | EmptyString => SFail SEof
                | String c' r4 =>
                    if Ascii.eqb c' "}" then SOk (JObject acc') r4
                    else if negb (Ascii.eqb c' ",") then bad c' "after object key:value pair" r4
                    else
                      match skip_space r4 with
                      | EmptyString => SFail SEof
                      | String c'' r5 =>
                          if Ascii.eqb c'' quote then parse_members f depth r5 acc'
                          else bad c'' "looking for beginning of object key string" r5
                      end
                end)
        end)
  end

(** After the opening bracket. *)
with parse_array (fuel depth : nat) (s : string) : sres json :=
  match fuel with
  | O => SFail SFuel
  | S f =>
      match skip_space s with
      | EmptyString => SFail SEof
      | String c r =>
          if Ascii.eqb c "]" then SOk (JArray []) r
          else parse_elements f depth s []
      end
  end

(** At an element; [acc] holds the elements read. *)
with parse_elements (fuel depth : nat) (s : string) (acc : list json) : sres json :=
  match fuel with
  | O => SFail SFuel
  | S f =>
      sres_bind (parse_value f depth s) (fun v r1 =>
        let acc' := (acc ++ [v])%list in
        match skip_space r1 with
        | EmptyString => SFail SEof
        | String c r2 =>
            if Ascii.eqb c "]" then SOk (JArray acc') r2
            else if Ascii.eqb c "," then parse_elements f depth r2 acc'
            else bad c "after array element" r2
        end)
  end.

(** The fuel [read_value] gives the descent. *)
Definition read_fuel (body : string) : nat := 3 * String.length body + 1.

(** [Decoder.readValue] on the whole body: the first value, or the error
    [Decode] returns. *)
Definition read_value (body : string) : DecodeError + json :=
  match skip_space body with
  | EmptyString => inl EOF
  | _ =>
      match parse_value (read_fuel body) 0 body with
      | SOk v _ => inr v
      | SFail (SBad c ctx after) =>
          inl (SyntaxError ("invalid character " ++ quote_char c ++ " " ++ ctx)
                 (Z.of_nat (String.length body - after)))
      | SFail _ => inl UnexpectedEOF
      end
  end.

(** [json.NewDecoder(body).Decode(&w)]: read one value, then decode it
    into [w] in place; the result and the error [Decode] returns. *)
Definition decode_body (body : string) (w : WeatherResponse) : WeatherResponse * option DecodeError :=
  match read_value body with
  | inl e => (w, Some e)
  | inr j => unmarshal j w
  end.

(** ** Fuel *)

(** One step of a comparison of the same code at two fuels. *)
Ltac mono_step Hv Ho Hm Ha He :=
  first
    [ apply sres_le_refl
    | apply sres_bind_mono; [|intros ? ?]
    | apply sres_map_mono
    | apply scan_string_mono; lia
    | apply Hv | apply Ho | apply Hm | apply Ha | apply He
    | match goal with |- context [match ?x with _ => _ end] => destruct x end
    | match goal with |- context [if ?b then _ else _] => destruct b end ].

(** More fuel gives a more defined result, for the five functions at
    once. *)
Lemma parse_mono (i : nat) : forall j, (i <= j)%nat ->
  (forall d s, sres_le (parse_value i d s) (parse_value j d s)) /\
  (forall d s, sres_le (parse_object i d s) (parse_object j d s)) /\
  (forall d s acc, sres_le (parse_members i d s acc) (parse_members j d s acc)) /\
  (forall d s, sres_le (parse_array i d s) (parse_array j d s)) /\
  (forall d s acc, sres_le (parse_elements i d s acc) (parse_elements j d s acc)).
Proof.
  induction i as [|i IH]; intros j Hij; [repeat split; intros; apply sres_le_fuel|].
  destruct j as [|j]; [lia|]. destruct (IH j ltac:(lia)) as (Hv & Ho & Hm & Ha & He).
  repeat split; intros; cbn [parse_value parse_object parse_members parse_array parse_elements];
    repeat mono_step Hv Ho Hm Ha He.
Qed.

(** Case on the next non-space byte, remembering that it is shorter. *)
Ltac skip_case x :=
  let E := fresh "E" in
  destruct (skip_space x) as [|?c ?r] eqn:E; [apply within_eof|];
  apply skip_space_cons in E.

(** With [3 * length + 1] units (a few more for the functions that start
    inside a container) every function returns without running out of
    fuel, and leaves less input than it was given. *)
Lemma parse_within (f : nat) :
  (forall d s, (3 * String.length s + 1 <= f)%nat -> within (String.length s) (parse_value f d s)) /\
  (forall d s, (3 * String.length s + 1 <= f)%nat -> within (String.length s) (parse_object f d s)) /\
  (forall d s acc, (3 * String.length s + 2 <= f)%nat -> within (String.length s) (parse_members f d s acc)) /\
  (forall d s, (3 * String.length s + 3 <= f)%nat -> within (String.length s) (parse_array f d s)) /\
  (forall d s acc, (3 * String.length s + 2 <= f)%nat -> within (String.length s) (parse_elements f d s acc)).
Proof.
  induction f as [|f (Hv & Ho & Hm & Ha & He)]; [repeat split; intros; lia|].
  repeat split; intros d s; [| |intros acc| |intros acc]; intros Hf;
    cbn [parse_value parse_object parse_members parse_array parse_elements].
  - skip_case s.
    destruct (Ascii.eqb c "{"); [destruct (_ <=? _)%nat; [apply within_bad|];
      eapply within_mono; [|apply Ho]; lia|].
    destruct (Ascii.eqb c "["); [destruct (_ <=? _)%nat; [apply within_bad|];
      eapply within_mono; [|apply Ha]; lia|].
    destruct (Ascii.eqb c quote); [apply within_map; eapply within_mono; [|apply scan_string_within]; lia|].
    destruct (_ || _); [apply within_map; eapply within_mono; [|apply scan_number_within]; lia|].
    repeat (destruct (Ascii.eqb c _); [apply within_map; eapply within_mono; [|apply scan_word_within]; lia|]).
    apply within_bad.
  - skip_case s. destruct (Ascii.eqb c "}"); [simpl; lia|].
    destruct (Ascii.eqb c quote); [|apply within_bad]. eapply within_mono; [|apply Hm]; lia.
  - apply within_bind; [apply scan_string_within; lia|]. intros key r1 H1.
    skip_case r1. destruct (negb _); [apply within_bad|].
    apply within_bind; [eapply within_mono; [|apply Hv]; lia|]. intros v r3 H3.
    skip_case r3. destruct (Ascii.eqb c0 "}"); [simpl; lia|].
    destruct (negb _); [apply within_bad|].
    skip_case r0. destruct (Ascii.eqb c1 quote); [|apply within_bad].
    eapply within_mono; [|apply Hm]; lia.
  - pose proof (skip_space_length s). destruct (skip_space s) as [|c r]; [apply within_eof|].
    destruct (Ascii.eqb c "]"); [simpl in *; lia|]. apply He. lia.
  - apply within_bind; [apply Hv; lia|]. intros v r1 H1.
    skip_case r1. destruct (Ascii.eqb c "]"); [simpl; lia|].
    destruct (Ascii.eqb c ","); [|apply within_bad]. eapply within_mono; [|apply He]; lia.
Qed.

(** ** Theorems *)

(** C16: [read_value]'s fuel is enough.  For every body and nesting
    depth, the descent with [read_fuel body] units does not run out of
    fuel, and any larger fuel gives the same result: the [SFuel] branch
    of [read_value] is never taken, so the reading is the parser's
    unbounded result. *)
Theorem read_fuel_enough (d : nat) (body : string) (f : nat) :
  (read_fuel body <= f)%nat ->
  parse_value (read_fuel body) d body <> SFail SFuel /\
  parse_value f d body = parse_value (read_fuel body) d body.
Proof.
  intros Hf.
  assert (Hw : within (String.length body) (parse_value (read_fuel body) d body))
    by (apply (parse_within (read_fuel body)); unfold read_fuel; lia).
  assert (Hnf : parse_value (read_fuel body) d body <> SFail SFuel)
    by (destruct (parse_value _ d body); simpl in Hw; congruence).
  split; [exact Hnf|].
  destruct (proj1 (parse_mono (read_fuel body) f Hf) d body) as [E|E]; [contradiction | symmetry; exact E].
Qed.

Lemma read_fuel_enough_witness :
  (read_fuel "[[1]]" <= 100)%nat /\
  parse_value (read_fuel "[[1]]") 0 "[[1]]" <> SFail SFuel /\
  parse_value 100 0 "[[1]]" = parse_value (read_fuel "[[1]]") 0 "[[1]]".
Proof. split; [vm_compute; lia | apply read_fuel_enough; vm_compute; lia]. Defined.

(** [n] opening brackets, [1], [n] closing brackets, and the value it
    denotes. *)
Fixpoint opens (n : nat) : string :=
  match n with O => EmptyString | S n' => String "[" (opens n') end.

Fixpoint closes (n : nat) : string :=
  match n with O => EmptyString | S n' => String "]" (closes n') end.

Definition nested (n : nat) : string := opens n ++ "1" ++ closes n.

Definition nest_value (n : nat) : json := Nat.iter n (fun v => JArray [v]) (JNumber "1").

Lemma opens_add (a b : nat) : opens (a + b) = opens a ++ opens b.
Proof. induction a as [|a IH]; simpl; [reflexivity|]. rewrite IH. reflexivity. Qed.

Lemma closes_S (n : nat) : closes (S n) = closes n ++ "]".
Proof.
  induction n as [|n IH]; [reflexivity|].
  change (String "]" (closes (S n)) = String "]" (closes n ++ "]")). rewrite IH. reflexivity.
Qed.

Lemma opens_first (n : nat) (x : string) :
  exists c r, skip_space (opens n ++ "1" ++ x) = String c r /\ Ascii.eqb c "]" = false.
Proof. destruct n; eexists _, _; split; reflexivity. Qed.

Lemma opens_bracket (n : nat) (x : string) :
  exists r, skip_space (opens n ++ String "[" x) = String "[" r.
Proof. destruct n; eexists; reflexivity. Qed.

Lemma closes_S_app (n : nat) (r : string) : closes (S n) ++ r = closes n ++ String "]" r.
Proof. induction n as [|n IH]; [reflexivity|]. change (String "]" (closes (S n) ++ r) = String "]" (closes n ++ String "]" r)). rewrite IH. reflexivity. Qed.

Lemma opens_S_app (n : nat) (x : string) : opens (S n) ++ x = String "[" (opens n ++ x).
Proof. reflexivity. Qed.

Lemma length_opens (n : nat) (x : string) : String.length (opens n ++ x) = (n + String.length x)%nat.
Proof. induction n as [|n IH]; simpl; [reflexivity|]. rewrite IH. reflexivity. Qed.

Lemma length_closes (n : nat) : String.length (closes n) = n.
Proof. induction n as [|n IH]; simpl; [reflexivity|]. rewrite IH. reflexivity. Qed.

Lemma depth_ok (d : nat) : (d < max_nesting_depth)%nat -> (max_nesting_depth <=? d)%nat = false.
Proof. intros H. apply Nat.leb_gt. exact H. Qed.

(** Below the limit the nested arrays are read, up to the byte after
    them. *)
Lemma parse_nested (k : nat) : forall d f r,
  (d + k <= max_nesting_depth)%nat -> (3 * k + 1 <= f)%nat ->
  (r = EmptyString \/ exists r', r = String "]" r') ->
  parse_value f d (opens k ++ "1" ++ closes k ++ r) = SOk (nest_value k) r.
Proof.
  induction k as [|k IH]; intros d f r Hd Hf Hr.
  - destruct f as [|f]; [lia|]. destruct Hr as [->|[r' ->]]; reflexivity.
  - do 3 (destruct f as [|f]; [lia|]). rewrite opens_S_app.
    cbn [parse_value skip_space is_space]. cbn [Ascii.eqb Bool.eqb andb].
    rewrite depth_ok by lia. cbn [parse_array].
    destruct (opens_first k (closes (S k) ++ r)) as (c & r0 & -> & ->).
    cbn [parse_elements]. rewrite closes_S_app, IH by (lia || (right; eexists; reflexivity)).
    reflexivity.
Qed.

(** At the limit the next opening bracket is the error. *)
Lemma parse_too_deep (j : nat) : forall d f x,
  (d + j = max_nesting_depth)%nat -> (3 * j + 1 <= f)%nat ->
  parse_value f d (opens j ++ String "[" x) = SFail (SBad "[" "exceeded max depth" (String.length x)).
Proof.
  induction j as [|j IH]; intros d f x Hd Hf.
  - destruct f as [|f]; [lia|]. change (opens 0 ++ String "[" x) with (String "[" x).
    cbn [parse_value skip_space is_space]. cbn [Ascii.eqb Bool.eqb andb].
    replace d with max_nesting_depth by lia. rewrite Nat.leb_refl. reflexivity.
  - do 3 (destruct f as [|f]; [lia|]). rewrite opens_S_app.
    cbn [parse_value skip_space is_space]. cbn [Ascii.eqb Bool.eqb andb].
    rewrite depth_ok by lia. cbn [parse_array].
    destruct (opens_bracket j x) as (r0 & ->). cbn [Ascii.eqb Bool.eqb andb parse_elements].
    rewrite IH by lia. reflexivity.
Qed.

Lemma length_nested (n : nat) : String.length (nested n) = (2 * n + 1)%nat.
Proof. unfold nested. rewrite length_opens, string_length_app, length_closes. simpl. lia. Qed.

(** C17: the scanner's nesting limit.  A body of [n] nested arrays
    around a number is read as [n] nested arrays when [n <= 10000]; with
    more, the byte that opens the 10001st array is a syntax error
    "exceeded max depth" at offset 10001, and [Decode] returns it. *)
Theorem max_depth_bound (n : nat) :
  ((n <= max_nesting_depth)%nat -> read_value (nested n) = inr (nest_value n)) /\
  ((max_nesting_depth < n)%nat ->
   read_value (nested n) = inl (SyntaxError "invalid character '[' exceeded max depth" 10001)).
Proof.
  unfold read_value, read_fuel. pose proof (length_nested n) as L.
  destruct (opens_first n (closes n)) as (c & r & E & _).
  change (opens n ++ "1" ++ closes n) with (nested n) in E. rewrite E.
  split; intros Hn.
  - pose proof (parse_nested n 0 (3 * String.length (nested n) + 1) EmptyString) as P.
    rewrite string_app_nil_r in P. unfold nested in P, L |- *. unfold max_nesting_depth in *.
    rewrite P; [reflexivity | lia | lia | left; reflexivity].
  - set (x := opens (n - S max_nesting_depth) ++ "1" ++ closes n).
    assert (Hs : nested n = opens max_nesting_depth ++ String "[" x).
    { unfold nested, x. replace n with (max_nesting_depth + S (n - S max_nesting_depth))%nat at 1
        by (unfold max_nesting_depth in *; lia).
      rewrite opens_add, string_app_assoc. reflexivity. }
    assert (Hp : parse_value (3 * String.length (nested n) + 1) 0 (nested n) =
                 SFail (SBad "[" "exceeded max depth" (String.length x)))
      by (rewrite Hs at 2; apply parse_too_deep; unfold max_nesting_depth in *; lia).
    rewrite Hp, Hs, length_opens. cbn [String.length].
    replace (max_nesting_depth + S (String.length x) - String.length x)%nat with (S max_nesting_depth) by lia.
    vm_compute. reflexivity.
Qed.

Lemma max_depth_bound_witness :
  ((3 <= max_nesting_depth)%nat -> read_value (nested 3) = inr (nest_value 3)) /\ (3 <= max_nesting_depth)%nat /\
  read_value (nested 3) = inr (nest_value 3).
Proof.
  split; [apply (proj1 (max_depth_bound 3))|]. split; [vm_compute; lia|].
  apply (proj1 (max_depth_bound 3)). vm_compute; lia.
Defined.

(** A reply of the weather service, [{"main":{"temp":300}}]. *)
Definition sample_body : string :=
  let q := String quote EmptyString in
  "{" ++ q ++ "main" ++ q ++ ":{" ++ q ++ "temp" ++ q ++ ":300}}".

Lemma read_value_sample_app (x : string) :
  read_value (sample_body ++ x) = inr (JObject [("main", JObject [("temp", JNumber "300")])]).
Proof. unfold read_value, read_fuel. simpl. reflexivity. Qed.

(** C15: [Decode] reads one value and leaves the rest of the body
    unread: whatever bytes follow a complete object, even text that is
    not JSON, the body decodes without error to the object's reading. *)
Theorem decode_body_ignores_trailing (x : string) :
  decode_body (sample_body ++ x) zero_WeatherResponse =
    (mkWeatherResponse (mkTemperature (F64.of_Z 300)), None).
Proof. unfold decode_body. rewrite read_value_sample_app. vm_compute. reflexivity. Qed.

(** [{"main":{"temp":"hot","temp":300}}]. *)
Definition mistyped_body : string :=
  let q := String quote EmptyString in
  "{" ++ q ++ "main" ++ q ++ ":{" ++ q ++ "temp" ++ q ++ ":" ++ q ++ "hot" ++ q ++ "," ++
  q ++ "temp" ++ q ++ ":300}}".

(** A mistyped [temp] followed by a well-typed one.  [Decode] sets
    [Temp] from the second member and still returns the type error of the
    first, with Go's message, so [fetchWeatherData] discards the reading
    and fails. *)
Example decode_body_mistyped :
  exists e,
    decode_body mistyped_body zero_WeatherResponse =
      (mkWeatherResponse (mkTemperature (F64.of_Z 300)), Some e) /\
    error_string e = "json: cannot unmarshal string into Go struct field Temperature.main.temp of type float64".
Proof. eexists. split; vm_compute; reflexivity. Qed.

End JsonRead.
