(* ===== verification/World.v ===== *)
(** * The process world main.go runs in

    The state the program reads and changes, threaded through the
    [St World] monad of the prelude:
    - [w_env]: the process environment ([os.Getenv], [os.Setenv]), a
      finite map from names to values;
    - [w_dotenv]: the [.env] file [godotenv.Load] reads: missing,
      unreadable, or the bytes it holds (parsed by [DotEnv]);
    - [w_net]: the network, an oracle giving the outcome of the [n]-th
      HTTP request by its URL (a transport error, or a status and a body);
      [w_requests] counts the requests made so far;
    - [w_trace]: everything the process writes, in order: [slog] records,
      HTTP requests, closes of response bodies and the text printed with
      [fmt.Printf] (the execution-time line);
    - [w_clock]: the monotonic clock, an oracle giving the [k]-th reading
      in nanoseconds; [w_clock_reads] counts the readings [main] has
      taken ([time.Now], [time.Since]).  The readings [slog] takes for
      its time stamps are part of the text rendering, which is not
      modelled.
    The [slog] logger of main.go ([slog.New(slog.NewTextHandler(os.Stdout,
    &slog.HandlerOptions{Level: slog.LevelDebug}))], line 50) writes a
    record when its level is at least the handler's level; a record is
    kept as its level, message and attributes (the text rendering is not
    modelled). *)

From S2P Require Import Prelude Float64.
From stdpp Require Import base gmap strings.
From Stdlib Require Import ZArith String.
Open Scope Z_scope.

Module World.
Import F64.

(** ** Logging *)

Inductive Level := LevelDebug | LevelInfo | LevelWarn | LevelError.

(** The integer value of a level in [log/slog]. *)
Definition level_value (l : Level) : Z :=
  match l with LevelDebug => -4 | LevelInfo => 0 | LevelWarn => 4 | LevelError => 8 end.

Inductive AttrValue := AString (s : string) | AFloat (f : float64).

(** A logger: its handler's minimum level. *)
Record Logger := mkLogger { min_level : Level }.

Definition enabled (lg : Logger) (l : Level) : bool :=
  level_value (min_level lg) <=? level_value l.

(** ** The process world *)

(** What the process writes, in order. *)
Inductive Event :=
| ELog (lvl : Level) (msg : string) (attrs : list (string * AttrValue))
| EHttpGet (req : nat) (url : string)
| EBodyClose (req : nat)
| EPrint (text : string).

(** The outcome of one [http.Get]: [err != nil], or a response. *)
Inductive HttpOutcome :=
| TransportError (msg : string)
| Response (status : Z) (body : string).

(** The [.env] file as [godotenv.Load] finds it. *)
Inductive DotEnv :=
| DotEnvMissing
| DotEnvInvalid (msg : string)
| DotEnvFile (contents : string).

Record World := mkWorld {
  w_env : gmap string string;
  w_dotenv : DotEnv;
  w_net : nat -> string -> HttpOutcome;
  w_requests : nat;
  w_trace : list Event;
  w_clock : nat -> Z;
  w_clock_reads : nat
}.

Definition set_env (e : gmap string string) (w : World) : World :=
  mkWorld e (w_dotenv w) (w_net w) (w_requests w) (w_trace w) (w_clock w) (w_clock_reads w).

Definition emit (ev : Event) : St World unit :=
  fun w => (tt, mkWorld (w_env w) (w_dotenv w) (w_net w) (w_requests w) (w_trace w ++ [ev]) (w_clock w) (w_clock_reads w)).

(** [logger.Info(msg, ...)], [logger.Error(msg, ...)]. *)
Definition log (lg : Logger) (lvl : Level) (msg : string) (attrs : list (string * AttrValue))
  : St World unit :=
  if enabled lg lvl then emit (ELog lvl msg attrs) else st_ret tt.

(** [os.Getenv(k)]: the empty string when [k] is not set. *)
Definition getenv (k : string) : St World string :=
  fun w => (default ""%string (w_env w !! k), w).

(** [http.Get(url)]: the request number and the network's outcome. *)
Definition http_get (url : string) : St World (nat * HttpOutcome) :=
  fun w =>
    let n := w_requests w in
    ((n, w_net w n url),
     mkWorld (w_env w) (w_dotenv w) (w_net w) (S n) (w_trace w ++ [EHttpGet n url]) (w_clock w) (w_clock_reads w)).

(** [time.Now()]: the next reading of the monotonic clock, in
    nanoseconds. *)
Definition time_now : St World Z :=
  fun w => (w_clock w (w_clock_reads w),
            mkWorld (w_env w) (w_dotenv w) (w_net w) (w_requests w) (w_trace w) (w_clock w) (S (w_clock_reads w))).

(** [resp.Body.Close()] of the [n]-th response. *)
Definition close_body (n : nat) : St World unit := emit (EBodyClose n).

(** ** Lemmas *)

Lemma emit_run (ev : Event) (w : World) :
  emit ev w = (tt, mkWorld (w_env w) (w_dotenv w) (w_net w) (w_requests w) (w_trace w ++ [ev]) (w_clock w) (w_clock_reads w)).
Proof. reflexivity. Qed.

Lemma log_run (lg : Logger) (lvl : Level) (msg : string) attrs (w : World) :
  log lg lvl msg attrs w =
  (tt, mkWorld (w_env w) (w_dotenv w) (w_net w) (w_requests w)
         (w_trace w ++ if enabled lg lvl then [ELog lvl msg attrs] else []) (w_clock w) (w_clock_reads w)).
Proof. unfold log. destruct (enabled lg lvl); [reflexivity|]. destruct w; simpl. rewrite app_nil_r. reflexivity. Qed.

(** A handler at [LevelDebug] writes every record. *)
Lemma enabled_debug (l : Level) : enabled (mkLogger LevelDebug) l = true.
Proof. destruct l; reflexivity. Qed.

End World.
