(* ===== verification/Fetch.v ===== *)
(** * The weather fetcher: [fetchWeatherData] (main.go lines 23-41)

    [fetchWeatherData(lat, lon, apiKey, logger)]:
    - formats the request URL with [fmt.Sprintf] and three [%s] verbs,
      which insert the strings as they are (no query escaping);
    - calls [http.Get(url)]; on a transport error it logs "Error making
      HTTP request" at level Error and returns the error;
    - defers [resp.Body.Close()] and decodes the body into a zero
      [WeatherResponse]; on a decoding error it logs "Error decoding JSON
      response" and returns the error, the deferred close running after
      the log;
    - otherwise returns [&weatherResponse.Main].
    The status code of the response is never looked at.

    [Fetcher] is the contract the driver relies on: one call makes
    exactly one request, to the URL built from its arguments, and its
    result and output are functions of the network's answer to that
    request ([fetch_result], [fetch_events]); it writes at most one
    record, of level Error, exactly when it fails.  [fetchWeatherData]
    is an instance ([FetchWeatherData]). *)

From S2P Require Import Prelude Float64 Json JsonText JsonRead World.
From stdpp Require Import base gmap strings.
From Stdlib Require Import ZArith String List.
Import ListNotations.
Open Scope string_scope.

Module Fetch.
Import F64 Json JsonText JsonRead World.

(** [fmt.Sprintf("https://api.openweathermap.org/data/2.5/weather?lat=%s&lon=%s&appid=%s", lat, lon, apiKey)] *)
Definition weather_url (lat lon apiKey : string) : string :=
  "https://api.openweathermap.org/data/2.5/weather?lat=" ++ lat ++ "&lon=" ++ lon ++
  "&appid=" ++ apiKey.

(** The errors [fetchWeatherData] returns. *)
Inductive FetchError :=
| FetchTransport (msg : string)
| FetchDecode (e : DecodeError).

(** [err.Error()]. *)
Definition fetch_error_string (e : FetchError) : string :=
  match e with
  | FetchTransport msg => msg
  | FetchDecode d => error_string d
  end.

(** [fetchWeatherData] (lines 23-41). *)
Definition fetchWeatherData (lat lon apiKey : string) (logger : Logger)
  : St World (FetchError + Temperature) :=
  let url := weather_url lat lon apiKey in
  let weatherResponse := zero_WeatherResponse in
  let* r := http_get url in
  let '(req, resp) := r in
  match resp with
  | TransportError msg =>
      log logger LevelError "Error making HTTP request" [("error", AString msg)] ;;;
      st_ret (inl (FetchTransport msg))
  | Response _ body =>
      let '(weatherResponse', err) := decode_body body weatherResponse in
      match err with
      | Some e =>
          log logger LevelError "Error decoding JSON response" [("error", AString (error_string e))] ;;;
          close_body req ;;;
          st_ret (inl (FetchDecode e))
      | None =>
          close_body req ;;;
          st_ret (inr (Main weatherResponse'))
      end
  end.

(** ** The contract of a fetcher *)

Definition is_request (ev : Event) : bool :=
  match ev with EHttpGet _ _ => true | _ => false end.

Definition is_error_record (ev : Event) : bool :=
  match ev with ELog LevelError _ _ => true | _ => false end.

Definition is_record (ev : Event) : bool :=
  match ev with ELog _ _ _ => true | _ => false end.

Definition is_close_of (n : nat) (ev : Event) : bool :=
  match ev with EBodyClose m => Nat.eqb m n | _ => false end.

Definition is_failure {A B : Type} (r : A + B) : bool :=
  match r with inl _ => true | inr _ => false end.

Class Fetcher := {
  fetch : string -> string -> string -> Logger -> St World (FetchError + Temperature);
  (** the result for the network's answer *)
  fetch_result : HttpOutcome -> FetchError + Temperature;
  (** what one call writes: logger, request number, URL, answer *)
  fetch_events : Logger -> nat -> string -> HttpOutcome -> list Event;
  fetch_step : forall lat lon key lg w,
    let url := weather_url lat lon key in
    let out := w_net w (w_requests w) url in
    fetch lat lon key lg w =
      (fetch_result out,
       mkWorld (w_env w) (w_dotenv w) (w_net w) (S (w_requests w))
         (w_trace w ++ fetch_events lg (w_requests w) url out) (w_clock w) (w_clock_reads w));
  fetch_one_request : forall lg n url out,
    exists rest, fetch_events lg n url out = EHttpGet n url :: rest /\
                 Forall (fun ev => is_request ev = false) rest;
  (** the messages of the records it may write *)
  fetch_messages : list string;
  fetch_records : forall lg n url out,
    count_if is_record (fetch_events lg n url out) =
      (if is_failure (fetch_result out) && enabled lg LevelError then 1 else 0)%nat /\
    Forall (fun ev => match ev with
                      | ELog lvl msg _ => lvl = LevelError /\ In msg fetch_messages
                      | _ => True
                      end) (fetch_events lg n url out);
  (** it closes at most the body of its own request, at most once *)
  fetch_closes : forall lg n url out m,
    (count_if (is_close_of m) (fetch_events lg n url out) <= if Nat.eqb m n then 1 else 0)%nat
}.

(** ** [fetchWeatherData] meets the contract *)

Definition fetch_result_impl (out : HttpOutcome) : FetchError + Temperature :=
  match out with
  | TransportError msg => inl (FetchTransport msg)
  | Response _ body =>
      let '(w', err) := decode_body body zero_WeatherResponse in
      match err with
      | Some e => inl (FetchDecode e)
      | None => inr (Main w')
      end
  end.

Definition when_enabled (lg : Logger) (ev : Event) : list Event :=
  match ev with
  | ELog lvl _ _ => if enabled lg lvl then [ev] else []
  | _ => [ev]
  end.

Definition fetch_events_impl (lg : Logger) (n : nat) (url : string) (out : HttpOutcome) : list Event :=
  EHttpGet n url ::
  match out with
  | TransportError msg =>
      when_enabled lg (ELog LevelError "Error making HTTP request" [("error", AString msg)])
  | Response _ body =>
      let '(_, err) := decode_body body zero_WeatherResponse in
      match err with
      | Some e =>
          when_enabled lg (ELog LevelError "Error decoding JSON response" [("error", AString (error_string e))])
          ++ [EBodyClose n]
      | None => [EBodyClose n]
      end
  end.

Lemma fetchWeatherData_step (lat lon key : string) (lg : Logger) (w : World) :
  let url := weather_url lat lon key in
  let out := w_net w (w_requests w) url in
  fetchWeatherData lat lon key lg w =
    (fetch_result_impl out,
     mkWorld (w_env w) (w_dotenv w) (w_net w) (S (w_requests w))
       (w_trace w ++ fetch_events_impl lg (w_requests w) url out) (w_clock w) (w_clock_reads w)).
Proof.
  cbv zeta. unfold fetchWeatherData, fetch_result_impl, fetch_events_impl, http_get, st_bind, st_ret.
  simpl. destruct (w_net w (w_requests w) (weather_url lat lon key)) as [msg|st body];
    [|destruct (decode_body body zero_WeatherResponse) as [w' [e|]]];
    rewrite ?log_run; unfold close_body, emit, when_enabled; simpl;
    rewrite <- ?app_assoc; destruct (enabled lg LevelError); reflexivity.
Qed.

(** The cases of the answer that [fetchWeatherData] distinguishes. *)
Ltac fetch_cases out :=
  destruct out as [?msg|?st ?body];
  [|destruct (decode_body _ zero_WeatherResponse) as [? [?e|]]];
  unfold when_enabled.

Lemma fetch_events_impl_one_request (lg : Logger) (n : nat) (url : string) (out : HttpOutcome) :
  exists rest, fetch_events_impl lg n url out = EHttpGet n url :: rest /\
               Forall (fun ev => is_request ev = false) rest.
Proof.
  eexists; split; [reflexivity|]. unfold fetch_events_impl.
  fetch_cases out; destruct (enabled lg LevelError); simpl; repeat constructor.
Qed.

Definition fetch_messages_impl : list string :=
  ["Error making HTTP request"; "Error decoding JSON response"].

Lemma fetch_events_impl_records (lg : Logger) (n : nat) (url : string) (out : HttpOutcome) :
  count_if is_record (fetch_events_impl lg n url out) =
    (if is_failure (fetch_result_impl out) && enabled lg LevelError then 1 else 0)%nat /\
  Forall (fun ev => match ev with
                    | ELog lvl msg _ => lvl = LevelError /\ In msg fetch_messages_impl
                    | _ => True
                    end) (fetch_events_impl lg n url out).
Proof.
  unfold fetch_events_impl, fetch_result_impl.
  fetch_cases out; destruct (enabled lg LevelError); simpl;
    (split; [reflexivity|]); rewrite List.Forall_forall; intros ev Hin; simpl in Hin;
    repeat (destruct Hin as [<-|Hin]; [simpl; tauto|]); contradiction.
Qed.

Lemma fetch_events_impl_closes (lg : Logger) (n : nat) (url : string) (out : HttpOutcome) (m : nat) :
  (count_if (is_close_of m) (fetch_events_impl lg n url out) <= if Nat.eqb m n then 1 else 0)%nat.
Proof.
  unfold fetch_events_impl, count_if.
  fetch_cases out; destruct (enabled lg LevelError); simpl; rewrite ?(Nat.eqb_sym n m);
    destruct (Nat.eqb m n); simpl; lia.
Qed.

#[export] Instance FetchWeatherData : Fetcher := {|
  fetch := fetchWeatherData;
  fetch_result := fetch_result_impl;
  fetch_events := fetch_events_impl;
  fetch_step := fetchWeatherData_step;
  fetch_one_request := fetch_events_impl_one_request;
  fetch_messages := fetch_messages_impl;
  fetch_records := fetch_events_impl_records;
  fetch_closes := fetch_events_impl_closes
|}.

(** ** Theorems *)

Definition is_response (out : HttpOutcome) : bool :=
  match out with Response _ _ => true | TransportError _ => false end.

(** C9: the deferred [resp.Body.Close()] runs exactly once for every
    response obtained and never without one: a call appends to the
    output one request and then, when [http.Get] returned a response,
    exactly one close of that response's body as its last event, after
    the failure record if decoding failed. *)
Theorem fetch_closes_body (lat lon key : string) (lg : Logger) (w : World) :
  let n := w_requests w in
  let out := w_net w n (weather_url lat lon key) in
  exists evs,
    w_trace (snd (fetchWeatherData lat lon key lg w)) = (w_trace w ++ evs)%list /\
    count_if (is_close_of n) evs = (if is_response out then 1 else 0)%nat /\
    (is_response out = true -> exists pre, evs = (pre ++ [EBodyClose n])%list).
Proof.
  cbv zeta. rewrite fetchWeatherData_step. simpl.
  eexists; split; [reflexivity|]. unfold fetch_events_impl.
  fetch_cases (w_net w (w_requests w) (weather_url lat lon key));
    destruct (enabled lg LevelError); unfold count_if; simpl; rewrite ?Nat.eqb_refl;
    (split; [reflexivity | try discriminate]); intros _;
    match goal with |- exists pre, ?l = _ => exists (removelast l) end; reflexivity.
Qed.

(** The reply of the weather service to a request with a missing or
    invalid key (status 401). *)
Definition unauthorized_body : string :=
  let q := String (Ascii.ascii_of_nat 34) EmptyString in
  "{" ++ q ++ "cod" ++ q ++ ":401, " ++ q ++ "message" ++ q ++ ": " ++ q ++
  "Invalid API key. Please see https://openweathermap.org/faq#error401 for more info." ++ q ++ "}".

(** C10: the status code is never checked.  Whatever the status, when the
    service answers with its 401 error body the fetch succeeds and
    returns a temperature of 0 K, which the driver logs as -273.15.  The
    spec lists only transport and decoding failures. *)
Theorem fetch_unauthorized_zero (lat lon key : string) (lg : Logger) (w : World) (status : Z) :
  w_net w (w_requests w) (weather_url lat lon key) = Response status unauthorized_body ->
  fst (fetchWeatherData lat lon key lg w) = inr (mkTemperature zero).
Proof.
  intros Hnet. rewrite fetchWeatherData_step. simpl. rewrite Hnet. vm_compute. reflexivity.
Qed.

Lemma fetch_unauthorized_zero_witness :
  let w := mkWorld ∅ DotEnvMissing (fun _ _ => Response 401 unauthorized_body) 0 [] (fun _ => 0%Z) 0 in
  w_net w (w_requests w) (weather_url "6.9271" "79.8612" "") = Response 401 unauthorized_body /\
  fst (fetchWeatherData "6.9271" "79.8612" "" (mkLogger LevelDebug) w) = inr (mkTemperature zero).
Proof.
  cbv zeta. split; [reflexivity|].
  apply (fetch_unauthorized_zero _ _ _ _ _ 401). reflexivity.
Defined.

(** C11: the arguments are inserted into the URL unescaped, so the URL
    does not determine them: for all strings, a longitude that carries
    [&appid=] and more requests the same URL as the longitude alone with
    that text moved in front of the key, and a latitude that carries
    [&lon=] the same URL as a longitude that starts with it.  An
    escaping [url.QueryEscape] of each argument would tell them apart. *)
Theorem weather_url_not_injective (lat lon key x : string) :
  weather_url lat (lon ++ "&appid=" ++ x) key = weather_url lat lon (x ++ "&appid=" ++ key) /\
  weather_url (lat ++ "&lon=" ++ x) lon key = weather_url lat (x ++ "&lon=" ++ lon) key /\
  (lon ++ "&appid=" ++ x)%string <> lon /\ (lat ++ "&lon=" ++ x)%string <> lat.
Proof.
  unfold weather_url. split; [|split]; [rewrite !string_app_assoc; reflexivity
                                     | rewrite !string_app_assoc; reflexivity|].
  split; intros E; apply (f_equal String.length) in E; rewrite !string_length_app in E; simpl in E; lia.
Qed.

End Fetch.
