(* ===== verification/Driver.v ===== *)
(** * The driver: [main] (main.go lines 43-81)

    [main] in order:
    - starts a timer and defers the print of the elapsed time (lines
      45-48): the last thing the process writes;
    - builds the logger at [LevelDebug] (line 50);
    - [godotenv.Load()] (lines 52-56): the text of [.env] is parsed
      ([DotEnv.load_env]); an error of the file or of the parser is
      logged and ignored; otherwise the parsed variables are added to
      the environment, except for names the environment already has
      ([godotenv_Load]);
    - logs "Application started" and defers "Application stopped"
      (lines 58-59);
    - reads [API_KEY] (line 61), the empty string when unset;
    - builds the registry [cities] of four entries (lines 63-68), a Go
      map, here a [gmap];
    - ranges over the map (lines 70-80).  Go does not specify the order
      of a map range, so [main_with_order] takes the order as an
      argument and [main_runs] relates a world to the worlds every order
      that is a permutation of the map's entries produces.  Each
      iteration ([city_iteration]) fetches the city, logs the failure
      with the city name and continues, or converts the reading to
      Celsius, rounds it and logs it.

    The driver is written against the [Fetcher] contract in a section,
    so its theorems hold for any fetcher that meets it;
    [fetchWeatherData] is the one main.go uses. *)

From S2P Require Import Prelude Float64 GoMath Rounding Json JsonText JsonRead DotEnv World Fetch Duration.
From stdpp Require Import base gmap strings list.
From Stdlib Require Import ZArith String.


Module Driver.
Import F64 Rounding Json World Fetch Duration.

(** ** [godotenv.Load()] *)

(** Load [.env] ([Load] -> [loadFile(".env", false)]): the error of
    [os.Open] or of the parser, or the environment with the file's names
    it does not have yet set ([DotEnv.load_env]). *)
Definition godotenv_Load : St World (option string) :=
  fun w =>
    match w_dotenv w with
    | DotEnvMissing => (Some "open .env: no such file or directory", w)
    | DotEnvInvalid msg => (Some msg, w)
    | DotEnvFile src =>
        match DotEnv.load_env (w_env w) src with
        | DotEnv.Success env' => (None, set_env env' w)
        | DotEnv.Failure e => (Some (DotEnv.error_string e), w)
        end
    end.

(** ** The registry (lines 63-68) *)

Definition cities : gmap string (string * string) :=
  <["Tokyo" := ("35.6895", "139.6917")]>
  (<["London" := ("51.5074", "-0.1278")]>
  (<["New York" := ("40.7128", "-74.0060")]>
  (<["Colombo" := ("6.9271", "79.8612")]> ∅))).

(** ** The loop and [main] *)

Definition msg_success : string := "Fetched weather data successfully".
Definition msg_failure : string := "Failed to fetch weather data".
Definition attr_celsius : string := "temperature(°C)".

Section Driver.
Context `{F : Fetcher}.

(** The record an iteration writes for [cityName] after the fetch
    returned [r] (lines 72-79). *)
Definition city_record (cityName : string) (r : FetchError + Temperature) : Event :=
  match r with
  | inl err =>
      ELog LevelError msg_failure [("error", AString (fetch_error_string err)); ("city", AString cityName)]
  | inr temperature =>
      ELog LevelInfo msg_success
        [("city", AString cityName); (attr_celsius, AFloat (celsius_round (Temp temperature)))]
  end.

(** One iteration of [for cityName, city := range cities] (lines 70-80). *)
Definition city_iteration (apiKey : string) (logger : Logger)
           (entry : string * (string * string)) : St World unit :=
  let '(cityName, city) := entry in
  let* r := fetch city.1 city.2 apiKey logger in
  match r with
  | inl err =>
      log logger LevelError msg_failure [("error", AString (fetch_error_string err)); ("city", AString cityName)]
  | inr temperature =>
      let tempC := to_celsius (Temp temperature) in
      log logger LevelInfo msg_success [("city", AString cityName); (attr_celsius, AFloat (round tempC 2 "round"))]
  end.

(** The record of the outcome of [godotenv.Load()] (lines 52-56). *)
Definition report_load (logger : Logger) (loaded : option string) : St World unit :=
  match loaded with
  | Some err => log logger LevelError "Error loading .env file" [("error", AString err)]
  | None => log logger LevelInfo ".env file loaded successfully" []
  end.

(** The deferred closure of lines 46-48: it reads the clock again and
    prints [time.Since(startNow)] with [%s], a [Duration]'s [String]. *)
Definition print_elapsed (startNow : Z) : St World unit :=
  let* endNow := time_now in
  emit (EPrint (exec_time_line (sub_mono endNow startNow))).

(** [main] for a given iteration order of the map. *)
Definition main_with_order (order : list (string * (string * string))) : St World unit :=
  let* startNow := time_now in
  let logger := mkLogger LevelDebug in
  let* loaded := godotenv_Load in
  report_load logger loaded ;;;
  log logger LevelInfo "Application started" [] ;;;
  let* apiKey := getenv "API_KEY" in
  st_for (city_iteration apiKey logger) order ;;;
  log logger LevelInfo "Application stopped" [] ;;;
  print_elapsed startNow.

(** Go's map range: any order of the entries. *)
Definition main_runs (w w' : World) : Prop :=
  exists order, Permutation order (map_to_list cities) /\ snd (main_with_order order w) = w'.

(** ** What a run writes *)

(** The output of the loop from request number [n] on, for the network
    [net] and the key [key]. *)
Fixpoint loop_events (net : nat -> string -> HttpOutcome) (key : string) (lg : Logger)
         (n : nat) (order : list (string * (string * string))) : list Event :=
  match order with
  | [] => []
  | (name, (lat, lon)) :: rest =>
      let url := weather_url lat lon key in
      fetch_events lg n url (net n url) ++ when_enabled lg (city_record name (fetch_result (net n url)))
      ++ loop_events net key lg (S n) rest
  end.

(** The environment after [godotenv.Load()] and the record [main] writes
    about it. *)
Definition env_after_load (w : World) : gmap string string :=
  match w_dotenv w with
  | DotEnvFile src =>
      match DotEnv.load_env (w_env w) src with DotEnv.Success env' => env' | DotEnv.Failure _ => w_env w end
  | _ => w_env w
  end.

Definition load_record (w : World) : Event :=
  match w_dotenv w with
  | DotEnvMissing => ELog LevelError "Error loading .env file" [("error", AString "open .env: no such file or directory")]
  | DotEnvInvalid msg => ELog LevelError "Error loading .env file" [("error", AString msg)]
  | DotEnvFile src =>
      match DotEnv.load_env (w_env w) src with
      | DotEnv.Success _ => ELog LevelInfo ".env file loaded successfully" []
      | DotEnv.Failure e => ELog LevelError "Error loading .env file" [("error", AString (DotEnv.error_string e))]
      end
  end.

(** The key [main] sends: [os.Getenv("API_KEY")] after [godotenv.Load()]
    (lines 52-61; the records written in between do not touch the
    environment). *)
Definition api_key (w : World) : string := fst ((godotenv_Load ;;; getenv "API_KEY") w).

Lemma api_key_env (w : World) : api_key w = default "" (env_after_load w !! "API_KEY").
Proof.
  unfold api_key, godotenv_Load, env_after_load, st_bind.
  destruct (w_dotenv w); [| |destruct (DotEnv.load_env _ _)]; reflexivity.
Qed.

Lemma city_iteration_run (key : string) (lg : Logger) (name lat lon : string) (w : World) :
  let url := weather_url lat lon key in
  let out := w_net w (w_requests w) url in
  city_iteration key lg (name, (lat, lon)) w =
    (tt, mkWorld (w_env w) (w_dotenv w) (w_net w) (S (w_requests w))
           (w_trace w ++ fetch_events lg (w_requests w) url out
                      ++ when_enabled lg (city_record name (fetch_result out))) (w_clock w) (w_clock_reads w)).
Proof.
  cbv zeta. unfold city_iteration, st_bind. simpl. rewrite fetch_step. simpl.
  destruct (fetch_result _); rewrite log_run; simpl; rewrite <- app_assoc; reflexivity.
Qed.

Lemma loop_run (key : string) (lg : Logger) (order : list (string * (string * string))) (w : World) :
  st_for (city_iteration key lg) order w =
    (tt, mkWorld (w_env w) (w_dotenv w) (w_net w) (w_requests w + List.length order)
           (w_trace w ++ loop_events (w_net w) key lg (w_requests w) order) (w_clock w) (w_clock_reads w)).
Proof.
  revert w. induction order as [|[name [lat lon]] order IH]; intros w.
  - simpl. rewrite Nat.add_0_r, app_nil_r. destruct w; reflexivity.
  - change (st_for (city_iteration key lg) ((name, (lat, lon)) :: order) w) with
      (st_bind (city_iteration key lg (name, (lat, lon))) (fun _ => st_for (city_iteration key lg) order) w).
    unfold st_bind at 1. rewrite city_iteration_run, IH. simpl.
    rewrite <- !app_assoc. do 2 f_equal. lia.
Qed.

(** The duration [time.Since(startNow)] returns: the two clock readings
    [main] takes, the first at its start and the second in its deferred
    function. *)
Definition elapsed (w : World) : Z :=
  sub_mono (w_clock w (S (w_clock_reads w))) (w_clock w (w_clock_reads w)).

(** The whole run: the load record, "Application started", the loop,
    "Application stopped", the time line. *)
Lemma main_run (order : list (string * (string * string))) (w : World) :
  main_with_order order w =
    (tt, mkWorld (env_after_load w) (w_dotenv w) (w_net w) (w_requests w + List.length order)
           (w_trace w ++ [load_record w; ELog LevelInfo "Application started" []]
                      ++ loop_events (w_net w) (api_key w) (mkLogger LevelDebug) (w_requests w) order
                      ++ [ELog LevelInfo "Application stopped" []; EPrint (exec_time_line (elapsed w))])
           (w_clock w) (S (S (w_clock_reads w)))).
Proof.
  rewrite api_key_env. unfold main_with_order, print_elapsed, report_load, godotenv_Load, env_after_load, load_record, elapsed, st_bind, time_now.
  destruct w as [env dot net reqs tr clk rd]; simpl.
  destruct dot as [| |src]; [| |destruct (DotEnv.load_env env src)]; rewrite !log_run; simpl; unfold getenv; simpl; rewrite loop_run; simpl;
    unfold emit; simpl; rewrite <- !app_assoc; reflexivity.
Qed.

(** ** Classifying the output *)

Definition is_success_record (ev : Event) : bool :=
  match ev with ELog LevelInfo msg _ => String.eqb msg msg_success | _ => false end.

Definition is_failure_record (ev : Event) : bool :=
  match ev with ELog LevelError msg _ => String.eqb msg msg_failure | _ => false end.

Definition is_city_record (ev : Event) : bool := is_success_record ev || is_failure_record ev.

Definition request_url (ev : Event) : string :=
  match ev with EHttpGet _ u => u | _ => "" end.

(** The number of cities whose fetch fails, from request [n] on. *)
Fixpoint loop_failures (net : nat -> string -> HttpOutcome) (key : string) (n : nat)
         (order : list (string * (string * string))) : nat :=
  match order with
  | [] => 0
  | (_, (lat, lon)) :: rest =>
      (if is_failure (fetch_result (net n (weather_url lat lon key))) then 1 else 0)
      + loop_failures net key (S n) rest
  end.

(** The fetcher's own records are not the driver's. *)
Hypothesis fetch_messages_not_driver : ~ In msg_success fetch_messages /\ ~ In msg_failure fetch_messages.

Definition debug : Logger := mkLogger LevelDebug.

Lemma fetch_events_not_city (lg : Logger) (n : nat) (url : string) (out : HttpOutcome) :
  Forall (fun ev => is_city_record ev = false /\ is_error_record ev = is_record ev)
    (fetch_events lg n url out).
Proof.
  destruct (fetch_records lg n url out) as [_ Hall].
  eapply Forall_impl; [exact Hall|]. intros [lvl msg attrs| | |]; try (intros; split; reflexivity).
  intros [-> Hin]. unfold is_city_record, is_success_record, is_failure_record. simpl. split; [|reflexivity].
  destruct (String.eqb_spec msg msg_failure) as [->|]; [|reflexivity].
  exfalso. apply fetch_messages_not_driver. exact Hin.
Qed.

Lemma fetch_events_no_request_after (lg : Logger) (n : nat) (url : string) (out : HttpOutcome) :
  map request_url (List.filter is_request (fetch_events lg n url out)) = [url].
Proof.
  destruct (fetch_one_request lg n url out) as [rest [-> Hrest]]. simpl.
  rewrite filter_all_false by exact Hrest. reflexivity.
Qed.

Lemma city_record_class (name : string) (r : FetchError + Temperature) :
  is_success_record (city_record name r) = negb (is_failure r) /\
  is_failure_record (city_record name r) = is_failure r /\
  is_error_record (city_record name r) = is_failure r /\
  is_request (city_record name r) = false.
Proof. destruct r; repeat split. Qed.

(** The loop writes one success or failure record per city, and one
    more error record per failing city (the fetcher's). *)
Lemma loop_counts (net : nat -> string -> HttpOutcome) (key : string) (n : nat)
      (order : list (string * (string * string))) :
  let evs := loop_events net key debug n order in
  count_if is_success_record evs = List.length order - loop_failures net key n order /\
  count_if is_failure_record evs = loop_failures net key n order /\
  count_if is_error_record evs = 2 * loop_failures net key n order /\
  loop_failures net key n order <= List.length order.
Proof.
  cbv zeta. revert n. induction order as [|[name [lat lon]] order IH]; intros n;
    [unfold count_if; simpl; lia|].
  simpl. rewrite !count_if_app.
  pose proof (fetch_events_not_city debug n (weather_url lat lon key) (net n (weather_url lat lon key))) as Hf.
  rewrite (count_if_false is_success_record), (count_if_false is_failure_record)
    by (eapply Forall_impl; [exact Hf|]; intros ev [Hc _];
        unfold is_city_record in Hc; apply Bool.orb_false_iff in Hc; tauto).
  rewrite (count_if_ext is_error_record is_record) by (eapply Forall_impl; [exact Hf|]; intros ev [_ He]; exact He).
  destruct (fetch_records debug n (weather_url lat lon key) (net n (weather_url lat lon key))) as [Hcnt _].
  rewrite Hcnt. destruct (IH (S n)) as (H1 & H2 & H3 & H4).
  destruct (city_record_class name (fetch_result (net n (weather_url lat lon key)))) as (C1 & C2 & C3 & _).
  unfold when_enabled. simpl.
  destruct (is_failure (fetch_result (net n (weather_url lat lon key)))) eqn:Ef;
    destruct (fetch_result (net n (weather_url lat lon key))); simpl in *; try discriminate;
    rewrite ?count_if_cons, ?C1, ?C2, ?C3; simpl; lia.
Qed.

(** The events of a run after the ones already in the trace. *)
Definition run_events (order : list (string * (string * string))) (w : World) : list Event :=
  [load_record w; ELog LevelInfo "Application started" []]
  ++ loop_events (w_net w) (api_key w) debug (w_requests w) order
  ++ [ELog LevelInfo "Application stopped" []; EPrint (exec_time_line (elapsed w))].

Lemma main_trace (order : list (string * (string * string))) (w : World) :
  w_trace (snd (main_with_order order w)) = w_trace w ++ run_events order w.
Proof. rewrite main_run. reflexivity. Qed.

Definition dotenv_failed (w : World) : nat :=
  match w_dotenv w with
  | DotEnvFile src => match DotEnv.load_env (w_env w) src with DotEnv.Success _ => 0 | DotEnv.Failure _ => 1 end
  | _ => 1
  end.

Lemma length_cities : List.length (map_to_list cities) = 4%nat.
Proof. reflexivity. Qed.

Lemma load_record_class (w : World) :
  is_success_record (load_record w) = false /\ is_failure_record (load_record w) = false /\
  is_city_record (load_record w) = false /\ is_request (load_record w) = false /\
  (if is_error_record (load_record w) then 1 else 0)%nat = dotenv_failed w.
Proof. unfold load_record, dotenv_failed. destruct (w_dotenv w); [| |destruct (DotEnv.load_env _ _)]; repeat split. Qed.

(** C2: with [M] the number of cities whose fetch fails, a run writes
    [4 - M] success records and [M] failure records naming their city,
    whatever the iteration order, and [2 M] error records for the cities
    (the fetcher's and the driver's) plus one when [.env] cannot be
    loaded.  The spec (section 8) expects [M] error lines. *)
Theorem main_record_counts (order : list (string * (string * string))) (w : World) :
  Permutation order (map_to_list cities) ->
  let M := loop_failures (w_net w) (api_key w) (w_requests w) order in
  exists evs, w_trace (snd (main_with_order order w)) = w_trace w ++ evs /\
  count_if is_success_record evs = (4 - M)%nat /\
  count_if is_failure_record evs = M /\
  count_if is_error_record evs = (2 * M + dotenv_failed w)%nat /\
  (M <= 4)%nat.
Proof.
  intros Hperm. cbv zeta. exists (run_events order w). split; [apply main_trace|]. apply Permutation_length in Hperm. rewrite length_cities in Hperm.
  destruct (loop_counts (w_net w) (api_key w) (w_requests w) order) as (H1 & H2 & H3 & H4).
  destruct (load_record_class w) as (L1 & L2 & _ & _ & L5).
  unfold run_events. rewrite !count_if_app, H1, H2, H3, !count_if_cons, L1, L2.
  rewrite !count_if_nil, L5. simpl. lia.
Qed.

Definition stateless (net : nat -> string -> HttpOutcome) : Prop :=
  forall n url, net n url = net 0 url.

(** The spec's view of one city: the record for the answer the network
    gives to the city's URL. *)
Definition spec_city_record (net : string -> HttpOutcome) (key : string)
           (entry : string * (string * string)) : Event :=
  let '(name, (lat, lon)) := entry in
  city_record name (fetch_result (net (weather_url lat lon key))).

Lemma loop_city_records (net : nat -> string -> HttpOutcome) (key : string) (n : nat)
      (order : list (string * (string * string))) :
  stateless net ->
  List.filter is_city_record (loop_events net key debug n order) = map (spec_city_record (net 0) key) order.
Proof.
  intros Hnet. revert n. induction order as [|[name [lat lon]] order IH]; intros n; [reflexivity|].
  simpl. rewrite !List.filter_app, IH.
  rewrite filter_all_false
    by (eapply Forall_impl; [apply fetch_events_not_city|]; intros ev [Hc _]; exact Hc).
  destruct (city_record_class name (fetch_result (net n (weather_url lat lon key)))) as (C1 & C2 & _ & _).
  unfold when_enabled. destruct (fetch_result (net n (weather_url lat lon key))) eqn:E; simpl;
    rewrite ?enabled_debug; simpl; unfold is_city_record; simpl in C1, C2 |- *; rewrite ?C1, ?C2; simpl;
    rewrite <- (Hnet n (weather_url lat lon key)), E; reflexivity.
Qed.

(** The city records of the events a run appends. *)
Lemma run_city_records (order : list (string * (string * string))) (w : World) :
  stateless (w_net w) ->
  Permutation order (map_to_list cities) ->
  Permutation (List.filter is_city_record (run_events order w))
              (map (spec_city_record (w_net w 0) (api_key w)) (map_to_list cities)).
Proof.
  intros Hnet Hperm. unfold run_events. rewrite !List.filter_app.
  destruct (load_record_class w) as (_ & _ & L3 & _ & _). simpl. rewrite L3. simpl.
  rewrite loop_city_records by exact Hnet. rewrite app_nil_r.
  apply Permutation_map. exact Hperm.
Qed.

(** C1: the driver implements the spec's loop.  When the network answers
    a URL the same way whenever it is asked, the records a run writes
    about cities are, for every iteration order of the map, one per
    registry entry: the success record with the rounded Celsius reading,
    or the failure record with the error, for the answer to that city's
    URL.  Up to order they do not depend on the order Go picks. *)
Theorem main_city_records (order : list (string * (string * string))) (w : World) :
  stateless (w_net w) ->
  Permutation order (map_to_list cities) ->
  exists evs, w_trace (snd (main_with_order order w)) = w_trace w ++ evs /\
  Permutation (List.filter is_city_record evs)
              (map (spec_city_record (w_net w 0) (api_key w)) (map_to_list cities)).
Proof.
  intros Hnet Hperm. exists (run_events order w).
  split; [apply main_trace | apply run_city_records; assumption].
Qed.

(** The URL of a registry entry. *)
Definition entry_url (key : string) (entry : string * (string * string)) : string :=
  weather_url entry.2.1 entry.2.2 key.

Lemma loop_requests (net : nat -> string -> HttpOutcome) (key : string) (lg : Logger) (n : nat)
      (order : list (string * (string * string))) :
  map request_url (List.filter is_request (loop_events net key lg n order)) = map (entry_url key) order.
Proof.
  revert n. induction order as [|[name [lat lon]] order IH]; intros n; [reflexivity|].
  simpl. rewrite !List.filter_app, !map_app, IH, fetch_events_no_request_after.
  unfold when_enabled, city_record.
  destruct (fetch_result (net n (weather_url lat lon key))); destruct_ifs; reflexivity.
Qed.

(** C3: a run always completes, whatever the fetches return: it makes
    exactly one request per registry entry, to that city's URL with the
    configured key, and ends with "Application stopped" followed by the
    execution-time line (the two deferred calls, in reverse order of
    registration). *)
Theorem main_completes (order : list (string * (string * string))) (w : World) :
  Permutation order (map_to_list cities) ->
  exists evs, w_trace (snd (main_with_order order w)) = w_trace w ++ evs /\
  Permutation (map request_url (List.filter is_request evs))
              (map (entry_url (api_key w)) (map_to_list cities)) /\
  exists pre, evs = pre ++ [ELog LevelInfo "Application stopped" []; EPrint (exec_time_line (elapsed w))].
Proof.
  intros Hperm. exists (run_events order w). split; [apply main_trace|]. split.
  - unfold run_events. rewrite !List.filter_app, !map_app.
    destruct (load_record_class w) as (_ & _ & _ & L4 & _). simpl. rewrite L4. simpl.
    rewrite loop_requests, app_nil_r. apply Permutation_map. exact Hperm.
  - exists ([load_record w; ELog LevelInfo "Application started" []]
            ++ loop_events (w_net w) (api_key w) debug (w_requests w) order).
    unfold run_events. rewrite app_assoc. reflexivity.
Qed.

(** C24: the last line [main] prints is the time it took.  When the two
    readings of the clock (line 45 and line 47) are [int64] times that do
    not go backwards, [time.Since(startNow)] is their difference, clamped
    to [maxDuration] if it does not fit, and the deferred closure prints
    it as "Execution time: " followed by the [Duration]'s text. *)
Theorem main_prints_elapsed (order : list (string * (string * string))) (w : World) :
  (min_int64 <= w_clock w (w_clock_reads w) <= max_int64)%Z ->
  (min_int64 <= w_clock w (S (w_clock_reads w)) <= max_int64)%Z ->
  (w_clock w (w_clock_reads w) <= w_clock w (S (w_clock_reads w)))%Z ->
  exists pre, w_trace (snd (main_with_order order w)) =
    pre ++ [EPrint (exec_time_line
                      (Z.min max_int64 (w_clock w (S (w_clock_reads w)) - w_clock w (w_clock_reads w))%Z))].
Proof.
  intros H0 H1 Hle. rewrite main_trace. unfold run_events, elapsed.
  rewrite (sub_mono_forward _ _ H1 H0 Hle).
  exists (w_trace w ++ [load_record w; ELog LevelInfo "Application started" []]
            ++ loop_events (w_net w) (api_key w) debug (w_requests w) order
            ++ [ELog LevelInfo "Application stopped" []]).
  rewrite <- !app_assoc. reflexivity.
Qed.

End Driver.

(** ** Configuration *)

(** C4: the key [main] sends is the environment's [API_KEY] when it is
    set, even if [.env] sets it too ([godotenv.Load] does not override);
    otherwise the [API_KEY] the parser reads from a [.env] that parses
    (its last line for the name), if [os.Setenv] accepts the value (no
    NUL byte); otherwise the empty string.  A missing or malformed
    [.env] does not stop the run. *)
Theorem api_key_spec (w : World) :
  api_key w =
    match w_env w !! "API_KEY" with
    | Some k => k
    | None =>
        match w_dotenv w with
        | DotEnvFile src =>
            match DotEnv.unmarshal_bytes src with
            | DotEnv.Success out =>
                match out !! "API_KEY" with
                | Some v => if DotEnv.setenv_ok "API_KEY" v then v else ""
                | None => ""
                end
            | DotEnv.Failure _ => ""
            end
        | _ => ""
        end
    end.
Proof.
  rewrite api_key_env. unfold env_after_load, DotEnv.load_env.
  destruct (w_env w !! "API_KEY") as [k|] eqn:E; destruct (w_dotenv w) as [| |src]; simpl; rewrite ?E;
    try reflexivity; destruct (DotEnv.unmarshal_bytes src) as [out|e]; simpl; rewrite ?E; try reflexivity.
  - rewrite (lookup_union_Some_l _ _ _ _ E). reflexivity.
  - rewrite (lookup_union_r _ _ _ E), map_lookup_filter.
    destruct (out !! "API_KEY") as [v|]; simpl; [|reflexivity].
    destruct (DotEnv.setenv_ok "API_KEY" v); reflexivity.
Qed.

(** C31: [godotenv.Load] and [os.Getenv] composed: when the environment
    has no [API_KEY] and [.env] is a file of plain [KEY=VALUE] lines
    whose last [API_KEY] line gives [v], the key [main] sends is [v]. *)
Theorem api_key_from_file (w : World) (entries : list (string * string)) (v : string) :
  w_env w !! "API_KEY" = None -> w_dotenv w = DotEnvFile (DotEnv.render entries) ->
  Forall (fun kv => DotEnv.plain_entry kv = true) entries -> DotEnv.dotenv_map entries !! "API_KEY" = Some v ->
  api_key w = v.
Proof.
  intros He Hd Hp Hv. rewrite api_key_env. unfold env_after_load. rewrite Hd, DotEnv.load_env_render by exact Hp.
  rewrite (lookup_union_r _ _ _ He), Hv. reflexivity.
Qed.

(** ** The driver with [fetchWeatherData] *)

Lemma fetch_messages_disjoint :
  ~ In msg_success fetch_messages_impl /\ ~ In msg_failure fetch_messages_impl.
Proof. split; simpl; intros H; repeat destruct H as [H|H]; discriminate || contradiction. Qed.

Lemma unauthorized_result (status : Z) :
  fetch_result_impl (Response status unauthorized_body) = inr (mkTemperature zero).
Proof.
  change (fetch_result_impl (Response status unauthorized_body))
    with (fetch_result_impl (Response 0 unauthorized_body)).
  vm_compute. reflexivity.
Qed.

Lemma celsius_round_zero : celsius_round zero = of_decimal true 27315 (-2).
Proof. vm_compute. reflexivity. Qed.

(** A world with no [API_KEY], no [.env], a service that answers every
    request with its 401 error body, and a clock that advances 1.5 ms
    between readings. *)
Definition unauthorized_world : World :=
  mkWorld ∅ DotEnvMissing (fun _ _ => Response 401 unauthorized_body) 0 [] (fun k => Z.of_nat k * 1500000)%Z 0.

(** C12: when the service answers every request with its 401 error body,
    which is what it does when [API_KEY] is unset, every city is logged
    as a successful reading of -273.15 degrees and no city is logged as
    a failure, for every iteration order. *)
Theorem main_unauthorized (order : list (string * (string * string))) (w : World) (status : Z) :
  (forall n url, w_net w n url = Response status unauthorized_body) ->
  Permutation order (map_to_list cities) ->
  exists evs, w_trace (snd (main_with_order order w)) = w_trace w ++ evs /\
  Permutation (List.filter is_city_record evs)
    (map (fun entry => ELog LevelInfo msg_success
                         [("city", AString entry.1); (attr_celsius, AFloat (of_decimal true 27315 (-2)))])
         (map_to_list cities)).
Proof.
  intros Hnet Hperm. exists (run_events order w). split; [apply main_trace|].
  assert (Hst : stateless (w_net w)) by (intros n u; rewrite !Hnet; reflexivity).
  eapply Permutation_trans; [exact (@run_city_records FetchWeatherData fetch_messages_disjoint order w Hst Hperm)|].
  erewrite map_ext; [reflexivity|]. intros [name [lat lon]].
  unfold spec_city_record. rewrite Hnet.
  change (fetch_result (Response status unauthorized_body))
    with (fetch_result_impl (Response status unauthorized_body)).
  rewrite unauthorized_result. unfold city_record.
  change (Temp (mkTemperature zero)) with zero. rewrite celsius_round_zero. reflexivity.
Qed.

Lemma main_unauthorized_witness :
  (forall n url, w_net unauthorized_world n url = Response 401 unauthorized_body) /\
  Permutation (map_to_list cities) (map_to_list cities) /\
  exists evs, w_trace (snd (main_with_order (map_to_list cities) unauthorized_world)) = w_trace unauthorized_world ++ evs /\
  Permutation (List.filter is_city_record evs)
    (map (fun entry => ELog LevelInfo msg_success
                         [("city", AString entry.1); (attr_celsius, AFloat (of_decimal true 27315 (-2)))])
         (map_to_list cities)).
Proof.
  split; [reflexivity|]. split; [reflexivity|].
  apply (main_unauthorized _ _ 401); [intros n u|]; reflexivity.
Defined.

Lemma main_city_records_witness :
  (~ In msg_success fetch_messages_impl /\ ~ In msg_failure fetch_messages_impl) /\
  stateless (w_net unauthorized_world) /\
  Permutation (map_to_list cities) (map_to_list cities) /\
  exists evs, w_trace (snd (main_with_order (map_to_list cities) unauthorized_world)) = w_trace unauthorized_world ++ evs /\
  Permutation (List.filter is_city_record evs)
    (map (spec_city_record (w_net unauthorized_world 0) (api_key unauthorized_world)) (map_to_list cities)).
Proof.
  split; [exact fetch_messages_disjoint|]. split; [intros n u; reflexivity|]. split; [reflexivity|].
  apply (@main_city_records FetchWeatherData fetch_messages_disjoint); [intros n u; reflexivity | reflexivity].
Defined.

Lemma main_record_counts_witness :
  (~ In msg_success fetch_messages_impl /\ ~ In msg_failure fetch_messages_impl) /\
  Permutation (map_to_list cities) (map_to_list cities) /\
  let M := loop_failures (w_net unauthorized_world) (api_key unauthorized_world) 0 (map_to_list cities) in
  exists evs, w_trace (snd (main_with_order (map_to_list cities) unauthorized_world)) = w_trace unauthorized_world ++ evs /\
  count_if is_success_record evs = (4 - M)%nat /\ count_if is_failure_record evs = M /\
  count_if is_error_record evs = (2 * M + dotenv_failed unauthorized_world)%nat /\ (M <= 4)%nat.
Proof.
  split; [exact fetch_messages_disjoint|]. split; [reflexivity|].
  apply (@main_record_counts FetchWeatherData fetch_messages_disjoint). reflexivity.
Defined.

Lemma main_completes_witness :
  Permutation (map_to_list cities) (map_to_list cities) /\
  exists evs, w_trace (snd (main_with_order (map_to_list cities) unauthorized_world)) = w_trace unauthorized_world ++ evs /\
  Permutation (map request_url (List.filter is_request evs))
              (map (entry_url (api_key unauthorized_world)) (map_to_list cities)) /\
  exists pre, evs = pre ++ [ELog LevelInfo "Application stopped" []; EPrint (exec_time_line (elapsed unauthorized_world))].
Proof.
  split; [reflexivity|].
  apply (@main_completes FetchWeatherData). reflexivity.
Defined.

(** The clock of [unauthorized_world] reads 0 and then 1.5 ms. *)
Lemma main_prints_elapsed_witness :
  ((min_int64 <= w_clock unauthorized_world (w_clock_reads unauthorized_world) <= max_int64)%Z /\
   (min_int64 <= w_clock unauthorized_world (S (w_clock_reads unauthorized_world)) <= max_int64)%Z /\
   (w_clock unauthorized_world (w_clock_reads unauthorized_world)
     <= w_clock unauthorized_world (S (w_clock_reads unauthorized_world)))%Z) /\
  exists pre, w_trace (snd (main_with_order (map_to_list cities) unauthorized_world)) =
    pre ++ [EPrint (exec_time_line
                      (Z.min max_int64 (w_clock unauthorized_world (S (w_clock_reads unauthorized_world))
                                        - w_clock unauthorized_world (w_clock_reads unauthorized_world))%Z))].
Proof.
  assert (H0 : (min_int64 <= w_clock unauthorized_world (w_clock_reads unauthorized_world) <= max_int64)%Z)
    by (cbn; unfold min_int64, max_int64; lia).
  assert (H1 : (min_int64 <= w_clock unauthorized_world (S (w_clock_reads unauthorized_world)) <= max_int64)%Z)
    by (cbn; unfold min_int64, max_int64; lia).
  assert (Hle : (w_clock unauthorized_world (w_clock_reads unauthorized_world)
                  <= w_clock unauthorized_world (S (w_clock_reads unauthorized_world)))%Z) by (cbn; lia).
  split; [exact (conj H0 (conj H1 Hle))|].
  exact (@main_prints_elapsed FetchWeatherData (map_to_list cities) unauthorized_world H0 H1 Hle).
Defined.

(** A world with no [API_KEY] in the environment and a [.env] that sets
    it twice. *)
Definition file_entries : list (string * string) := [("API_KEY", "old"); ("CITY", "Tokyo"); ("API_KEY", "k2")].

Definition file_world : World :=
  mkWorld ∅ (DotEnvFile (DotEnv.render file_entries)) (fun _ _ => Response 401 unauthorized_body) 0 []
          (fun _ => 0%Z) 0.

Lemma api_key_from_file_witness :
  (w_env file_world !! "API_KEY" = None /\ w_dotenv file_world = DotEnvFile (DotEnv.render file_entries) /\
   Forall (fun kv => DotEnv.plain_entry kv = true) file_entries /\
   DotEnv.dotenv_map file_entries !! "API_KEY" = Some "k2") /\
  api_key file_world = "k2".
Proof.
  assert (H1 : w_env file_world !! "API_KEY" = None) by reflexivity.
  assert (H2 : w_dotenv file_world = DotEnvFile (DotEnv.render file_entries)) by reflexivity.
  assert (H3 : Forall (fun kv => DotEnv.plain_entry kv = true) file_entries) by (repeat constructor).
  assert (H4 : DotEnv.dotenv_map file_entries !! "API_KEY" = Some "k2") by (vm_compute; reflexivity).
  split; [exact (conj H1 (conj H2 (conj H3 H4)))|].
  exact (api_key_from_file file_world file_entries "k2" H1 H2 H3 H4).
Defined.

End Driver.
