(* ===== verification/Machine.v ===== *)
(** * [main] as a transition system

    The statements of [main] (main.go lines 43-81) as the transitions of
    a small-step machine.  A configuration is the statement [main] is at
    ([Pc]), the value of the local [startNow] the deferred closure
    captures (the clock reading, [0] before line 45 assigns it), and the
    process world:
    - [PcStart]: [main] is entered; next [time.Now()] (line 45);
    - [PcTimed]: the timer has started and its print is deferred (lines
      46-48), the logger is built (line 50); next is [godotenv.Load()];
    - [PcLoaded]: [Load] has returned (line 52); next the record of its
      outcome (lines 53-56);
    - [PcReported]: next "Application started" (line 58);
    - [PcStarted]: next [os.Getenv("API_KEY")] (line 61);
    - [PcKeyRead]: the registry is built (lines 63-68); next the
      [range] (line 70), which picks an iteration order: any permutation
      of the map's entries, the one nondeterministic transition;
    - [PcLoop]: inside the loop with the entries left;
    - [PcStopping], [PcPrinting]: the two deferred calls, in reverse
      order of registration (lines 59 and 46-48), the second reading the
      clock again and printing the elapsed time;
    - [PcDone]: [main] has returned.
    The main theorem is that the well-formedness of the output (requests
    counted, each body closed at most once and only after its request)
    is an invariant of every run, by rule induction ([trace_wf_invariant]).
    The lemmas around it check the machine itself: every transition
    decreases a measure and only [PcDone] is stuck, and the runs from
    [PcStart] to [PcDone] are exactly the big-step runs
    [Driver.main_runs].  That every run ends says nothing about the
    program: each statement of the model returns, the network oracle
    always answers, where the real [http.Get] has no client timeout and
    can wait forever for a server that does not answer. *)

From S2P Require Import Prelude DotEnv World Fetch Driver Duration.
From stdpp Require Import base gmap strings list.
From Stdlib Require Import ZArith String Lia Wellfounded.

Module Machine.
Import World Fetch Driver Duration.

Inductive Pc :=
| PcStart
| PcTimed
| PcLoaded (loaded : option string)
| PcReported
| PcStarted
| PcKeyRead (apiKey : string)
| PcLoop (apiKey : string) (rest : list (string * (string * string)))
| PcStopping
| PcPrinting
| PcDone.

(** The statement, the captured [startNow], the world. *)
Definition Config : Type := Pc * Z * World.

Section Machine.
Context `{F : Fetcher}.

(** One statement of [main]. *)
Inductive step : Config -> Config -> Prop :=
| step_now s w :
    step (PcStart, s, w) (PcTimed, fst (time_now w), snd (time_now w))
| step_load s w :
    step (PcTimed, s, w) (PcLoaded (fst (godotenv_Load w)), s, snd (godotenv_Load w))
| step_report loaded s w :
    step (PcLoaded loaded, s, w) (PcReported, s, snd (report_load debug loaded w))
| step_started s w :
    step (PcReported, s, w) (PcStarted, s, snd (log debug LevelInfo "Application started" [] w))
| step_getenv s w :
    step (PcStarted, s, w) (PcKeyRead (fst (getenv "API_KEY" w)), s, snd (getenv "API_KEY" w))
| step_range key order s w :
    Permutation order (map_to_list cities) ->
    step (PcKeyRead key, s, w) (PcLoop key order, s, w)
| step_iteration key entry rest s w :
    step (PcLoop key (entry :: rest), s, w) (PcLoop key rest, s, snd (city_iteration key debug entry w))
| step_loop_done key s w :
    step (PcLoop key [], s, w) (PcStopping, s, w)
| step_stopped s w :
    step (PcStopping, s, w) (PcPrinting, s, snd (log debug LevelInfo "Application stopped" [] w))
| step_elapsed s w :
    step (PcPrinting, s, w) (PcDone, s, snd (print_elapsed s w)).

(** The number of statements left at most. *)
Definition measure (c : Config) : nat :=
  match fst (fst c) with
  | PcStart => 13 | PcTimed => 12 | PcLoaded _ => 11 | PcReported => 10 | PcStarted => 9 | PcKeyRead _ => 8
  | PcLoop _ rest => 3 + List.length rest
  | PcStopping => 2 | PcPrinting => 1 | PcDone => 0
  end.

Lemma step_measure (c c' : Config) : step c c' -> measure c' < measure c.
Proof.
  intros H; destruct H as [| | | | |key order s w HP| | | |]; unfold measure; simpl; try lia.
  apply Permutation_length in HP. rewrite HP, length_cities. lia.
Qed.

(** [main] terminates.  No configuration starts an infinite
    sequence of transitions: the reverse of [step] is well founded, since
    every statement decreases the measure (at most thirteen transitions,
    four loop iterations). *)
Theorem step_terminates : well_founded (fun c' c => step c c').
Proof.
  apply (wf_incl _ _ (fun c' c => measure c' < measure c)).
  - intros c' c H. apply step_measure. exact H.
  - apply wf_inverse_image, lt_wf.
Qed.

(** Every configuration but the final one has a transition. *)
Lemma step_progress (c : Config) : fst (fst c) <> PcDone -> exists c', step c c'.
Proof.
  destruct c as [[[| | | | |key|key' [|e rest]| | | ] s] w]; intros Hd; try (eexists; constructor; fail).
  - exists (PcLoop key (map_to_list cities), s, w). constructor. reflexivity.
  - contradiction.
Qed.

(** [main] always gets to its end.  From every configuration a
    sequence of transitions leads to [PcDone]; with [step_progress] and
    the decreasing measure, every run that cannot be extended has
    returned. *)
Theorem step_reaches_done (c : Config) : exists s' w', star step c (PcDone, s', w').
Proof.
  induction c as [c IH] using (well_founded_induction (wf_inverse_image _ nat lt measure lt_wf)).
  destruct (fst (fst c)) eqn:E; try (destruct (step_progress c ltac:(rewrite E; discriminate)) as [c' S];
    destruct (IH c' (step_measure c c' S)) as (s' & w' & R); exists s', w'; eapply star_step; eauto).
  destruct c as [[pc s] w]. simpl in E. subst pc. exists s, w. apply star_refl.
Qed.

(** ** The output stays well formed *)

(** Every request is counted, and the body of a request is closed at most
    once, and only when the request has been made. *)
Definition trace_wf (w : World) : Prop :=
  count_if is_request (w_trace w) = w_requests w /\
  forall m, count_if (is_close_of m) (w_trace w) <= (if m <? w_requests w then 1 else 0).

(** An event that is neither a request nor a close. *)
Definition quiet (ev : Event) : Prop := is_request ev = false /\ forall m, is_close_of m ev = false.

Lemma trace_wf_quiet (w w' : World) (evs : list Event) :
  trace_wf w -> Forall quiet evs ->
  w_trace w' = w_trace w ++ evs -> w_requests w' = w_requests w -> trace_wf w'.
Proof.
  intros [Hr Hc] Hq Ht Hn. split; rewrite Ht, Hn.
  - rewrite count_if_app, (count_if_false is_request evs)
      by (eapply Forall_impl; [exact Hq|]; intros ev [H _]; exact H). lia.
  - intros m. rewrite count_if_app, (count_if_false (is_close_of m) evs)
      by (eapply Forall_impl; [exact Hq|]; intros ev [_ H]; apply H). specialize (Hc m). lia.
Qed.

Lemma trace_wf_log (lg : Logger) (lvl : Level) (msg : string) attrs (w : World) :
  trace_wf w -> trace_wf (snd (log lg lvl msg attrs w)).
Proof.
  intros H. rewrite log_run. eapply trace_wf_quiet; [exact H| |reflexivity|reflexivity].
  destruct (enabled lg lvl); repeat constructor.
Qed.

Lemma trace_wf_iteration (key : string) (entry : string * (string * string)) (w : World) :
  trace_wf w -> trace_wf (snd (city_iteration key debug entry w)).
Proof.
  destruct entry as [name [lat lon]]. rewrite city_iteration_run. cbn [snd w_trace w_requests].
  set (n := w_requests w). set (url := weather_url lat lon key). set (out := w_net w n url).
  intros [Hr Hc].
  assert (Hq : Forall quiet (when_enabled debug (city_record name (fetch_result out))))
    by (unfold when_enabled, city_record; destruct (fetch_result out); simpl; repeat constructor).
  destruct (fetch_one_request debug n url out) as [rest [Hev Hrest]].
  unfold trace_wf; cbn [w_trace w_requests]. split.
  - rewrite !count_if_app, Hev, count_if_cons, (count_if_false is_request rest) by exact Hrest.
    rewrite (count_if_false is_request (when_enabled _ _))
      by (eapply Forall_impl; [exact Hq|]; intros ev [H _]; exact H).
    simpl. lia.
  - intros m. specialize (Hc m). change (w_requests w) with n in Hc.
    pose proof (fetch_closes debug n url out m) as Hf.
    rewrite !count_if_app, (count_if_false (is_close_of m) (when_enabled _ _))
      by (eapply Forall_impl; [exact Hq|]; intros ev [_ H]; apply H).
    destruct (Nat.ltb_spec m n), (Nat.ltb_spec m (S n)), (Nat.eqb_spec m n); lia.
Qed.

Lemma step_trace_wf (c c' : Config) : step c c' -> trace_wf (snd c) -> trace_wf (snd c').
Proof.
  intros Hs; destruct Hs; cbn [fst snd]; intros Hw.
  - apply (trace_wf_quiet w _ [] Hw); [constructor | symmetry; apply app_nil_r | reflexivity].
  - unfold godotenv_Load. destruct (w_dotenv w); [| |destruct (DotEnv.load_env _ _)]; exact Hw.
  - destruct loaded; apply trace_wf_log; exact Hw.
  - apply trace_wf_log; exact Hw.
  - exact Hw.
  - exact Hw.
  - apply trace_wf_iteration; exact Hw.
  - exact Hw.
  - apply trace_wf_log; exact Hw.
  - apply (trace_wf_quiet w _ [EPrint (exec_time_line (sub_mono (fst (time_now w)) s))] Hw);
      [repeat constructor | reflexivity | reflexivity].
Qed.

(** C19: the well-formedness of the output is an invariant of the
    machine: along every sequence of statements of [main], every request
    made is counted in [w_requests], and no response body is closed
    twice or before its request.  Proved by induction on the sequence,
    each statement preserving it. *)
Theorem trace_wf_invariant (c c' : Config) :
  star step c c' -> trace_wf (snd c) -> trace_wf (snd c').
Proof. induction 1 as [|a b c' S _ IH]; [auto|]. intros H. apply IH. exact (step_trace_wf a b S H). Qed.

(** ** The machine and the big-step [main] *)

Lemma snd_bind {S A B : Type} (m : St S A) (k : A -> St S B) (s : S) :
  snd (st_bind m k s) = snd (k (fst (m s)) (snd (m s))).
Proof. unfold st_bind. destruct (m s). reflexivity. Qed.

(** What is left to run from the loop with [rest] to do, with the
    captured [startNow]. *)
Definition loop_rest (key : string) (rest : list (string * (string * string))) (s : Z) : St World unit :=
  st_for (city_iteration key debug) rest ;;;
  log debug LevelInfo "Application stopped" [] ;;;
  print_elapsed s.

Lemma loop_star (key : string) (rest : list (string * (string * string))) (s : Z) (w : World) :
  star step (PcLoop key rest, s, w) (PcDone, s, snd (loop_rest key rest s w)).
Proof.
  revert w. induction rest as [|e rest IH]; intros w; unfold loop_rest.
  - cbn [st_for]. rewrite !snd_bind.
    eapply star_step; [apply step_loop_done|].
    eapply star_step; [apply step_stopped|].
    eapply star_step; [apply step_elapsed|]. apply star_refl.
  - cbn [st_for]. rewrite st_bind_assoc, snd_bind.
    eapply star_step; [apply step_iteration|]. apply IH.
Qed.

(** The machine has no transition out of [PcDone]. *)
Lemma star_done (s : Z) (w : World) (c : Config) : star step (PcDone, s, w) c -> c = (PcDone, s, w).
Proof. intros H. inversion H as [|a b c' S]; [reflexivity|]. inversion S. Qed.

Lemma loop_star_inv (key : string) (rest : list (string * (string * string))) (s s' : Z) (w w' : World) :
  star step (PcLoop key rest, s, w) (PcDone, s', w') -> w' = snd (loop_rest key rest s w).
Proof.
  revert w. induction rest as [|e rest IH]; intros w H; unfold loop_rest.
  - cbn [st_for]. rewrite !snd_bind.
    inversion H as [|? c1 ? S1 R1]; subst. inversion S1; subst.
    inversion R1 as [|? c2 ? S2 R2]; subst. inversion S2; subst.
    inversion R2 as [|? c3 ? S3 R3]; subst. inversion S3; subst.
    apply star_done in R3. injection R3 as _ ->. reflexivity.
  - cbn [st_for]. rewrite st_bind_assoc, snd_bind.
    inversion H as [|? c1 ? S1 R1]; subst. inversion S1; subst. apply IH. exact R1.
Qed.

Lemma main_with_order_rest (order : list (string * (string * string))) (w0 : World) :
  let s := fst (time_now w0) in
  let w := snd (time_now w0) in
  snd (main_with_order order w0) =
    snd (loop_rest (fst (getenv "API_KEY" (snd (log debug LevelInfo "Application started" []
                      (snd (report_load debug (fst (godotenv_Load w)) (snd (godotenv_Load w))))))))
                   order s
                   (snd (getenv "API_KEY" (snd (log debug LevelInfo "Application started" []
                      (snd (report_load debug (fst (godotenv_Load w)) (snd (godotenv_Load w))))))))).
Proof. unfold main_with_order, loop_rest. rewrite !snd_bind. reflexivity. Qed.

(** A big-step run is a run of the machine. *)
Lemma main_star (order : list (string * (string * string))) (s : Z) (w : World) :
  Permutation order (map_to_list cities) ->
  star step (PcStart, s, w) (PcDone, fst (time_now w), snd (main_with_order order w)).
Proof.
  intros Hp. rewrite main_with_order_rest.
  eapply star_step; [apply step_now|].
  eapply star_step; [apply step_load|].
  eapply star_step; [apply step_report|].
  eapply star_step; [apply step_started|].
  eapply star_step; [apply step_getenv|].
  eapply star_step; [apply step_range; exact Hp|]. apply loop_star.
Qed.

(** A run of the machine is a big-step run. *)
Lemma star_main (s s' : Z) (w w' : World) :
  star step (PcStart, s, w) (PcDone, s', w') -> main_runs w w'.
Proof.
  intros H.
  inversion H as [|? c0 ? S0 R0]; subst. inversion S0; subst.
  inversion R0 as [|? c1 ? S1 R1]; subst. inversion S1; subst.
  inversion R1 as [|? c2 ? S2 R2]; subst. inversion S2; subst.
  inversion R2 as [|? c3 ? S3 R3]; subst. inversion S3; subst.
  inversion R3 as [|? c4 ? S4 R4]; subst. inversion S4; subst.
  inversion R4 as [|? c5 ? S5 R5]; subst. inversion S5 as [| | | | |? order ? ? Hp| | | |]; subst.
  exists order. split; [exact Hp|]. rewrite main_with_order_rest. symmetry.
  eapply loop_star_inv. exact R5.
Qed.

(** The small-step machine and the big-step [main] agree: [w'] is
    the world after [main] from [w] for some iteration order of the map
    exactly when the machine goes from [PcStart] in [w] to [PcDone] in
    [w'] (with [startNow] the first clock reading). *)
Theorem machine_refines_main (s : Z) (w w' : World) :
  main_runs w w' <-> exists s', star step (PcStart, s, w) (PcDone, s', w').
Proof.
  split; [|intros [s' H]; exact (star_main s s' w w' H)].
  intros (order & Hp & <-). eexists. apply main_star. exact Hp.
Qed.

End Machine.

(** The fetcher of main.go, from a world with an empty output. *)
Lemma trace_wf_invariant_witness :
  star (@step FetchWeatherData) (PcStart, 0%Z, unauthorized_world)
       (PcDone, 0%Z, snd (main_with_order (map_to_list cities) unauthorized_world)) /\
  trace_wf (snd (PcStart, 0%Z, unauthorized_world)) /\
  trace_wf (snd (PcDone, 0%Z, snd (main_with_order (map_to_list cities) unauthorized_world))).
Proof.
  assert (S : star (@step FetchWeatherData) (PcStart, 0%Z, unauthorized_world)
                   (PcDone, 0%Z, snd (main_with_order (map_to_list cities) unauthorized_world)))
    by (apply (main_star _ 0%Z); reflexivity).
  split; [exact S|]. split; [split; [reflexivity | intros m; cbn; lia]|].
  apply (trace_wf_invariant _ _ S). split; [reflexivity | intros m; cbn; lia].
Defined.

End Machine.
